(** * MySQL MCP server: version-control and rollback engine

    A shallow embedding of [src/index.js] (class [MySQLMCPServer]): the
    statement classifier, the snapshot capturer [createBackup], the history
    ledger [saveVersion] and the rollback executor [handleRollbackToVersion],
    together with the properties the specification states about them.

    Modelling conventions.
    - JavaScript strings are [string]s of ASCII characters; [toUpperCase],
      [toLowerCase], [trim] and the regular-expression classes act on the
      ASCII range only.
    - JavaScript integers are [Z]; [String(n)] is the decimal rendering.
      Arithmetic on them is that of doubles: a sum or difference is rounded
      to the nearest double ([numberAdd], [numberSub]), which is the exact
      result up to 2^53 in magnitude.
    - The MySQL connection, the wall clock, [process.hrtime] and the
      [Date] parser are collaborators of the class: they are the fields of
      the type class [Host], and every statement sent through
      [connection.execute] is recorded in the world's [issued] trace.
    - [async] methods become computations in a state-and-exception monad
      over the [World]; [throw] keeps the state reached so far. *)

From Stdlib Require Import String Ascii List ZArith NArith Lia Bool Arith.
From Stdlib Require Import DecimalString.
Import ListNotations.

Local Open Scope string_scope.
Local Open Scope Z_scope.

(** ** JavaScript string primitives *)

Module JsString.

Definition is_upper (c : ascii) : bool :=
  let n := nat_of_ascii c in ((65 <=? n) && (n <=? 90))%nat.

Definition is_lower (c : ascii) : bool :=
  let n := nat_of_ascii c in ((97 <=? n) && (n <=? 122))%nat.

Definition is_digit (c : ascii) : bool :=
  let n := nat_of_ascii c in ((48 <=? n) && (n <=? 57))%nat.

(** [\s]: tab, line feed, vertical tab, form feed, carriage return, space. *)
Definition is_space (c : ascii) : bool :=
  let n := nat_of_ascii c in (((9 <=? n) && (n <=? 13)) || (n =? 32))%nat.

(** [\w]: letters, digits and the underscore. *)
Definition is_word (c : ascii) : bool :=
  is_upper c || is_lower c || is_digit c || Ascii.eqb c "_".

(** [.]: anything but a line terminator. *)
Definition is_dot (c : ascii) : bool :=
  let n := nat_of_ascii c in negb ((n =? 10) || (n =? 13))%nat.

Definition upper_char (c : ascii) : ascii :=
  if is_lower c then ascii_of_nat (nat_of_ascii c - 32) else c.

Definition lower_char (c : ascii) : ascii :=
  if is_upper c then ascii_of_nat (nat_of_ascii c + 32) else c.

Fixpoint map_chars (f : ascii -> ascii) (s : string) : string :=
  match s with
  | EmptyString => EmptyString
  | String c s' => String (f c) (map_chars f s')
  end.

Definition toUpperCase : string -> string := map_chars upper_char.
Definition toLowerCase : string -> string := map_chars lower_char.

Fixpoint trimStart (s : string) : string :=
  match s with
  | String c s' => if is_space c then trimStart s' else s
  | EmptyString => EmptyString
  end.

Fixpoint trimEnd (s : string) : string :=
  match s with
  | EmptyString => EmptyString
  | String c s' =>
      match trimEnd s' with
      | EmptyString => if is_space c then EmptyString else String c EmptyString
      | t => String c t
      end
  end.

Definition trim (s : string) : string := trimEnd (trimStart s).

Definition startsWith (s p : string) : bool := String.prefix p s.

Fixpoint includes (s p : string) : bool :=
  String.prefix p s ||
  match s with
  | EmptyString => false
  | String _ s' => includes s' p
  end.

(** [s.slice(-n)]: the last [n] characters, the whole string when shorter. *)
Definition sliceLast (n : nat) (s : string) : string :=
  String.substring (String.length s - n) n s.

(** [s.slice(0, n)]. *)
Definition sliceTo (n : nat) (s : string) : string := String.substring 0 n s.

(** [s.slice(0, -1)]. *)
Definition dropLast (s : string) : string :=
  String.substring 0 (String.length s - 1) s.

(** [s.replace(a, b)] for one-character [a] and [b]: first occurrence only. *)
Fixpoint replaceChar (a b : ascii) (s : string) : string :=
  match s with
  | EmptyString => EmptyString
  | String c s' => if Ascii.eqb c a then String b s' else String c (replaceChar a b s')
  end.

Fixpoint join (sep : string) (l : list string) : string :=
  match l with
  | [] => ""
  | [x] => x
  | x :: rest => x ++ sep ++ join sep rest
  end.

(** [String(n)] for an integer. *)
Definition ofZ (z : Z) : string := NilZero.string_of_int (Z.to_int z).

(** [String(n).padStart(w, '0')] for a non-negative field of a date. *)
Definition pad0 (w : nat) (z : Z) : string :=
  let s := ofZ z in
  String.concat "" (repeat "0" (w - String.length s)) ++ s.

End JsString.

(** ** Regular expressions, with the backtracking semantics of JavaScript *)

Module Regex.
Import JsString.

Inductive regex : Type :=
| Eps
| Chr (p : ascii -> bool)          (* one character of a class *)
| Seq (r1 r2 : regex)
| Alt (r1 r2 : regex)              (* r1|r2, r1 tried first *)
| Star (greedy : bool) (r : regex) (* r* and r*? *)
| Group (n : nat) (r : regex)      (* the n-th capturing group *)
| Backref (n : nat)                (* \n *)
| Eos.                             (* $ *)

Definition Plus (g : bool) (r : regex) : regex := Seq r (Star g r).
Definition Opt (r : regex) : regex := Alt r Eps.

Fixpoint lit (s : string) : regex :=
  match s with
  | EmptyString => Eps
  | String c s' => Seq (Chr (Ascii.eqb c)) (lit s')
  end.

(** A literal under the [i] flag. *)
Fixpoint lit_i (s : string) : regex :=
  match s with
  | EmptyString => Eps
  | String c s' =>
      Seq (Chr (fun x => Ascii.eqb (upper_char x) (upper_char c))) (lit_i s')
  end.

Fixpoint times (n : nat) (r : regex) : regex :=
  match n with
  | O => Eps
  | S n' => Seq r (times n' r)
  end.

Definition captures := list (nat * string).

Fixpoint capture (n : nat) (c : captures) : option string :=
  match c with
  | [] => None
  | (m, s) :: c' => if Nat.eqb m n then Some s else capture n c'
  end.

Definition orElse {A} (a b : option A) : option A :=
  match a with Some _ => a | None => b end.

(** [run r s c k]: match [r] at the head of [s], then continue with [k]
    on what is left; alternatives are explored in priority order. *)
Fixpoint run {A} (r : regex) (s : string) (c : captures)
         (k : string -> captures -> option A) : option A :=
  match r with
  | Eps => k s c
  | Chr p =>
      match s with
      | String x s' => if p x then k s' c else None
      | EmptyString => None
      end
  | Seq r1 r2 => run r1 s c (fun s1 c1 => run r2 s1 c1 k)
  | Alt r1 r2 => orElse (run r1 s c k) (run r2 s c k)
  | Star g r1 =>
      (fix loop (fuel : nat) (s : string) (c : captures) : option A :=
         match fuel with
         | O => k s c
         | S fuel' =>
             let again :=
               run r1 s c (fun s1 c1 =>
                 if (String.length s1 <? String.length s)%nat
                 then loop fuel' s1 c1 else None) in
             if g then orElse again (k s c) else orElse (k s c) again
         end) (S (String.length s)) s c
  | Group n r1 =>
      run r1 s c (fun s1 c1 =>
        k s1 ((n, String.substring 0 (String.length s - String.length s1) s) :: c1))
  | Backref n =>
      match capture n c with
      | None => k s c
      | Some t =>
          if String.prefix t s
          then k (String.substring (String.length t)
                                   (String.length s - String.length t) s) c
          else None
      end
  | Eos => match s with EmptyString => k s c | _ => None end
  end.

(** Match anchored at the start of [s] (a pattern that begins with [^]). *)
Definition matchAt (r : regex) (s : string) : option captures :=
  run r s [] (fun _ c => Some c).

(** [s.match(r)] without the [g] flag: the leftmost match. *)
Fixpoint exec (r : regex) (s : string) : option captures :=
  orElse (matchAt r s)
         match s with
         | EmptyString => None
         | String _ s' => exec r s'
         end.

Definition test (r : regex) (s : string) : bool :=
  match exec r s with Some _ => true | None => false end.

Definition space : regex := Chr is_space.
Definition word : regex := Chr is_word.
Definition digit : regex := Chr is_digit.
Definition dot : regex := Chr is_dot.

End Regex.

Import JsString.

(** ** Data model *)

(** A cell of a row image, in the shape [JSON.stringify] stores it (a
    [Date] cell is stored as its ISO string). *)
Inductive Value : Type :=
| VNull
| VBool (b : bool)
| VNum (n : Z)
| VStr (s : string).

(** A row object: its keys in insertion order, as [Object.keys] lists them. *)
Definition Row : Type := list (string * Value).

(** What [connection.execute] resolves to: a row array for a query, a
    result header for a statement that writes. *)
Inductive ExecResult : Type :=
| RowSet (rows : list Row)
| ResultSetHeader (affectedRows insertId : Z).

Inductive Operation : Type :=
| INSERT | UPDATE | DELETE | CREATE_TABLE | DROP_TABLE | ROLLBACK.

Definition Operation_eqb (a b : Operation) : bool :=
  match a, b with
  | INSERT, INSERT | UPDATE, UPDATE | DELETE, DELETE
  | CREATE_TABLE, CREATE_TABLE | DROP_TABLE, DROP_TABLE | ROLLBACK, ROLLBACK => true
  | _, _ => false
  end.

Definition Operation_name (o : Operation) : string :=
  match o with
  | INSERT => "INSERT" | UPDATE => "UPDATE" | DELETE => "DELETE"
  | CREATE_TABLE => "CREATE_TABLE" | DROP_TABLE => "DROP_TABLE"
  | ROLLBACK => "ROLLBACK"
  end.

(** The [backupInfo] object of [createBackup]; a field that was never
    assigned is [None] and is absent from the stored document. *)
Record BackupInfo : Type := {
  bi_type : Operation;
  bi_sql_query : string;
  deletedRows : option ExecResult;
  originalRows : option ExecResult;
  structure : option Row;
  data : option ExecResult;
  tableName : option (option string);
  createQuery : option string;
  insertId : option Z;
  insertedRows : option Z;
  idRange : option (Z * Z)        (* { start, end } *)
}.

Definition newBackupInfo (operation : Operation) (query : string) : BackupInfo :=
  {| bi_type := operation; bi_sql_query := query;
     deletedRows := None; originalRows := None; structure := None; data := None;
     tableName := None; createQuery := None; insertId := None;
     insertedRows := None; idRange := None |}.

(** One row of the [version_history] table. [backup_data] holds the
    document that the stored JSON text encodes. *)
Record VersionRow : Type := {
  id : Z;
  session_id : string;
  timestamp : string;
  operation_type : Operation;
  target_table : option string;
  sql_query : string;
  backup_data : option BackupInfo;
  affected_rows : option Z;       (* [None]: [undefined] *)
  description : string
}.

(** The argument of [saveVersion]. *)
Record VersionInfo : Type := {
  vi_sessionId : string;
  vi_timestamp : string;
  vi_operationType : Operation;
  vi_targetTable : option string;
  vi_sqlQuery : string;
  vi_backupData : option BackupInfo;
  vi_affectedRows : option Z;
  vi_description : string
}.

(** The sqlite store: the rows of [version_history], oldest first, and the
    AUTOINCREMENT sequence. *)
Record Ledger : Type := {
  rows : list VersionRow;
  seq : Z
}.

Record Permissions : Type := {
  allowInsert : bool;
  allowUpdate : bool;
  allowDelete : bool
}.

Record Config : Type := {
  host : option string;
  port : option Z;
  user : option string;
  password : option string;
  database : option string
}.

(** The constant fields of the server object. *)
Record Server : Type := {
  defaultConfig : Config;
  permissions : Permissions;
  sessionId : string
}.

(** The tool result handed back to the caller. *)
Record Response : Type := {
  text : string;
  isError : bool
}.

Definition ok (t : string) : Response := {| text := t; isError := false |}.
Definition failure (t : string) : Response := {| text := t; isError := true |}.

Inductive Connection : Type := Conn.

(** [array.map(f)] for an [f] that may throw: the first error wins. *)
Fixpoint mapE {A B} (f : A -> string + B) (l : list A) : string + list B :=
  match l with
  | [] => inr []
  | x :: rest =>
      match f x with
      | inl e => inl e
      | inr y => match mapE f rest with
                 | inl e => inl e
                 | inr ys => inr (y :: ys)
                 end
      end
  end.

(** ** The collaborators *)

Class Host : Type := {
  DB : Type;
  (** [mysql.createConnection]: the message of the error it raises, if any. *)
  mysql_connect : Config -> option string;
  (** [connection.execute(sql, params)]: raises, or returns a result and
      the database it leaves. *)
  mysql_execute : string -> list Value -> DB -> string + (ExecResult * DB);
  (** [Date.now()] and [process.hrtime.bigint()] at the n-th reading. *)
  wall_clock : nat -> Z;
  hrtime : nat -> N;
  (** [new Date(v).toISOString().slice(0, 19).replace('T', ' ')]; raises a
      RangeError on an invalid date. *)
  date_literal : string -> string + string;
  (** The table renderer of query results. *)
  formatResultsAsTable : list Row -> string
}.

(** A statement handed to [connection.execute], with its bound values and
    whether the call returned ([true]) or raised ([false]). *)
Record Statement : Type := {
  sql : string;
  params : list Value;
  completed : bool
}.

(** Everything a handler can read or change, over a database of type [D]. *)
Record WorldOf (D : Type) : Type := {
  db : D;
  issued : list Statement;             (* statements sent to MySQL, oldest first *)
  versionDB : option Ledger;           (* [None]: the store failed to open *)
  console : list string;               (* console.error lines, oldest first *)
  tick : nat                           (* clock readings taken so far *)
}.

Arguments db {D} _.
Arguments issued {D} _.
Arguments versionDB {D} _.
Arguments console {D} _.
Arguments tick {D} _.

Section World.
Context {H : Host}.

Definition World : Type := WorldOf DB.

(** Computations that read and write the world and may throw an error
    message. *)
Definition M (A : Type) : Type := World -> (string + A) * World.

Definition ret {A} (a : A) : M A := fun w => (inr a, w).
Definition throw {A} (e : string) : M A := fun w => (inl e, w).
Definition bind {A B} (m : M A) (f : A -> M B) : M B :=
  fun w => match m w with
           | (inr a, w') => f a w'
           | (inl e, w') => (inl e, w')
           end.
Definition tryCatch {A} (m : M A) (h : string -> M A) : M A :=
  fun w => match m w with
           | (inr a, w') => (inr a, w')
           | (inl e, w') => h e w'
           end.

Definition console_error (line : string) : M unit :=
  fun w => (inr tt, {| db := db w; issued := issued w; versionDB := versionDB w;
                       console := console w ++ [line]; tick := tick w |}).

(** [await connection.execute(sql, params)]. *)
Definition execute (text : string) (values : list Value) : M ExecResult :=
  fun w =>
    let sent b :=
      (issued w ++ [{| sql := text; params := values; completed := b |}])%list in
    match mysql_execute text values (db w) with
    | inl e => (inl e, {| db := db w; issued := sent false; versionDB := versionDB w;
                          console := console w; tick := tick w |})
    | inr (r, d) => (inr r, {| db := d; issued := sent true; versionDB := versionDB w;
                               console := console w; tick := tick w |})
    end.

(** A pure step that may throw. *)
Definition liftE {A} (r : string + A) : M A :=
  match r with
  | inl e => throw e
  | inr a => ret a
  end.

Definition readClock : M (Z * N) :=
  fun w => (inr (wall_clock (tick w), hrtime (tick w)),
            {| db := db w; issued := issued w; versionDB := versionDB w;
               console := console w; tick := S (tick w) |}).

Definition getLedger : M (option Ledger) := fun w => (inr (versionDB w), w).

Definition putLedger (l : Ledger) : M unit :=
  fun w => (inr tt, {| db := db w; issued := issued w; versionDB := Some l;
                       console := console w; tick := tick w |}).

Fixpoint forEach {A} (l : list A) (body : A -> M unit) : M unit :=
  match l with
  | [] => ret tt
  | x :: rest => bind (body x) (fun _ => forEach rest body)
  end.

(** The ledger, the console and the clock are as they were. *)
Definition sameStore (w w' : World) : Prop :=
  versionDB w' = versionDB w /\ console w' = console w /\ tick w' = tick w.

(** A computation that talks to MySQL only. *)
Definition keepsStore {A} (m : M A) : Prop :=
  forall w, sameStore w (snd (m w)).


End World.

Declare Scope js_scope.
Delimit Scope js_scope with js.
Notation "x <- m ;; k" := (bind m (fun x => k))
  (at level 100, m at next level, right associativity) : js_scope.
Notation "m ;; k" := (bind m (fun _ => k))
  (at level 100, right associativity) : js_scope.

(** ** The regular expressions of the source *)

Module Patterns.
Import Regex.

Definition spaces : regex := Plus true space.

(** The table name with its optional quoting: a group that takes one
    backtick or double quote when there is one, [(\w+)], then [\1]. *)
Definition quotedName : regex :=
  Seq (Group 1 (Opt (Chr (fun c => Ascii.eqb c "`" || Ascii.eqb c "034"))))
      (Seq (Group 2 (Plus true word)) (Backref 1)).

(** [(?:DELETE\s+FROM|UPDATE|INSERT\s+INTO)\s+] and the quoted name. *)
Definition dmlTable : regex :=
  Seq (Alt (Seq (lit "DELETE") (Seq spaces (lit "FROM")))
           (Alt (lit "UPDATE")
                (Seq (lit "INSERT") (Seq spaces (lit "INTO")))))
      (Seq spaces quotedName).

(** [DROP\s+TABLE\s+(?:IF\s+EXISTS\s+)?] and the quoted name. *)
Definition dropTable : regex :=
  Seq (lit "DROP")
      (Seq spaces
           (Seq (lit "TABLE")
                (Seq spaces
                     (Seq (Opt (Seq (lit "IF")
                                    (Seq spaces (Seq (lit "EXISTS") spaces))))
                          quotedName)))).

(** [TRUNCATE\s+(?:TABLE\s+)?] and the quoted name. *)
Definition truncateTable : regex :=
  Seq (lit "TRUNCATE")
      (Seq spaces (Seq (Opt (Seq (lit "TABLE") spaces)) quotedName)).

(** [/WHERE\s+(.+?)(?:\s+ORDER\s+BY|\s+LIMIT|\s*$)/i] *)
Definition whereClause : regex :=
  Seq (lit_i "WHERE")
      (Seq spaces
           (Seq (Group 1 (Plus false dot))
                (Alt (Seq spaces (Seq (lit_i "ORDER") (Seq spaces (lit_i "BY"))))
                     (Alt (Seq spaces (lit_i "LIMIT"))
                          (Seq (Star true space) Eos))))).

(** [/^\d{4}-\d{2}-\d{2}T\d{2}:\d{2}:\d{2}/] *)
Definition isoDateTime : regex :=
  Seq (times 4 digit)
      (Seq (lit "-")
           (Seq (times 2 digit)
                (Seq (lit "-")
                     (Seq (times 2 digit)
                          (Seq (lit "T")
                               (Seq (times 2 digit)
                                    (Seq (lit ":")
                                         (Seq (times 2 digit)
                                              (Seq (lit ":") (times 2 digit)))))))))).

(** [m[n]] of a successful match; a group that took no part is the empty
    string in a template. *)
Definition group (n : nat) (c : captures) : string :=
  match capture n c with Some s => s | None => "" end.

End Patterns.

(** ** Timestamps *)

(** [new Date(ms).toISOString()]: the proleptic Gregorian calendar in UTC. *)
Definition toISOString (ms : Z) : string :=
  let days := ms / 86400000 in
  let rest := ms mod 86400000 in
  let z := days + 719468 in
  let era := z / 146097 in
  let doe := z - era * 146097 in
  let yoe := (doe - doe / 1460 + doe / 36524 - doe / 146096) / 365 in
  let doy := doe - (365 * yoe + yoe / 4 - yoe / 100) in
  let mp := (5 * doy + 2) / 153 in
  let d := doy - (153 * mp + 2) / 5 + 1 in
  let m := if mp <? 10 then mp + 3 else mp - 9 in
  let y := yoe + era * 400 + (if m <=? 2 then 1 else 0) in
  let year :=
    if (0 <=? y) && (y <=? 9999) then pad0 4 y
    else ((if (y <? 0)%Z then "-" else "+") ++ pad0 6 (Z.abs y))%string in
  (year ++ "-" ++ pad0 2 m ++ "-" ++ pad0 2 d ++ "T" ++
   pad0 2 (rest / 3600000)%Z ++ ":" ++ pad0 2 (rest / 60000 mod 60)%Z ++ ":" ++
   pad0 2 (rest / 1000 mod 60)%Z ++ "." ++ pad0 3 (rest mod 1000)%Z ++ "Z")%string.

(** [new Date().toISOString().replace('T', ' ').slice(0, -1)
      + String(process.hrtime.bigint()).slice(-6)] *)
Definition makeTimestamp (now : Z) (hr : N) : string :=
  (dropLast (replaceChar "T" " " (toISOString now))
   ++ sliceLast 6 (ofZ (Z.of_N hr)))%string.

(** ** Numbers

    A number of the language is a double. An integer of the model stands
    for the double of that value: every integer up to 2^53 in magnitude is
    one, a larger double is a multiple of a power of two with a
    significand of 53 bits. [+] and [-] return the double nearest to the
    exact result, a tie going to the even significand. This holds of
    magnitudes below 2^1024; the counts and identities that the driver
    reports are below 2^64. *)

Definition nearestDouble (z : Z) : Z :=
  let m := Z.abs z in
  if m <? 2 ^ 53 then z
  else
    let unit := 2 ^ (Z.log2 m - 52) in
    let q := m / unit in
    let r := m mod unit in
    let half := unit / 2 in
    let q' := if r <? half then q
              else if half <? r then q + 1
              else if Z.even q then q else q + 1 in
    Z.sgn z * (q' * unit).

(** [a + b] *)
Definition numberAdd (a b : Z) : Z := nearestDouble (a + b).

(** [a - b] *)
Definition numberSub (a b : Z) : Z := nearestDouble (a - b).

(** ** The server methods *)

Definition nl : string := String "010" EmptyString.

Definition truthy (v : Value) : bool :=
  match v with
  | VNull => false
  | VBool b => b
  | VNum n => negb (n =? 0)
  | VStr s => negb (String.eqb s "")
  end.

(** [row[key]]. *)
Fixpoint field (key : string) (row : Row) : option Value :=
  match row with
  | [] => None
  | (k, v) :: rest => if String.eqb k key then Some v else field key rest
  end.

(** A string that is neither [undefined] nor empty. *)
Definition present (s : option string) : bool :=
  match s with
  | Some t => negb (String.eqb t "")
  | None => false
  end.

(** A [null] table name inside a template literal. *)
Definition showTable (t : option string) : string :=
  match t with Some s => s | None => "null" end.

(** A count inside a template literal. *)
Definition showCount (n : option Z) : string :=
  match n with Some z => ofZ z | None => "undefined" end.

(** [rows.length] *)
Definition lengthOf (r : ExecResult) : option Z :=
  match r with
  | RowSet l => Some (Z.of_nat (List.length l))
  | ResultSetHeader _ _ => None
  end.

(** The connection overrides among the arguments of a tool call. *)
Definition mergeConfig (d o : Config) : Config :=
  let pick {A} (x y : option A) := match y with Some _ => y | None => x end in
  {| host := pick (host d) (host o); port := pick (port d) (port o);
     user := pick (user d) (user o); password := pick (password d) (password o);
     database := pick (database d) (database o) |}.

Definition noOverride : Config :=
  {| host := None; port := None; user := None; password := None; database := None |}.

Definition getOperationDescription
           (operation : Operation) (tableName : option string)
           (affectedRows : option Z) : string :=
  match operation with
  | INSERT => "INSERT operation: " ++ showCount affectedRows
              ++ " row(s) inserted into " ++ showTable tableName
  | UPDATE => "UPDATE operation: " ++ showCount affectedRows
              ++ " row(s) updated in " ++ showTable tableName
  | DELETE => "DELETE operation: " ++ showCount affectedRows
              ++ " row(s) deleted from " ++ showTable tableName
  | CREATE_TABLE => "CREATE TABLE operation: table " ++ showTable tableName ++ " created"
  | DROP_TABLE => "DROP TABLE operation: table " ++ showTable tableName
                  ++ " dropped with " ++ showCount affectedRows ++ " rows"
  | ROLLBACK => Operation_name operation ++ " operation on " ++ showTable tableName
  end%string.

Definition extractTableFromQuery (query : string) : option string :=
  let normalizedQuery := toUpperCase (trim query) in
  match Regex.exec Patterns.dmlTable normalizedQuery with
  | Some m => Some (toLowerCase (Patterns.group 2 m))
  | None =>
      match Regex.exec Patterns.dropTable normalizedQuery with
      | Some m => Some (toLowerCase (Patterns.group 2 m))
      | None =>
          match Regex.exec Patterns.truncateTable normalizedQuery with
          | Some m => Some (toLowerCase (Patterns.group 2 m))
          | None => None
          end
      end
  end.

(** The operation kind that [handleQuery] assigns before it runs a statement. *)
Definition operationTypeOf (query : string) : option Operation :=
  let normalizedQuery := toUpperCase (trim query) in
  if startsWith normalizedQuery "DELETE" || includes normalizedQuery "TRUNCATE"
  then Some DELETE
  else if startsWith normalizedQuery "UPDATE" then Some UPDATE
  else if startsWith normalizedQuery "INSERT" then Some INSERT
  else if includes normalizedQuery "DROP TABLE" then Some DROP_TABLE
  else None.

(** [SELECT * FROM version_history WHERE id = ?] *)
Definition getVersion (ledger : Ledger) (version : Z) : option VersionRow :=
  find (fun r => id r =? version) (rows ledger).

(** The select that snapshots the rows a DELETE or UPDATE is about to
    touch; the empty string when no select could be derived. *)
Definition backupQueryOf (query : string) (targetTable : option string) : string :=
  if includes (toLowerCase query) "where" then
    match Regex.exec Patterns.whereClause query with
    | Some whereMatch =>
        "SELECT * FROM " ++ showTable targetTable ++ " WHERE " ++ Patterns.group 1 whereMatch
    | None => ""
    end
  else "SELECT * FROM " ++ showTable targetTable.

Section Engine.
Context {H : Host}.
Variable this : Server.

Local Open Scope js_scope.

Definition createConnection (overrideConfig : Config) : M Connection :=
  let config := mergeConfig (defaultConfig this) overrideConfig in
  if negb (present (user config)) || negb (present (password config))
     || negb (present (database config))
  then throw "Missing required database connection parameters. Please set MYSQL_USER, MYSQL_PASSWORD, and MYSQL_DATABASE environment variables, or provide them as parameters."
  else match mysql_connect config with
       | Some e => throw e
       | None => ret Conn
       end.

(** The connection can be opened with these overrides. *)
Definition connects (overrideConfig : Config) : Prop :=
  createConnection overrideConfig = ret Conn.

Definition checkQueryPermissions (query : string) : M bool :=
  let normalizedQuery := toUpperCase (trim query) in
  (if (startsWith normalizedQuery "DELETE"
       || includes normalizedQuery "DROP TABLE"
       || includes normalizedQuery "DROP DATABASE"
       || includes normalizedQuery "TRUNCATE")
      && negb (allowDelete (permissions this))
   then throw "DELETE operations are not allowed. Set ALLOW_DELETE_OPERATION=true to enable."
   else ret tt) ;;
  (if (startsWith normalizedQuery "UPDATE"
       || includes normalizedQuery "ALTER TABLE"
       || includes normalizedQuery "MODIFY COLUMN"
       || includes normalizedQuery "ADD COLUMN"
       || includes normalizedQuery "DROP COLUMN")
      && negb (allowUpdate (permissions this))
   then throw "UPDATE operations are not allowed. Set ALLOW_UPDATE_OPERATION=true to enable."
   else ret tt) ;;
  (if (startsWith normalizedQuery "INSERT"
       || includes normalizedQuery "CREATE TABLE"
       || includes normalizedQuery "CREATE DATABASE"
       || includes normalizedQuery "CREATE INDEX")
      && negb (allowInsert (permissions this))
   then throw "INSERT operations are not allowed. Set ALLOW_INSERT_OPERATION=true to enable."
   else ret tt) ;;
  ret true.

(** The insert into [version_history]. It raises when the store never
    opened ([this.versionDB] is null); a store that opened takes the row
    and gives it the next AUTOINCREMENT id. *)
Definition saveVersion (versionInfo : VersionInfo) : M Z :=
  tryCatch
    (store <- getLedger ;;
     match store with
     | None => throw "Cannot read properties of null (reading 'prepare')"
     | Some l =>
         let lastInsertRowid := seq l + 1 in
         putLedger
           {| rows := rows l ++
                [{| id := lastInsertRowid;
                    session_id := vi_sessionId versionInfo;
                    timestamp := vi_timestamp versionInfo;
                    operation_type := vi_operationType versionInfo;
                    target_table := vi_targetTable versionInfo;
                    sql_query := vi_sqlQuery versionInfo;
                    backup_data := vi_backupData versionInfo;
                    affected_rows := vi_affectedRows versionInfo;
                    description := vi_description versionInfo |}];
              seq := lastInsertRowid |} ;;
         ret lastInsertRowid
     end)
    (fun e => console_error ("Failed to save version: " ++ e) ;; throw e).

Definition newTimestamp : M string :=
  t <- readClock ;; ret (makeTimestamp (fst t) (snd t)).

(** The [else if (insertResult)] arm of [createBackup]: the fields an
    INSERT capture adds to [backupInfo], and the affected-row count. *)
Definition insertInfo (b : BackupInfo) (targetTable : option string)
           (insertResult : ExecResult) : BackupInfo * option Z :=
  match insertResult with
  | ResultSetHeader affected insert_id =>
      ({| bi_type := bi_type b; bi_sql_query := bi_sql_query b;
          deletedRows := deletedRows b; originalRows := originalRows b;
          structure := structure b; data := data b;
          tableName := Some targetTable; createQuery := createQuery b;
          insertId := Some insert_id; insertedRows := Some affected;
          idRange := if negb (insert_id =? 0)
                     then Some (insert_id,
                                numberSub (numberAdd insert_id affected) 1)
                     else idRange b |},
       Some affected)
  | RowSet _ =>
      ({| bi_type := bi_type b; bi_sql_query := bi_sql_query b;
          deletedRows := deletedRows b; originalRows := originalRows b;
          structure := structure b; data := data b;
          tableName := Some targetTable; createQuery := createQuery b;
          insertId := None; insertedRows := None; idRange := idRange b |},
       None)
  end.

(** The body of the [try] of [createBackup] up to the ledger write: the
    document to store and the affected-row count. *)
Definition captureSnapshot (operation : Operation) (query : string)
           (targetTable : option string) (insertResult : option ExecResult)
           (connection : option Connection) : M (option BackupInfo * option Z) :=
  let backupInfo := newBackupInfo operation query in
  let connected := match connection with Some _ => true | None => false end in
  if connected && (Operation_eqb operation DELETE || Operation_eqb operation UPDATE) then
    let backupQuery := backupQueryOf query targetTable in
    if negb (String.eqb backupQuery "") then
      rows <- execute backupQuery [] ;;
      ret (Some (if Operation_eqb operation DELETE
                 then {| bi_type := operation; bi_sql_query := query;
                         deletedRows := Some rows; originalRows := None;
                         structure := None; data := None; tableName := None;
                         createQuery := None; insertId := None;
                         insertedRows := None; idRange := None |}
                 else {| bi_type := operation; bi_sql_query := query;
                         deletedRows := None; originalRows := Some rows;
                         structure := None; data := None; tableName := None;
                         createQuery := None; insertId := None;
                         insertedRows := None; idRange := None |}),
           lengthOf rows)
    else ret (None, Some 0)
  else if connected && Operation_eqb operation DROP_TABLE then
    tableData <- execute ("SELECT * FROM " ++ showTable targetTable) [] ;;
    tableStructure <- execute ("SHOW CREATE TABLE " ++ showTable targetTable) [] ;;
    ret (Some {| bi_type := operation; bi_sql_query := query;
                 deletedRows := None; originalRows := None;
                 structure := match tableStructure with
                              | RowSet (first :: _) => Some first
                              | _ => None
                              end;
                 data := Some tableData; tableName := None;
                 createQuery := None; insertId := None;
                 insertedRows := None; idRange := None |},
         lengthOf tableData)
  else if Operation_eqb operation CREATE_TABLE || Operation_eqb operation INSERT then
    if Operation_eqb operation CREATE_TABLE then
      ret (Some {| bi_type := operation; bi_sql_query := query;
                   deletedRows := None; originalRows := None;
                   structure := None; data := None;
                   tableName := Some targetTable; createQuery := Some query;
                   insertId := None; insertedRows := None; idRange := None |},
           Some 0)
    else
      match insertResult with
      | Some r => let p := insertInfo backupInfo targetTable r in
                  ret (Some (fst p), snd p)
      | None => ret (Some backupInfo, Some 0)
      end
  else ret (None, Some 0).

Definition createBackup (operation : Operation) (query : string)
           (targetTable : option string) (insertResult : option ExecResult)
           (connection : option Connection)
  : M (option (string * option BackupInfo * option Z)) :=
  if negb (allowInsert (permissions this)) && negb (allowUpdate (permissions this))
     && negb (allowDelete (permissions this))
  then ret None
  else
    tryCatch
      (snapshot <- captureSnapshot operation query targetTable insertResult connection ;;
       let backupData := fst snapshot in
       let affectedRows := snd snapshot in
       timestamp <- newTimestamp ;;
       saveVersion
         {| vi_sessionId := sessionId this;
            vi_timestamp := timestamp;
            vi_operationType := operation;
            vi_targetTable := targetTable;
            vi_sqlQuery := query;
            vi_backupData := backupData;
            vi_affectedRows := affectedRows;
            vi_description :=
              getOperationDescription operation targetTable affectedRows |} ;;
       ret (Some (timestamp, backupData, affectedRows)))
      (fun e => console_error ("Backup creation failed: " ++ e) ;; throw e).

(** [try { await this.createBackup(...) } catch (backupError) { log }] *)
Definition backupOrLog (operation : Operation) (query : string)
           (targetTable : option string) (insertResult : option ExecResult)
           (connection : Connection) : M unit :=
  tryCatch
    (createBackup operation query targetTable insertResult (Some connection) ;; ret tt)
    (fun e => console_error ("Backup failed: " ++ e)).

(** *** The write path *)

Record QueryArgs : Type := {
  query : string;
  queryConfig : Config
}.

Definition handleQuery (args : QueryArgs) : M Response :=
  checkQueryPermissions (query args) ;;
  let targetTable := extractTableFromQuery (query args) in
  let operationType := operationTypeOf (query args) in
  connection <- createConnection (queryConfig args) ;;
  (match operationType with
   | Some operation =>
       if (Operation_eqb operation DELETE || Operation_eqb operation UPDATE
           || Operation_eqb operation DROP_TABLE) && present targetTable
       then backupOrLog operation (query args) targetTable None connection
       else ret tt
   | None => ret tt
   end) ;;
  rows <- execute (query args) [] ;;
  (match operationType, rows with
   | Some INSERT, ResultSetHeader _ _ =>
       if present targetTable
       then backupOrLog INSERT (query args) targetTable (Some rows) connection
       else ret tt
   | _, _ => ret tt
   end) ;;
  ret (ok match rows with
          | RowSet (r :: rs) => formatResultsAsTable (r :: rs)
          | ResultSetHeader affected _ =>
              "Query executed successfully. Affected rows: " ++ ofZ affected
          | RowSet [] => "Query executed successfully. No rows returned."
          end).

(** The permission gate lets the statement through. *)
Definition permitted (text : string) : Prop :=
  checkQueryPermissions text = ret true.

(** The kinds that [handleQuery] snapshots before it runs the statement. *)
Definition capturedBefore (operation : Operation) : Prop :=
  operation = DELETE \/ operation = UPDATE \/ operation = DROP_TABLE.

Record CreateTableArgs : Type := {
  table_name : string;
  schema : string;
  createConfig : Config
}.

Definition handleCreateTable (args : CreateTableArgs) : M Response :=
  if negb (allowInsert (permissions this))
  then throw "CREATE TABLE operations are not allowed. Set ALLOW_INSERT_OPERATION=true to enable."
  else
    connection <- createConnection (createConfig args) ;;
    let createTableSQL := "CREATE TABLE " ++ table_name args ++ " " ++ schema args in
    execute createTableSQL [] ;;
    backupOrLog CREATE_TABLE createTableSQL (Some (table_name args)) None connection ;;
    ret (ok ("Table '" ++ table_name args ++ "' created successfully." ++ nl
             ++ "SQL: " ++ createTableSQL)).

Record InsertArgs : Type := {
  table : string;
  insertData : Row;
  insertConfig : Config
}.

Definition handleInsertData (args : InsertArgs) : M Response :=
  if negb (allowInsert (permissions this))
  then throw "INSERT operations are not allowed. Set ALLOW_INSERT_OPERATION=true to enable."
  else
    connection <- createConnection (insertConfig args) ;;
    let columns := map fst (insertData args) in
    let values := map snd (insertData args) in
    let placeholders := join ", " (map (fun _ => "?") columns) in
    let insertSQL := "INSERT INTO " ++ table args ++ " (" ++ join ", " columns
                     ++ ") VALUES (" ++ placeholders ++ ")" in
    result <- execute insertSQL values ;;
    backupOrLog INSERT insertSQL (Some (table args)) (Some result) connection ;;
    ret (ok ("Data inserted successfully into '" ++ table args ++ "'." ++ nl
             ++ "Affected rows: "
             ++ showCount (match result with
                           | ResultSetHeader a _ => Some a | RowSet _ => None end)
             ++ nl ++ "Insert ID: "
             ++ showCount (match result with
                           | ResultSetHeader _ i => Some i | RowSet _ => None end))).

(** *** The restore path *)

(** The date conversion applied to every cell before it is bound. *)
Definition normalizeValue (value : Value) : string + Value :=
  match value with
  | VStr s =>
      match Regex.matchAt Patterns.isoDateTime s with
      | Some _ => match date_literal s with
                  | inl e => inl e
                  | inr t => inr (VStr t)
                  end
      | None => inr value
      end
  | _ => inr value
  end.

Definition insertSQLOf (target : option string) (row : Row) : string :=
  let columns := map fst row in
  let placeholders := join ", " (map (fun _ => "?") columns) in
  "INSERT INTO " ++ showTable target ++ " (" ++ join ", " columns
  ++ ") VALUES (" ++ placeholders ++ ")".

(** One turn of the loops over [deletedRows] and over [data]. *)
Definition reinsertRow (target : option string) (row : Row) : M unit :=
  values <- liftE (mapE normalizeValue (map snd row)) ;;
  execute (insertSQLOf target row) values ;;
  ret tt.

Definition updateSQLOf (target : option string) (row : Row) : string :=
  let columns := map fst row in
  let setClause :=
    join ", " (map (fun col => col ++ " = ?")
                   (filter (fun col => negb (String.eqb col "id")) columns)) in
  "UPDATE " ++ showTable target ++ " SET " ++ setClause ++ " WHERE id = ?".

(** The bound values of the restoring UPDATE: the converted cells of the
    columns other than [id], then [row.id] as it is. *)
Definition updateValuesOf (row : Row) (values : list Value) (rowId : Value)
  : list Value :=
  map snd (filter (fun cv => negb (String.eqb (fst cv) "id"))
                  (combine (map fst row) values)) ++ [rowId].

(** One turn of the loop over [originalRows]. *)
Definition restoreRow (target : option string) (row : Row) : M unit :=
  values <- liftE (mapE normalizeValue (map snd row)) ;;
  match field "id" row with
  | Some rowId =>
      if truthy rowId
      then execute (updateSQLOf target row) (updateValuesOf row values rowId) ;;
           ret tt
      else ret tt
  | None => ret tt
  end.

(** The inverse action chosen by [operation_type]; returns the [result]
    line of the report. A stored structure without a textual
    [Create Table] entry makes [connection.execute] raise before anything
    is sent. *)
Definition inverseAction (versionInfo : VersionRow) (backupData : BackupInfo)
  : M string :=
  let target := target_table versionInfo in
  match operation_type versionInfo with
  | DELETE =>
      match deletedRows backupData with
      | Some (RowSet (r :: rs)) =>
          forEach (r :: rs) (reinsertRow target) ;;
          ret ("Restored " ++ ofZ (Z.of_nat (List.length (r :: rs)))
               ++ " deleted rows to table '" ++ showTable target ++ "'")
      | _ => ret ""
      end
  | UPDATE =>
      match originalRows backupData with
      | Some (RowSet (r :: rs)) =>
          forEach (r :: rs) (restoreRow target) ;;
          ret ("Restored " ++ ofZ (Z.of_nat (List.length (r :: rs)))
               ++ " rows to original state in table '" ++ showTable target ++ "'")
      | _ => ret ""
      end
  | INSERT =>
      match idRange backupData with
      | Some (start, end_) =>
          if start =? end_
          then
            execute ("DELETE FROM " ++ showTable target ++ " WHERE id = ?")
                    [VNum start] ;;
            ret ("Deleted inserted row with id " ++ ofZ start ++ " from table '"
                 ++ showTable target ++ "'")
          else
            execute ("DELETE FROM " ++ showTable target ++ " WHERE id BETWEEN ? AND ?")
                    [VNum start; VNum end_] ;;
            ret ("Deleted inserted rows with ids " ++ ofZ start ++ "-" ++ ofZ end_
                 ++ " from table '" ++ showTable target ++ "'")
      | None =>
          ret "INSERT rollback: Cannot automatically delete inserted data without primary key info. Manual deletion may be required."
      end
  | DROP_TABLE =>
      match structure backupData, data backupData with
      | Some tableStructure, Some tableData =>
          match field "Create Table" tableStructure with
          | Some (VStr createTableSQL) => execute createTableSQL [] ;; ret tt
          | _ => throw "Incorrect arguments to mysqld_stmt_execute"
          end ;;
          match tableData with
          | RowSet (r :: rs) => forEach (r :: rs) (reinsertRow target)
          | _ => ret tt
          end ;;
          ret ("Restored table '" ++ showTable target ++ "' with "
               ++ showCount (lengthOf tableData) ++ " rows")
      | _, _ => ret ""
      end
  | CREATE_TABLE =>
      execute ("DROP TABLE IF EXISTS " ++ showTable target) [] ;;
      ret ("Dropped table '" ++ showTable target ++ "' (rollback CREATE TABLE)")
  | ROLLBACK => ret ""
  end.

(** The record a restore request names, in a given world. *)
Definition lookupVersion (w : World) (version : Z) : option VersionRow :=
  match versionDB w with
  | Some ledger => getVersion ledger version
  | None => None
  end.

(** The ROLLBACK marker that a successful restore of [version] appends. *)
Definition rollbackMarker (ledger : Ledger) (versionInfo : VersionRow)
           (version : Z) (stamp : string) : VersionRow :=
  {| id := seq ledger + 1;
     session_id := sessionId this;
     timestamp := stamp;
     operation_type := ROLLBACK;
     target_table := target_table versionInfo;
     sql_query := "ROLLBACK TO VERSION " ++ ofZ version;
     backup_data := None;
     affected_rows := Some 0;
     description := "Rollback to version " ++ ofZ version |}.

(** The world after the ROLLBACK marker has been written. *)
Definition marked (w1 : World) (ledger : Ledger) (v : VersionRow) (version : Z)
  : World :=
  {| db := db w1; issued := issued w1;
     versionDB :=
       Some {| rows := rows ledger ++
                 [rollbackMarker ledger v version
                    (makeTimestamp (wall_clock (tick w1)) (hrtime (tick w1)))];
               seq := seq ledger + 1 |};
     console := console w1; tick := S (tick w1) |}.

(** The records whose payload is present but whose inverse action has
    nothing to send. *)
Definition nothingToUndo (v : VersionRow) (b : BackupInfo) : Prop :=
  (operation_type v = INSERT /\ idRange b = None) \/
  (operation_type v = DELETE /\ deletedRows b = Some (RowSet [])) \/
  (operation_type v = UPDATE /\ originalRows b = Some (RowSet [])).

(** What the specification asks of the restore of an UPDATE: a row image
    counts when its [id] is truthy, and is answered by one UPDATE of its
    other columns. *)
Definition hasId (row : Row) : bool :=
  match field "id" row with
  | Some v => truthy v
  | None => false
  end.

Definition restoringUpdate (target : option string) (row : Row) : Statement :=
  {| sql := updateSQLOf target row;
     params := updateValuesOf row
                 (match mapE normalizeValue (map snd row) with
                  | inr values => values
                  | inl _ => []
                  end)
                 (match field "id" row with Some v => v | None => VNull end);
     completed := true |}.

Record RollbackArgs : Type := {
  version_id : Z;
  rollbackConfig : Config
}.

Definition handleRollbackToVersion (args : RollbackArgs) : M Response :=
  tryCatch
    (store <- getLedger ;;
     match store with
     | None => throw "Cannot read properties of null (reading 'prepare')"
     | Some ledger =>
         match getVersion ledger (version_id args) with
         | None => ret (failure ("Version " ++ ofZ (version_id args) ++ " not found."))
         | Some versionInfo =>
             match backup_data versionInfo with
             | None =>
                 ret (failure ("Version " ++ ofZ (version_id args)
                               ++ " has no backup data to restore."))
             | Some backupData =>
                 connection <- createConnection (rollbackConfig args) ;;
                 tryCatch
                   (result <- inverseAction versionInfo backupData ;;
                    timestamp <- newTimestamp ;;
                    saveVersion
                      {| vi_sessionId := sessionId this;
                         vi_timestamp := timestamp;
                         vi_operationType := ROLLBACK;
                         vi_targetTable := target_table versionInfo;
                         vi_sqlQuery :=
                           "ROLLBACK TO VERSION " ++ ofZ (version_id args);
                         vi_backupData := None;
                         vi_affectedRows := Some 0;
                         vi_description :=
                           "Rollback to version " ++ ofZ (version_id args) |} ;;
                    ret (ok ("Rollback successful!" ++ nl ++ result)))
                   (fun e => ret (failure ("Rollback failed: " ++ e)))
             end
         end
     end)
    (fun e => ret (failure ("Error accessing version data: " ++ e))).

(** The request handler around every tool: an error that escapes a
    handler becomes an error report. *)
Definition callTool (handler : M Response) (w : World) : Response * World :=
  match handler w with
  | (inr r, w') => (r, w')
  | (inl e, w') => (failure ("Error: " ++ e), w')
  end.

End Engine.

(** ** A small host to run the engine on

    One table whose rows carry an [id] and a [name]. A SELECT returns the
    whole table; an INSERT whose first bound value is an [id] already
    present raises the duplicate-key error of MySQL, any other INSERT adds
    a row; a DELETE bound to one id removes that row, any other DELETE
    empties the table; every other statement succeeds and changes nothing. *)

Module Demo.

Definition lostKey : string := "Duplicate entry for key 'PRIMARY'".

Definition idOf (row : Row) : Z :=
  match field "id" row with Some (VNum i) => i | _ => 0 end.

Definition nextId (d : list Row) : Z :=
  fold_right Z.max 0 (map idOf d) + 1.

Definition runStatement (text : string) (values : list Value) (d : list Row)
  : string + (ExecResult * list Row) :=
  let head := toUpperCase (trim text) in
  if startsWith head "SELECT" then inr (RowSet d, d)
  else if startsWith head "SHOW" then
    inr (RowSet [[("Table", VStr "t"); ("Create Table", VStr "CREATE TABLE t (id INT)")]], d)
  else if startsWith head "INSERT" then
    match values with
    | VNum i :: rest =>
        if existsb (fun r => idOf r =? i) d
        then inl lostKey
        else inr (ResultSetHeader 1 0,
                  (d ++ [[("id", VNum i);
                          ("name", match rest with v :: _ => v | [] => VNull end)]])%list)
    | v :: _ =>
        inr (ResultSetHeader 1 (nextId d),
             (d ++ [[("id", VNum (nextId d)); ("name", v)]])%list)
    | [] => inr (ResultSetHeader 1 (nextId d),
                 (d ++ [[("id", VNum (nextId d)); ("name", VNull)]])%list)
    end
  else if startsWith head "DELETE" then
    match values with
    | [VNum i] =>
        inr (ResultSetHeader (Z.of_nat (List.length (filter (fun r => idOf r =? i) d))) 0,
             filter (fun r => negb (idOf r =? i)) d)
    | _ => inr (ResultSetHeader (Z.of_nat (List.length d)) 0, [])
    end
  else inr (ResultSetHeader 0 0, d).

(** Successive clock readings fall 0.4 ms apart inside one wall-clock
    millisecond, while the nanosecond counter passes a multiple of 10^6. *)
#[export] Instance tinyHost : Host := {|
  DB := list Row;
  mysql_connect := fun _ => None;
  mysql_execute := runStatement;
  wall_clock := fun _ => 1700000000123;
  hrtime := fun n => (41000700000 + 400000 * N.of_nat n)%N;
  date_literal := fun s => inr (replaceChar "T" " " (sliceTo 19 s));
  formatResultsAsTable := fun l => ofZ (Z.of_nat (List.length l)) ++ " row(s)"
|}.

Definition server : Server := {|
  defaultConfig := {| host := Some "localhost"; port := Some 3306;
                      user := Some "app"; password := Some "secret";
                      database := Some "shop" |};
  permissions := {| allowInsert := true; allowUpdate := true; allowDelete := true |};
  sessionId := "7f9c2b1e-0000-4000-8000-000000000001"
|}.

Definition world (d : list Row) (store : option Ledger) : World :=
  {| db := d; issued := []; versionDB := store; console := []; tick := 0 |}.

Definition emptyLedger : Ledger := {| rows := []; seq := 0 |}.

Definition person (i : Z) (n : string) : Row := [("id", VNum i); ("name", VStr n)].

Definition people : list Row := [person 5 "a"; person 6 "b"].

Definition record (version : Z) (operation : Operation) (text : string)
           (b : option BackupInfo) : VersionRow :=
  {| id := version; session_id := sessionId server;
     timestamp := "2023-11-14 22:13:20.123700000";
     operation_type := operation; target_table := Some "users";
     sql_query := text; backup_data := b; affected_rows := Some 0;
     description := getOperationDescription operation (Some "users") (Some 0) |}.

Definition ledgerOf (v : VersionRow) : Ledger := {| rows := [v]; seq := id v |}.

Definition restore (version : Z) : RollbackArgs :=
  {| version_id := version; rollbackConfig := noOverride |}.

(** A DELETE of three rows, as [createBackup] records it. *)
Definition deletedThree : BackupInfo :=
  {| bi_type := DELETE; bi_sql_query := "DELETE FROM users";
     deletedRows := Some (RowSet [person 1 "a"; person 2 "b"; person 3 "c"]);
     originalRows := None; structure := None; data := None; tableName := None;
     createQuery := None; insertId := None; insertedRows := None; idRange := None |}.

Definition deleteRecord : VersionRow :=
  record 1 DELETE "DELETE FROM users" (Some deletedThree).

(** The restore of [deleteRecord] when the table holds the rows [d]. *)
Definition restoreOver (d : list Row) : (string + Response) * World :=
  handleRollbackToVersion server (restore 1) (world d (Some (ledgerOf deleteRecord))).

(** The statements of a trace that MySQL carried out. *)
Definition restoredRows (w : World) : nat :=
  List.length (filter completed (issued w)).

(** An UPDATE whose row images are [l]. *)
Definition updated (l : list Row) : BackupInfo :=
  {| bi_type := UPDATE; bi_sql_query := "UPDATE users SET name = 'b'";
     deletedRows := None; originalRows := Some (RowSet l);
     structure := None; data := None; tableName := None;
     createQuery := None; insertId := None; insertedRows := None; idRange := None |}.

Definition updateRecord (l : list Row) : VersionRow :=
  record 1 UPDATE "UPDATE users SET name = 'b'" (Some (updated l)).

Definition insertArgs (n : string) : InsertArgs :=
  {| table := "users"; insertData := [("name", VStr n)]; insertConfig := noOverride |}.

Definition storeDown : string := "Cannot read properties of null (reading 'prepare')".

Definition deleteAll : QueryArgs :=
  {| query := "DELETE FROM users"; queryConfig := noOverride |}.

Definition addColumn : string := "ALTER TABLE users ADD COLUMN age INT".

(** The server with updates not allowed. *)
Definition noUpdates : Server :=
  {| defaultConfig := defaultConfig server;
     permissions := {| allowInsert := true; allowUpdate := false; allowDelete := true |};
     sessionId := sessionId server |}.

Definition timestamps (w : World) : list string :=
  match versionDB w with
  | Some ledger => map timestamp (rows ledger)
  | None => []
  end.

End Demo.


From Stdlib Require Import Sorted Permutation.

(** ** What a match is, apart from the order in which it is found *)

Module Matching.
Import Regex.

(** [Matches r s c s' c']: [r] can take a prefix of [s], leaving [s'], and
    turn the captures [c] into [c']. *)
Inductive Matches : regex -> string -> captures -> string -> captures -> Prop :=
| M_Eps s c : Matches Eps s c s c
| M_Chr p x s c : p x = true -> Matches (Chr p) (String x s) c s c
| M_Seq r1 r2 s c s1 c1 s2 c2 :
    Matches r1 s c s1 c1 -> Matches r2 s1 c1 s2 c2 -> Matches (Seq r1 r2) s c s2 c2
| M_AltL r1 r2 s c s1 c1 : Matches r1 s c s1 c1 -> Matches (Alt r1 r2) s c s1 c1
| M_AltR r1 r2 s c s1 c1 : Matches r2 s c s1 c1 -> Matches (Alt r1 r2) s c s1 c1
| M_StarNil g r s c : Matches (Star g r) s c s c
| M_StarCons g r s c s1 c1 s2 c2 :
    Matches r s c s1 c1 -> Matches (Star g r) s1 c1 s2 c2 ->
    Matches (Star g r) s c s2 c2
| M_Group n r s c s1 c1 :
    Matches r s c s1 c1 ->
    Matches (Group n r) s c s1
            ((n, String.substring 0 (String.length s - String.length s1) s) :: c1)
| M_BackrefNone n s c : capture n c = None -> Matches (Backref n) s c s c
| M_Backref n t s c :
    capture n c = Some t -> String.prefix t s = true ->
    Matches (Backref n) s c
            (String.substring (String.length t) (String.length s - String.length t) s) c
| M_Eos c : Matches Eos EmptyString c EmptyString c.

(** The loop that [run] enters at a star, with the matcher of the body as
    [step]. *)
Definition starLoop {A} (step : string -> captures ->
                                (string -> captures -> option A) -> option A)
           (g : bool) (k : string -> captures -> option A)
  : nat -> string -> captures -> option A :=
  fix loop (fuel : nat) (s : string) (c : captures) : option A :=
    match fuel with
    | O => k s c
    | S fuel' =>
        let again :=
          step s c (fun s1 c1 =>
            if (String.length s1 <? String.length s)%nat
            then loop fuel' s1 c1 else None) in
        if g then orElse again (k s c) else orElse (k s c) again
    end.

(** A pattern without capturing groups. *)
Fixpoint groupFree (r : regex) : bool :=
  match r with
  | Eps | Chr _ | Backref _ | Eos => true
  | Seq r1 r2 | Alt r1 r2 => groupFree r1 && groupFree r2
  | Star _ r1 => groupFree r1
  | Group _ _ => false
  end.

Fixpoint allChars (p : ascii -> bool) (s : string) : bool :=
  match s with
  | EmptyString => true
  | String c s' => p c && allChars p s'
  end.

(** The characters of an unquoted lower-case identifier. *)
Definition is_ident (c : ascii) : bool :=
  is_lower c || is_digit c || Ascii.eqb c "_".

End Matching.

(** ** The history ledger as a store *)

(** The row that [saveVersion] writes for [versionInfo]. *)
Definition storedRecord (ledger : Ledger) (versionInfo : VersionInfo) : VersionRow :=
  {| id := seq ledger + 1;
     session_id := vi_sessionId versionInfo;
     timestamp := vi_timestamp versionInfo;
     operation_type := vi_operationType versionInfo;
     target_table := vi_targetTable versionInfo;
     sql_query := vi_sqlQuery versionInfo;
     backup_data := vi_backupData versionInfo;
     affected_rows := vi_affectedRows versionInfo;
     description := vi_description versionInfo |}.

Definition saved (ledger : Ledger) (versionInfo : VersionInfo) : Ledger :=
  {| rows := rows ledger ++ [storedRecord ledger versionInfo];
     seq := seq ledger + 1 |}.

(** What [INTEGER PRIMARY KEY AUTOINCREMENT] guarantees of the table: no
    id occurs twice, and none exceeds the sequence. *)
Definition ledgerOk (ledger : Ledger) : Prop :=
  NoDup (map id (rows ledger)) /\ Forall (fun r => id r <= seq ledger) (rows ledger).

(** [ledger'] holds the records of [ledger] untouched, then new ones. *)
Definition extends (ledger ledger' : Ledger) : Prop :=
  (exists added, rows ledger' = (rows ledger ++ added)%list /\
                 Forall (fun r => seq ledger < id r) added) /\
  seq ledger <= seq ledger' /\
  (ledgerOk ledger -> ledgerOk ledger').

Definition grows (before after : option Ledger) : Prop :=
  match before, after with
  | Some ledger, Some ledger' => extends ledger ledger'
  | None, None => True
  | _, _ => False
  end.

(** The rendering of a value by [String(v)], and of a property that may be
    missing inside a template literal. *)
Definition stringOf (v : Value) : string :=
  match v with
  | VNull => "null"
  | VBool true => "true"
  | VBool false => "false"
  | VNum n => ofZ n
  | VStr s => s
  end.

Definition showField (v : option Value) : string :=
  match v with
  | Some x => stringOf x
  | None => "undefined"
  end.

(** ** The table renderer *)

Module Render.

(** [s.repeat(n)] *)
Fixpoint repeatString (n : nat) (s : string) : string :=
  match n with
  | O => ""
  | S n' => s ++ repeatString n' s
  end.

(** [s.padEnd(w)] *)
Definition padEnd (w : nat) (s : string) : string :=
  s ++ repeatString (w - String.length s) " ".

(** [String(row[col] || '')]: a missing, null, zero, false or empty cell
    is rendered as the empty string. *)
Definition cellText (row : Row) (col : string) : string :=
  match field col row with
  | Some v => if truthy v then stringOf v else ""
  | None => ""
  end.

(** [Math.max(col.length, ...rows.map(row => String(row[col] || '').length))] *)
Definition columnWidth (rows : list Row) (col : string) : nat :=
  fold_right Nat.max (String.length col)
             (map (fun row => String.length (cellText row col)) rows).

Definition border (left mid right : string) (rows : list Row) (columns : list string)
  : string :=
  left ++ join mid (map (fun col => repeatString (columnWidth rows col + 2) "─") columns)
       ++ right.

Definition line (rows : list Row) (columns : list string) (cell : string -> string)
  : string :=
  "│" ++ join "│" (map (fun col => " " ++ padEnd (columnWidth rows col) (cell col) ++ " ")
                        columns) ++ "│".

(** [formatResultsAsTable(rows)]. A result header has no [length] and no
    first row: [Object.keys(rows[0])] raises. *)
Definition formatResultsAsTable (result : ExecResult) : string + string :=
  match result with
  | RowSet [] => inr "No results found."
  | RowSet (first :: rest) =>
      let rows := first :: rest in
      let columns := map fst first in
      inr (border "┌" "┬" "┐" rows columns ++ nl
           ++ line rows columns (fun col => col) ++ nl
           ++ border "├" "┼" "┤" rows columns ++ nl
           ++ String.concat "" (map (fun row => line rows columns (cellText row) ++ nl) rows)
           ++ border "└" "┴" "┘" rows columns)
  | ResultSetHeader _ _ => inl "Cannot convert undefined or null to object"
  end.

(** The lines of the table, top border first. *)
Definition tableLines (rows : list Row) (columns : list string) : list string :=
  border "┌" "┬" "┐" rows columns
  :: line rows columns (fun col => col)
  :: border "├" "┼" "┤" rows columns
  :: (map (fun row => line rows columns (cellText row)) rows
      ++ [border "└" "┴" "┘" rows columns])%list.

(** The number of characters of a text held as UTF-8 bytes: the bytes
    that do not continue a character. *)
Fixpoint charCount (s : string) : nat :=
  match s with
  | EmptyString => O
  | String c s' =>
      ((if (128 <=? nat_of_ascii c) && (nat_of_ascii c <? 192) then 0 else 1)
       + charCount s')%nat
  end.

(** A text of ASCII characters. *)
Fixpoint plain (s : string) : bool :=
  match s with
  | EmptyString => true
  | String c s' => (nat_of_ascii c <? 128)%nat && plain s'
  end.

(** The width of a table: the two outer bars, the columns with a space on
    either side, and a bar between two columns. *)
Definition tableWidth (rows : list Row) (columns : list string) : nat :=
  (2 + fold_right (fun col acc => columnWidth rows col + 2 + acc) 0 columns
   + (List.length columns - 1))%nat.

End Render.

(** ** The read-only tools and the history tools *)

(** The first query of [handleDatabaseSize]. *)
Definition databaseSizeQuery : string :=
  "" ++ nl ++
  "        SELECT " ++ nl ++
  "          table_schema AS 'Database'," ++ nl ++
  "          ROUND(SUM(data_length + index_length) / 1024 / 1024, 2) AS 'Size (MB)'," ++ nl ++
  "          COUNT(" ++ "*) AS 'Tables'" ++ nl ++
  "        FROM information_schema.tables " ++ nl ++
  "        WHERE table_schema = ?" ++ nl ++
  "        GROUP BY table_schema" ++ nl ++
  "      ".

(** The second query of [handleDatabaseSize]. *)
Definition tableSizesQuery : string :=
  "" ++ nl ++
  "        SELECT " ++ nl ++
  "          table_name AS 'Table'," ++ nl ++
  "          ROUND(((data_length + index_length) / 1024 / 1024), 2) AS 'Size (MB)'" ++ nl ++
  "        FROM information_schema.TABLES " ++ nl ++
  "        WHERE table_schema = ?" ++ nl ++
  "        ORDER BY (data_length + index_length) DESC" ++ nl ++
  "      ".

(** [a || b] inside a template literal, for two optional strings. *)
Definition firstPresent (a b : option string) : option string :=
  if present a then a else b.

Definition showOptional (s : option string) : string :=
  match s with Some t => t | None => "undefined" end.

(** An element of [array.join]: null becomes the empty string. *)
Definition joinItem (v : option Value) : string :=
  match v with
  | Some VNull | None => ""
  | Some x => stringOf x
  end.

(** [Object.values(row)[0]] *)
Definition firstValue (row : Row) : option Value :=
  match row with
  | (_, v) :: _ => Some v
  | [] => None
  end.

(** [ORDER BY timestamp DESC]: the row goes before the first row whose
    timestamp is not greater than its own. Rows with equal timestamps come
    out in the order the store yields them, here the order of insertion. *)
Fixpoint insertByTimestamp (r : VersionRow) (sorted : list VersionRow) : list VersionRow :=
  match sorted with
  | [] => [r]
  | x :: rest =>
      if (timestamp x <=? timestamp r)%string then r :: x :: rest
      else x :: insertByTimestamp r rest
  end.

(** [a] may stand before [b] in a listing by descending timestamp. *)
Definition notOlder (a b : VersionRow) : Prop :=
  (timestamp b <=? timestamp a)%string = true.

Definition newestFirst (l : list VersionRow) : list VersionRow :=
  fold_right insertByTimestamp [] l.

(** [LIMIT ?]: a negative limit is no limit. *)
Definition limitTo {A} (n : Z) (l : list A) : list A :=
  if n <? 0 then l else firstn (Z.to_nat n) l.

(** A stored [affected_rows] as a template literal prints it. *)
Definition showStored (n : option Z) : string :=
  match n with Some z => ofZ z | None => "null" end.

Definition rule : string := Render.repeatString 50 "─".

(** The query of [handleTableInfo]. *)
Definition tableInfoQuery : string :=
  "" ++ nl ++
  "        SELECT " ++ nl ++
  "          TABLE_NAME," ++ nl ++
  "          ENGINE," ++ nl ++
  "          TABLE_ROWS," ++ nl ++
  "          DATA_LENGTH," ++ nl ++
  "          INDEX_LENGTH," ++ nl ++
  "          DATA_FREE," ++ nl ++
  "          AUTO_INCREMENT," ++ nl ++
  "          CREATE_TIME," ++ nl ++
  "          UPDATE_TIME" ++ nl ++
  "        FROM information_schema.TABLES " ++ nl ++
  "        WHERE TABLE_SCHEMA = ? AND TABLE_NAME = ?" ++ nl ++
  "      ".

(** [${v || fallback}] inside a template literal. *)
Definition fieldOr (v : option Value) (fallback : string) : string :=
  match v with
  | Some x => if truthy x then stringOf x else fallback
  | None => fallback
  end.

(** [args.format || 'TRADITIONAL'] *)
Definition formatOf (format : option string) : string :=
  match format with
  | Some f => if String.eqb f "" then "TRADITIONAL" else f
  | None => "TRADITIONAL"
  end.

(** The prefix of the statement that [handleExplainQuery] sends. *)
Definition explainSQLOf (format query : string) : string :=
  if String.eqb format "JSON" then "EXPLAIN FORMAT=JSON " ++ query
  else if String.eqb format "TREE" then "EXPLAIN FORMAT=TREE " ++ query
  else "EXPLAIN " ++ query.

(** The built-ins of the language that work on floating-point numbers and
    on structured values; the handlers only append their results to a
    report. None of them raises on a value that the driver returns. *)
Class Builtins : Type := {
  (** [(v / 1024 / 1024).toFixed(2)] *)
  megabytes : option Value -> string;
  (** [((a + b) / 1024 / 1024).toFixed(2)] *)
  megabytesOfSum : option Value -> option Value -> string;
  (** [JSON.stringify(v, null, 2)], appended to a string. *)
  stringify : option Value -> string
}.

Section Tools.
Context {H : Host} {Lang : Builtins}.
Variable this : Server.

Local Open Scope js_scope.

(** [this.formatResultsAsTable(rows)] inside a handler. *)
Definition renderRows (result : ExecResult) : M string :=
  liftE (Render.formatResultsAsTable result).

(** [rows.map(row => Object.values(row)[0]).join('\n')] *)
Definition firstColumn (result : ExecResult) : M string :=
  match result with
  | RowSet l => ret (join nl (map (fun row => joinItem (firstValue row)) l))
  | ResultSetHeader _ _ => throw "rows.map is not a function"
  end.

Definition handleShowTables (args : Config) : M Response :=
  connection <- createConnection this args ;;
  rows <- execute "SHOW TABLES" [] ;;
  tableList <- firstColumn rows ;;
  ret (ok ("Tables in database '"
           ++ showOptional (firstPresent (database (defaultConfig this)) (database args))
           ++ "':" ++ nl ++ tableList)).

Record TableArgs : Type := {
  tableOf : string;
  tableConfig : Config
}.

Definition handleDescribeTable (args : TableArgs) : M Response :=
  connection <- createConnection this (tableConfig args) ;;
  rows <- execute ("DESCRIBE " ++ tableOf args) [] ;;
  description <- renderRows rows ;;
  ret (ok ("Structure of table '" ++ tableOf args ++ "':" ++ nl ++ description)).

Definition handleShowDatabases (args : Config) : M Response :=
  connection <- createConnection this args ;;
  rows <- execute "SHOW DATABASES" [] ;;
  dbList <- firstColumn rows ;;
  ret (ok ("Available databases:" ++ nl ++ dbList)).

Definition handleShowIndexes (args : TableArgs) : M Response :=
  connection <- createConnection this (tableConfig args) ;;
  rows <- execute ("SHOW INDEX FROM " ++ tableOf args) [] ;;
  indexes <- renderRows rows ;;
  ret (ok ("Indexes for table '" ++ tableOf args ++ "':" ++ nl ++ indexes)).

Definition handleShowProcesses (args : Config) : M Response :=
  connection <- createConnection this args ;;
  rows <- execute "SHOW PROCESSLIST" [] ;;
  processes <- renderRows rows ;;
  ret (ok ("Current MySQL processes:" ++ nl ++ processes)).

(** [[this.defaultConfig.database || args.database]] as bound values; the
    driver refuses an undefined value. *)
Definition schemaParam (args : Config) : M (list Value) :=
  match firstPresent (database (defaultConfig this)) (database args) with
  | Some name => ret [VStr name]
  | None => throw "Bind parameters must not contain undefined. To pass SQL NULL specify JS null"
  end.

Definition handleDatabaseSize (args : Config) : M Response :=
  connection <- createConnection this args ;;
  schema <- schemaParam args ;;
  rows <- execute databaseSizeQuery schema ;;
  match rows with
  | RowSet [] => ret (ok "Database size information not available.")
  | RowSet (dbInfo :: _) =>
      let result :=
        "Database Size Information:" ++ nl ++ nl
        ++ "Database: " ++ showField (field "Database" dbInfo) ++ nl
        ++ "Total Size: " ++ showField (field "Size (MB)" dbInfo) ++ " MB" ++ nl
        ++ "Number of Tables: " ++ showField (field "Tables" dbInfo) ++ nl in
      schema' <- schemaParam args ;;
      tableSizes <- execute tableSizesQuery schema' ;;
      match tableSizes with
      | RowSet (t :: ts) =>
          sizes <- renderRows tableSizes ;;
          ret (ok (result ++ nl ++ "Table Sizes:" ++ nl ++ sizes))
      | _ => ret (ok result)
      end
  | ResultSetHeader _ _ => throw "Cannot read properties of undefined (reading 'Database')"
  end.

(** [[this.defaultConfig.database || args.database, args.table]] *)
Definition tableInfoParams (args : TableArgs) : M (list Value) :=
  match firstPresent (database (defaultConfig this)) (database (tableConfig args)) with
  | Some name => ret [VStr name; VStr (tableOf args)]
  | None => throw "Bind parameters must not contain undefined. To pass SQL NULL specify JS null"
  end.

Definition handleTableInfo (args : TableArgs) : M Response :=
  connection <- createConnection this (tableConfig args) ;;
  values <- tableInfoParams args ;;
  tableStats <- execute tableInfoQuery values ;;
  match tableStats with
  | RowSet [] => ret (ok ("Table '" ++ tableOf args ++ "' not found."))
  | RowSet (table :: _) =>
      let dataSize := megabytes (field "DATA_LENGTH" table) in
      let indexSize := megabytes (field "INDEX_LENGTH" table) in
      let totalSize :=
        megabytesOfSum (field "DATA_LENGTH" table) (field "INDEX_LENGTH" table) in
      ret (ok ("Table Information for '" ++ tableOf args ++ "':" ++ nl ++ nl
               ++ "Engine: " ++ showField (field "ENGINE" table) ++ nl
               ++ "Rows: " ++ fieldOr (field "TABLE_ROWS" table) "Unknown" ++ nl
               ++ "Data Size: " ++ dataSize ++ " MB" ++ nl
               ++ "Index Size: " ++ indexSize ++ " MB" ++ nl
               ++ "Total Size: " ++ totalSize ++ " MB" ++ nl
               ++ "Auto Increment: " ++ fieldOr (field "AUTO_INCREMENT" table) "None" ++ nl
               ++ "Created: " ++ fieldOr (field "CREATE_TIME" table) "Unknown" ++ nl
               ++ "Updated: " ++ fieldOr (field "UPDATE_TIME" table) "Unknown" ++ nl))
  | ResultSetHeader _ _ =>
      throw "Cannot read properties of undefined (reading 'DATA_LENGTH')"
  end.

Record ExplainArgs : Type := {
  explainQuery : string;            (* args.query *)
  explainFormat : option string;    (* args.format *)
  explainConfig : Config
}.

(** [rows[0]['EXPLAIN']] *)
Definition planOf (rows : ExecResult) : M (option Value) :=
  match rows with
  | RowSet (row :: _) => ret (field "EXPLAIN" row)
  | _ => throw "Cannot read properties of undefined (reading 'EXPLAIN')"
  end.

Definition handleExplainQuery (args : ExplainArgs) : M Response :=
  connection <- createConnection this (explainConfig args) ;;
  let format := formatOf (explainFormat args) in
  let explainSQL := explainSQLOf format (explainQuery args) in
  rows <- execute explainSQL [] ;;
  let result := "Query Execution Plan (" ++ format ++ "):" ++ nl ++ nl in
  if String.eqb format "JSON" then
    plan <- planOf rows ;;
    ret (ok (result ++ stringify plan))
  else if String.eqb format "TREE" then
    plan <- planOf rows ;;
    ret (ok (result ++ showField plan))
  else
    plan <- renderRows rows ;;
    ret (ok (result ++ plan)).

Record ListArgs : Type := {
  listLimit : option Z;             (* args.limit *)
  listSessionOnly : option bool;    (* args.session_only *)
  listOperation : option string;    (* args.operation_type *)
  listTable : option string         (* args.target_table *)
}.

(** [args.session_only !== false] *)
Definition sessionOnlyOf (flag : option bool) : bool :=
  match flag with
  | Some false => false
  | _ => true
  end.

(** [args.limit || 50] *)
Definition limitOf (limit : option Z) : Z :=
  match limit with
  | Some n => if n =? 0 then 50 else n
  | None => 50
  end.

(** The WHERE clause that [handleListVersions] builds, as a test on a row. *)
Definition listed (args : ListArgs) (r : VersionRow) : bool :=
  (if sessionOnlyOf (listSessionOnly args)
   then String.eqb (session_id r) (sessionId this) else true)
  && (if present (listOperation args)
      then String.eqb (Operation_name (operation_type r))
                      (toUpperCase (showOptional (listOperation args)))
      else true)
  && (if present (listTable args)
      then match target_table r with
           | Some t => String.eqb t (showOptional (listTable args))
           | None => false
           end
      else true).

(** The rows that the select of [handleListVersions] returns. *)
Definition selectVersions (args : ListArgs) (ledger : Ledger) : list VersionRow :=
  limitTo (limitOf (listLimit args)) (newestFirst (filter (listed args) (rows ledger))).

Definition versionEntry (row : VersionRow) : string :=
  "Version ID: " ++ ofZ (id row) ++ nl
  ++ "Timestamp: " ++ timestamp row ++ nl
  ++ "Operation: " ++ Operation_name (operation_type row) ++ nl
  ++ "Table: " ++ (if present (target_table row) then showTable (target_table row)
                   else "N/A") ++ nl
  ++ "Affected Rows: " ++ showStored (affected_rows row) ++ nl
  ++ "Description: " ++ description row ++ nl
  ++ rule ++ nl.

Definition handleListVersions (args : ListArgs) : M Response :=
  store <- getLedger ;;
  match store with
  | None => ret (failure "Error listing versions: Cannot read properties of null (reading 'prepare')")
  | Some ledger =>
      match selectVersions args ledger with
      | [] => ret (ok "No version history found.")
      | found =>
          ret (ok ("Version History (Session: " ++ sliceTo 8 (sessionId this) ++ "...):"
                   ++ nl ++ nl ++ String.concat "" (map versionEntry found)))
      end
  end.

Record ClearArgs : Type := {
  confirm : bool;                   (* args.confirm, false when absent *)
  clearSessionOnly : option bool    (* args.session_only *)
}.

(** The rows that [DELETE FROM version_history [WHERE session_id = ?]]
    leaves. *)
Definition keptRows (sessionOnly : bool) (ledger : Ledger) : list VersionRow :=
  if sessionOnly
  then filter (fun r => negb (String.eqb (session_id r) (sessionId this))) (rows ledger)
  else [].

Definition handleClearVersionHistory (args : ClearArgs) : M Response :=
  if negb (confirm args)
  then ret (failure "Clear operation cancelled. Set confirm=true to proceed.")
  else
    store <- getLedger ;;
    match store with
    | None => ret (failure "Error clearing version history: Cannot read properties of null (reading 'prepare')")
    | Some ledger =>
        let sessionOnly := sessionOnlyOf (clearSessionOnly args) in
        let kept := keptRows sessionOnly ledger in
        let changes := Z.of_nat (List.length (rows ledger) - List.length kept) in
        putLedger {| rows := kept; seq := seq ledger |} ;;
        ret (ok ("Cleared " ++ ofZ changes ++ " version records for "
                 ++ (if sessionOnly then "current session" else "all sessions") ++ "."))
    end.

(** A tool call: the name of the tool with its arguments, or a name that
    the server does not know. *)
Inductive Request : Type :=
| mysql_query (args : QueryArgs)
| mysql_show_tables (args : Config)
| mysql_describe_table (args : TableArgs)
| mysql_show_databases (args : Config)
| mysql_table_info (args : TableArgs)
| mysql_show_indexes (args : TableArgs)
| mysql_show_processes (args : Config)
| mysql_create_table (args : CreateTableArgs)
| mysql_insert_data (args : InsertArgs)
| mysql_database_size (args : Config)
| mysql_explain_query (args : ExplainArgs)
| mysql_list_versions (args : ListArgs)
| mysql_rollback_to_version (args : RollbackArgs)
| mysql_clear_version_history (args : ClearArgs)
| unknownTool (name : string).

(** The [switch] of the call handler. *)
Definition toolHandler (request : Request) : M Response :=
  match request with
  | mysql_query args => handleQuery this args
  | mysql_show_tables args => handleShowTables args
  | mysql_describe_table args => handleDescribeTable args
  | mysql_show_databases args => handleShowDatabases args
  | mysql_table_info args => handleTableInfo args
  | mysql_show_indexes args => handleShowIndexes args
  | mysql_show_processes args => handleShowProcesses args
  | mysql_create_table args => handleCreateTable this args
  | mysql_insert_data args => handleInsertData this args
  | mysql_database_size args => handleDatabaseSize args
  | mysql_explain_query args => handleExplainQuery args
  | mysql_list_versions args => handleListVersions args
  | mysql_rollback_to_version args => handleRollbackToVersion this args
  | mysql_clear_version_history args => handleClearVersionHistory args
  | unknownTool name => throw ("Unknown tool: " ++ name)
  end.

(** One request served from start to end. *)
Definition serve (request : Request) (w : World) : Response * World :=
  callTool (toolHandler request) w.

(** A computation that leaves the ledger as it is. *)
Definition sameLedger {A} (m : M A) : Prop :=
  forall w, versionDB (snd (m w)) = versionDB w.

(** A computation that writes no history record and sends at most [n]
    statements. *)
Definition sendsAtMost {A} (n : nat) (m : M A) : Prop :=
  forall w,
    versionDB (snd (m w)) = versionDB w /\
    exists sent,
      issued (snd (m w)) = (issued w ++ sent)%list /\ (List.length sent <= n)%nat.

(** The tools that only read, with the number of statements of their
    handler. *)
Definition statementsOf (request : Request) : option nat :=
  match request with
  | mysql_show_tables _ | mysql_describe_table _ | mysql_show_databases _
  | mysql_table_info _ | mysql_show_indexes _ | mysql_show_processes _
  | mysql_explain_query _ => Some 1%nat
  | mysql_database_size _ => Some 2%nat
  | mysql_list_versions _ => Some 0%nat
  | _ => None
  end.

(** A computation under which the ledger only grows. *)
Definition appendOnly {A} (m : M A) : Prop :=
  forall w, grows (versionDB w) (versionDB (snd (m w))).

(** The permission that the gate asks for a statement of a given kind. *)
Definition permissionFor (operation : Operation) : bool :=
  match operation with
  | DELETE | DROP_TABLE => allowDelete (permissions this)
  | UPDATE => allowUpdate (permissions this)
  | INSERT | CREATE_TABLE => allowInsert (permissions this)
  | ROLLBACK => true
  end.

(** The report of [handleQuery] on what the statement returned. *)
Definition queryReport (result : ExecResult) : string :=
  match result with
  | RowSet (r :: rs) => formatResultsAsTable (r :: rs)
  | ResultSetHeader affected _ =>
      "Query executed successfully. Affected rows: " ++ ofZ affected
  | RowSet [] => "Query executed successfully. No rows returned."
  end.

(** Some write permission is on: the condition under which [createBackup]
    does anything. *)
Definition canWrite : bool :=
  allowInsert (permissions this) || allowUpdate (permissions this)
  || allowDelete (permissions this).

(** The timestamp that a record written in world [w] receives. *)
Definition stampAt (w : World) : string :=
  makeTimestamp (wall_clock (tick w)) (hrtime (tick w)).

(** The argument that [createBackup] hands to [saveVersion]. *)
Definition backupVersion (operation : Operation) (text : string)
           (target : option string) (backupData : option BackupInfo)
           (affectedRows : option Z) (stamp : string) : VersionInfo :=
  {| vi_sessionId := sessionId this;
     vi_timestamp := stamp;
     vi_operationType := operation;
     vi_targetTable := target;
     vi_sqlQuery := text;
     vi_backupData := backupData;
     vi_affectedRows := affectedRows;
     vi_description := getOperationDescription operation target affectedRows |}.

(** The world once [versionInfo] has been written at the clock of [w]. *)
Definition recorded (w : World) (ledger : Ledger) (versionInfo : VersionInfo) : World :=
  {| db := db w; issued := issued w;
     versionDB := Some (saved ledger versionInfo);
     console := console w; tick := S (tick w) |}.

(** The document that [createBackup] builds from the rows its snapshot
    select returned. *)
Definition rowsPayload (operation : Operation) (text : string) (found : ExecResult)
  : BackupInfo :=
  if Operation_eqb operation DELETE
  then {| bi_type := operation; bi_sql_query := text;
          deletedRows := Some found; originalRows := None;
          structure := None; data := None; tableName := None;
          createQuery := None; insertId := None;
          insertedRows := None; idRange := None |}
  else {| bi_type := operation; bi_sql_query := text;
          deletedRows := None; originalRows := Some found;
          structure := None; data := None; tableName := None;
          createQuery := None; insertId := None;
          insertedRows := None; idRange := None |}.

(** What the specification asks of the restore of a DELETE or of a
    dropped table: one INSERT per row image, binding the converted cells. *)
Definition reinserting (target : option string) (row : Row) : Statement :=
  {| sql := insertSQLOf target row;
     params := match mapE normalizeValue (map snd row) with
               | inr values => values
               | inl _ => []
               end;
     completed := true |}.

End Tools.

(** ** More of the small host *)

Module Cases.
Import Demo.

(** The server with every write permission off. *)
Definition guarded : Server :=
  {| defaultConfig := defaultConfig server;
     permissions := {| allowInsert := false; allowUpdate := false; allowDelete := false |};
     sessionId := sessionId server |}.

(** A record that another session wrote. *)
Definition foreignRecord : VersionRow :=
  {| id := 2; session_id := "0a1b2c3d-0000-4000-8000-00000000000f";
     timestamp := "2023-11-14 22:13:21.500000000";
     operation_type := INSERT; target_table := Some "orders";
     sql_query := "INSERT INTO orders (name) VALUES (?)";
     backup_data := None; affected_rows := Some 1;
     description := "INSERT operation: 1 row(s) inserted into orders" |}.

Definition twoSessions : Ledger :=
  {| rows := [deleteRecord; foreignRecord]; seq := 2 |}.

Definition clearMine : ClearArgs := {| confirm := true; clearSessionOnly := None |}.

Definition clearAll : ClearArgs := {| confirm := true; clearSessionOnly := Some false |}.

Definition listDefault : ListArgs :=
  {| listLimit := None; listSessionOnly := None; listOperation := None;
     listTable := None |}.

Definition createUsers : CreateTableArgs :=
  {| table_name := "users"; schema := "(id INT, name TEXT)"; createConfig := noOverride |}.

Definition selectUsers : QueryArgs :=
  {| query := "SELECT * FROM users"; queryConfig := noOverride |}.

Definition insertQuery : QueryArgs :=
  {| query := "INSERT INTO users (name) VALUES ('x')"; queryConfig := noOverride |}.

(** A dropped table as [createBackup] records it. *)
Definition droppedUsers : BackupInfo :=
  {| bi_type := DROP_TABLE; bi_sql_query := "DROP TABLE users";
     deletedRows := None; originalRows := None;
     structure := Some [("Table", VStr "users");
                        ("Create Table", VStr "CREATE TABLE users (id INT, name TEXT)")];
     data := Some (RowSet people); tableName := None; createQuery := None;
     insertId := None; insertedRows := None; idRange := None |}.

Definition dropRecord : VersionRow :=
  record 1 DROP_TABLE "DROP TABLE users" (Some droppedUsers).

Definition otherDatabase : Config :=
  {| host := None; port := None; user := None; password := None;
     database := Some "archive" |}.

(** The built-ins on integers: the size in megabytes, rounded half up to
    two decimals; a value that is not a number gives NaN. *)
Definition fixed2 (n : Z) : string :=
  let k := (Z.abs n * 200 + 1048576) / 2097152 in
  (if (n <? 0)%Z then "-" else "") ++ ofZ (k / 100) ++ "."
  ++ ofZ (k mod 100 / 10) ++ ofZ (k mod 10).

Definition numberOf (v : option Value) : option Z :=
  match v with
  | Some (VNum n) => Some n
  | Some VNull => Some 0
  | Some (VBool b) => Some (if b then 1 else 0)
  | _ => None
  end.

#[export] Instance integerBuiltins : Builtins := {|
  megabytes := fun v => match numberOf v with Some n => fixed2 n | None => "NaN" end;
  megabytesOfSum := fun a b =>
    match numberOf a, numberOf b with
    | Some n, Some m => fixed2 (n + m)
    | _, _ => "NaN"
    end;
  stringify := showField
|}.

Definition renameAll : QueryArgs :=
  {| query := "UPDATE users SET name = 'b'"; queryConfig := noOverride |}.

Definition deleteVersion : VersionInfo :=
  backupVersion server DELETE "DELETE FROM orders" (Some "orders") None (Some 0)
                "2023-11-14 22:13:22.000000000".

End Cases.

(** * Properties *)

(** ** The embedding on the statements of the specification *)

Example table_of_quoted_delete :
  extractTableFromQuery "  delete from `Users` where id = 1" = Some "users".
Proof. reflexivity. Qed.

Example table_of_drop_if_exists :
  extractTableFromQuery "DROP TABLE IF EXISTS orders" = Some "orders".
Proof. reflexivity. Qed.

Example table_of_select : extractTableFromQuery "SELECT 1" = None.
Proof. reflexivity. Qed.

Example where_clause_stops_at_order_by :
  backupQueryOf "DELETE FROM t WHERE a = 1 AND b = 2  order by a LIMIT 3" (Some "t")
  = "SELECT * FROM t WHERE a = 1 AND b = 2".
Proof. reflexivity. Qed.

Example where_clause_of_update :
  backupQueryOf "UPDATE t SET name='b' WHERE id=5" (Some "t")
  = "SELECT * FROM t WHERE id=5".
Proof. reflexivity. Qed.

Example kinds_of_statements :
  map operationTypeOf
      ["delete from t"; "TRUNCATE TABLE t"; "update t set a = 1";
       "INSERT INTO t VALUES (1)"; "DROP TABLE t"; "CREATE TABLE t (a INT)";
       "SELECT * FROM t"]
  = [Some DELETE; Some DELETE; Some UPDATE; Some INSERT; Some DROP_TABLE; None; None].
Proof. reflexivity. Qed.

Example iso_strings :
  map toISOString [0; 951782400000; 1700000000123; -1]
  = ["1970-01-01T00:00:00.000Z"; "2000-02-29T00:00:00.000Z";
     "2023-11-14T22:13:20.123Z"; "1969-12-31T23:59:59.999Z"].
Proof. reflexivity. Qed.

Example timestamp_of_reading :
  makeTimestamp 1700000000123 41000700000 = "2023-11-14 22:13:20.123700000".
Proof. reflexivity. Qed.

Example sums_of_doubles :
  map (fun p => numberAdd (fst p) (snd p))
      [(7, 1); (9007199254740991, 1); (9007199254740992, 1);
       (9007199254740992, 2); (9007199254740992, 3); (-9007199254740992, -1)]
  = [8; 9007199254740992; 9007199254740992;
     9007199254740994; 9007199254740996; -9007199254740992].
Proof. reflexivity. Qed.

Example differences_of_doubles :
  map (fun p => numberSub (fst p) (snd p))
      [(8, 1); (9007199254740992, 1); (9007199254740994, 1); (9007199254740996, 1)]
  = [7; 9007199254740991; 9007199254740992; 9007199254740996].
Proof. reflexivity. Qed.

(** ** Arithmetic on safe integers *)

Lemma nearestDouble_exact z : Z.abs z <= 2 ^ 53 -> nearestDouble z = z.
Proof.
  intros Hz. unfold nearestDouble.
  destruct (Z.ltb_spec (Z.abs z) (2 ^ 53)) as [_ | Hge]; [reflexivity |].
  assert (z = 2 ^ 53 \/ z = - 2 ^ 53) as [-> | ->] by lia; reflexivity.
Qed.

Lemma numberAdd_exact a b : Z.abs (a + b) <= 2 ^ 53 -> numberAdd a b = a + b.
Proof. apply nearestDouble_exact. Qed.

Lemma numberSub_exact a b : Z.abs (a - b) <= 2 ^ 53 -> numberSub a b = a - b.
Proof. apply nearestDouble_exact. Qed.

(** The end of the id range of an insert, where the arithmetic is exact. *)
Lemma idRange_end_exact insert_id affected :
  0 <= insert_id -> 0 <= affected -> insert_id + affected <= 2 ^ 53 ->
  numberSub (numberAdd insert_id affected) 1 = insert_id + affected - 1.
Proof.
  intros Hi Ha Hsum.
  rewrite numberAdd_exact by lia. apply numberSub_exact. lia.
Qed.

(** ** What a computation leaves alone *)

Section Frame.
Context {H : Host}.

Lemma sameStore_refl w : sameStore w w.
Proof. repeat split. Qed.

Lemma sameStore_trans w1 w2 w3 :
  sameStore w1 w2 -> sameStore w2 w3 -> sameStore w1 w3.
Proof.
  intros (a & b & c) (a' & b' & c'); repeat split; congruence.
Qed.

Lemma keeps_ret {A} (a : A) : keepsStore (ret a).
Proof. intro w; apply sameStore_refl. Qed.

Lemma keeps_throw {A} e : keepsStore (@throw _ A e).
Proof. intro w; apply sameStore_refl. Qed.

Lemma keeps_bind {A B} (m : M A) (f : A -> M B) :
  keepsStore m -> (forall a, keepsStore (f a)) -> keepsStore (bind m f).
Proof.
  intros Hm Hf w. unfold bind. specialize (Hm w).
  destruct (m w) as [[e | a] w1]; cbn in *; [exact Hm |].
  eapply sameStore_trans; [exact Hm | apply Hf].
Qed.

Lemma keeps_execute text values : keepsStore (execute text values).
Proof.
  intro w. unfold execute.
  destruct (mysql_execute text values (db w)) as [e | [r d]]; repeat split.
Qed.

Lemma keeps_liftE {A} (r : string + A) : keepsStore (liftE r).
Proof. destruct r; [apply keeps_throw | apply keeps_ret]. Qed.

Lemma keeps_forEach {A} (body : A -> M unit) l :
  (forall a, keepsStore (body a)) -> keepsStore (forEach l body).
Proof.
  intro Hb. induction l as [| x rest IH]; cbn [forEach].
  - apply keeps_ret.
  - apply keeps_bind; [apply Hb | intros _; exact IH].
Qed.

Create HintDb frame.
#[local] Hint Resolve keeps_ret keeps_throw keeps_execute keeps_liftE : frame.

Lemma keeps_reinsertRow target row : keepsStore (reinsertRow target row).
Proof.
  unfold reinsertRow.
  apply keeps_bind; [auto with frame | intros values].
  apply keeps_bind; auto with frame.
Qed.

Lemma keeps_restoreRow target row : keepsStore (restoreRow target row).
Proof.
  unfold restoreRow.
  apply keeps_bind; [auto with frame | intros values].
  destruct (field "id" row) as [rowId |]; [| auto with frame].
  destruct (truthy rowId); [| auto with frame].
  apply keeps_bind; auto with frame.
Qed.

(** The inverse action talks to MySQL only: it never touches the ledger. *)
Lemma keeps_inverseAction v b : keepsStore (inverseAction v b).
Proof.
  unfold inverseAction.
  destruct (operation_type v).
  - destruct (idRange b) as [[start end_] |]; [| auto with frame].
    destruct (start =? end_); apply keeps_bind; auto with frame.
  - destruct (originalRows b) as [[[| r rs] | ? ?] |]; auto with frame.
    apply keeps_bind; [| auto with frame].
    apply keeps_forEach, keeps_restoreRow.
  - destruct (deletedRows b) as [[[| r rs] | ? ?] |]; auto with frame.
    apply keeps_bind; [| auto with frame].
    apply keeps_forEach, keeps_reinsertRow.
  - apply keeps_bind; auto with frame.
  - destruct (structure b) as [tableStructure |]; [| auto with frame].
    destruct (data b) as [tableData |]; [| auto with frame].
    apply keeps_bind.
    + destruct (field "Create Table" tableStructure) as [[| | | createTableSQL] |];
        auto with frame.
      apply keeps_bind; auto with frame.
    + intros _. apply keeps_bind; [| auto with frame].
      destruct tableData as [[| r rs] | ? ?]; auto with frame.
      apply keeps_forEach, keeps_reinsertRow.
  - auto with frame.
Qed.

End Frame.

(** ** The restore path *)

Section Restore.
Context {H : Host}.
Variable this : Server.

(** Once the record is found, has a payload and the connection opens, a
    restore is its inverse action followed by the marker, or the report
    of the error that the inverse action raised. *)
Lemma restore_run (args : RollbackArgs) w ledger v b :
  versionDB w = Some ledger ->
  getVersion ledger (version_id args) = Some v ->
  backup_data v = Some b ->
  connects this (rollbackConfig args) ->
  handleRollbackToVersion this args w =
  match inverseAction v b w with
  | (inr result, w1) =>
      (inr (ok ("Rollback successful!" ++ nl ++ result)),
       marked this w1 ledger v (version_id args))
  | (inl e, w1) => (inr (failure ("Rollback failed: " ++ e)), w1)
  end.
Proof.
  intros Hdb Hget Hb Hconn.
  unfold handleRollbackToVersion, tryCatch at 1, bind at 1, getLedger.
  rewrite Hdb, Hget, Hb. unfold bind at 1. rewrite Hconn. cbn [ret].
  unfold tryCatch, bind at 1.
  pose proof (keeps_inverseAction v b w) as (Hv & _ & _).
  destruct (inverseAction v b w) as [[e | result] w1]; cbn [snd] in Hv; [reflexivity |].
  unfold bind, newTimestamp, readClock, saveVersion, tryCatch, getLedger, putLedger, ret.
  cbn. rewrite Hv, Hdb. reflexivity.
Qed.

(** C7. A restore request whose version id matches no ledger record, or
    whose record has a null backup payload, returns an error report and
    leaves the world exactly as it was: no statement is sent to MySQL and
    no history record, hence no ROLLBACK marker, is appended. *)
Theorem restore_without_backup_changes_nothing (args : RollbackArgs) w :
  lookupVersion w (version_id args) = None \/
  (exists v, lookupVersion w (version_id args) = Some v /\ backup_data v = None) ->
  exists report,
    handleRollbackToVersion this args w = (inr report, w) /\
    isError report = true.
Proof.
  unfold lookupVersion, handleRollbackToVersion, tryCatch, bind, getLedger.
  destruct (versionDB w) as [ledger |].
  - intros [Hnone | (v & Hsome & Hb)].
    + rewrite Hnone. eexists; split; reflexivity.
    + rewrite Hsome, Hb. eexists; split; reflexivity.
  - intros _. eexists; split; reflexivity.
Qed.

(** C9. After a restore whose inverse action completes without error,
    the ledger holds exactly one more record; it is of type ROLLBACK, its
    description and SQL text name the version id that was restored, and
    its backup payload is null. *)
Theorem restore_appends_one_marker (args : RollbackArgs) w ledger v b result w1 :
  versionDB w = Some ledger ->
  getVersion ledger (version_id args) = Some v ->
  backup_data v = Some b ->
  connects this (rollbackConfig args) ->
  inverseAction v b w = (inr result, w1) ->
  exists w2 marker,
    handleRollbackToVersion this args w =
      (inr (ok ("Rollback successful!" ++ nl ++ result)), w2) /\
    versionDB w2 = Some {| rows := rows ledger ++ [marker]; seq := seq ledger + 1 |} /\
    operation_type marker = ROLLBACK /\
    description marker = "Rollback to version " ++ ofZ (version_id args) /\
    sql_query marker = "ROLLBACK TO VERSION " ++ ofZ (version_id args) /\
    backup_data marker = None /\
    id marker = seq ledger + 1 /\
    db w2 = db w1 /\ issued w2 = issued w1.
Proof.
  intros Hdb Hget Hb Hconn Hrun.
  rewrite (restore_run args w ledger v b Hdb Hget Hb Hconn), Hrun.
  eexists; eexists. split; [reflexivity |].
  cbn. repeat split; reflexivity.
Qed.

(** C10. For a record whose payload is non-null but whose inverse action
    issues no statement (an INSERT without id range, a DELETE with an
    empty deletedRows array, an UPDATE with an empty originalRows array),
    restore still appends a ROLLBACK marker and answers with a success
    report that starts with the line Rollback successful!, although
    no statement reached MySQL. *)
Theorem restore_of_nothing_succeeds (args : RollbackArgs) w ledger v b :
  versionDB w = Some ledger ->
  getVersion ledger (version_id args) = Some v ->
  backup_data v = Some b ->
  connects this (rollbackConfig args) ->
  nothingToUndo v b ->
  exists w2 result marker,
    handleRollbackToVersion this args w =
      (inr {| text := "Rollback successful!" ++ nl ++ result; isError := false |}, w2) /\
    versionDB w2 = Some {| rows := rows ledger ++ [marker]; seq := seq ledger + 1 |} /\
    operation_type marker = ROLLBACK /\
    issued w2 = issued w /\ db w2 = db w.
Proof.
  intros Hdb Hget Hb Hconn Hnothing.
  rewrite (restore_run args w ledger v b Hdb Hget Hb Hconn).
  assert (exists result, inverseAction v b w = (inr result, w)) as (result & Hrun).
  { unfold inverseAction.
    destruct Hnothing as [(Hop & Hp) | [(Hop & Hp) | (Hop & Hp)]];
      rewrite Hop, Hp; eexists; reflexivity. }
  rewrite Hrun. exists (marked this w ledger v (version_id args)), result.
  eexists. split; [reflexivity |]. cbn. repeat split; reflexivity.
Qed.

(** C2, as the code has it. When a statement of the inverse action
    raises, the restore answers with the single report Rollback failed
    followed by the message of that error, flagged as an error: the
    report is a function of the message alone and carries no count of
    rows. The rows restored before the failure stay restored, and the
    ledger receives no ROLLBACK marker. *)
Theorem restore_failure_reports_message_only (args : RollbackArgs) w ledger v b e w1 :
  versionDB w = Some ledger ->
  getVersion ledger (version_id args) = Some v ->
  backup_data v = Some b ->
  connects this (rollbackConfig args) ->
  inverseAction v b w = (inl e, w1) ->
  handleRollbackToVersion this args w =
    (inr {| text := "Rollback failed: " ++ e; isError := true |}, w1) /\
  versionDB w1 = versionDB w.
Proof.
  intros Hdb Hget Hb Hconn Hrun.
  rewrite (restore_run args w ledger v b Hdb Hget Hb Hconn), Hrun.
  split; [reflexivity |].
  pose proof (keeps_inverseAction v b w) as (Hv & _).
  rewrite Hrun in Hv. exact Hv.
Qed.

End Restore.

(** ** Restoring an UPDATE *)

Section RestoreUpdate.
Context {H : Host}.

Lemma restoreRow_sent target row w w' :
  restoreRow target row w = (inr tt, w') ->
  issued w' =
  (issued w ++ if hasId row then [restoringUpdate target row] else [])%list.
Proof.
  unfold restoreRow, hasId, restoringUpdate, bind, liftE.
  destruct (mapE normalizeValue (map snd row)) as [e | values]; cbn [throw ret].
  - discriminate.
  - destruct (field "id" row) as [rowId |].
    + destruct (truthy rowId).
      * unfold execute.
        destruct (mysql_execute _ _ (db w)) as [e | [r d]]; [discriminate |].
        cbn. intros [= <-]. reflexivity.
      * cbn. intros [= <-]. now rewrite app_nil_r.
    + cbn. intros [= <-]. now rewrite app_nil_r.
Qed.

Lemma forEach_restoreRow_sent target rows : forall w w',
  forEach rows (restoreRow target) w = (inr tt, w') ->
  issued w' = (issued w ++ map (restoringUpdate target) (filter hasId rows))%list.
Proof.
  induction rows as [| row rest IH]; intros w w'; cbn [forEach filter].
  - cbn. intros [= <-]. now rewrite app_nil_r.
  - unfold bind.
    destruct (restoreRow target row w) as [[e | []] w1] eqn:Hrow; [discriminate |].
    intros Hrest. apply IH in Hrest. apply restoreRow_sent in Hrow.
    rewrite Hrest, Hrow, <- app_assoc.
    destruct (hasId row); reflexivity.
Qed.

End RestoreUpdate.

(** ** The write path *)

Section WritePath.
Context {H : Host}.
Variable this : Server.

(** C1. For a statement classified as DELETE, UPDATE or DROP_TABLE whose
    target table was found, when createBackup raises an error the error
    is logged (the line Backup failed followed by its message) and the
    statement itself is still sent to MySQL, with the effect on the
    database that MySQL gives it: the capture failure neither prevents
    nor undoes the write. *)
Theorem capture_failure_does_not_block_write (args : QueryArgs) w operation e w1 :
  permitted this (query args) ->
  connects this (queryConfig args) ->
  operationTypeOf (query args) = Some operation ->
  capturedBefore operation ->
  present (extractTableFromQuery (query args)) = true ->
  createBackup this operation (query args) (extractTableFromQuery (query args))
               None (Some Conn) w = (inl e, w1) ->
  let run := handleQuery this args w in
  console (snd run) = (console w1 ++ [("Backup failed: " ++ e)%string])%list /\
  match mysql_execute (query args) [] (db w1) with
  | inr (rows, after) =>
      issued (snd run) =
        (issued w1 ++ [{| sql := query args; params := []; completed := true |}])%list /\
      db (snd run) = after /\
      exists report, fst run = inr report /\ isError report = false
  | inl raised =>
      issued (snd run) =
        (issued w1 ++ [{| sql := query args; params := []; completed := false |}])%list /\
      db (snd run) = db w1 /\ fst run = inl raised
  end.
Proof.
  intros Hperm Hconn Hop Hkind Htable Hfail run.
  assert (Operation_eqb operation INSERT = false) as Hnot
      by (destruct Hkind as [-> | [-> | ->]]; reflexivity).
  assert (run =
          let logged := snd (console_error ("Backup failed: " ++ e) w1) in
          match execute (query args) [] logged with
          | (inl raised, w2) => (inl raised, w2)
          | (inr rows, w2) =>
              (inr (ok match rows with
                       | RowSet (r :: rs) => formatResultsAsTable (r :: rs)
                       | ResultSetHeader affected _ =>
                           "Query executed successfully. Affected rows: " ++ ofZ affected
                       | RowSet [] => "Query executed successfully. No rows returned."
                       end), w2)
          end) as ->.
  { subst run. unfold handleQuery, bind. rewrite Hperm. cbn [ret].
    rewrite Hconn. cbn [ret]. rewrite Hop.
    assert ((Operation_eqb operation DELETE || Operation_eqb operation UPDATE
             || Operation_eqb operation DROP_TABLE) = true) as ->
        by (destruct Hkind as [-> | [-> | ->]]; reflexivity).
    rewrite Htable. cbn [andb].
    unfold backupOrLog, tryCatch, bind. rewrite Hfail.
    cbv zeta.
    destruct (console_error ("Backup failed: " ++ e) w1) as [[? | []] logged] eqn:Hlog;
      [discriminate Hlog |].
    cbn [snd].
    destruct (execute (query args) [] logged) as [[raised | rows] w2]; [reflexivity |].
    destruct operation; try discriminate Hnot;
      destruct rows as [[| r rs] | affected insert_id]; reflexivity. }
  cbv zeta. unfold console_error, execute. cbn [snd db issued console].
  destruct (mysql_execute (query args) [] (db w1)) as [raised | [rows after]]; cbn.
  - repeat split; reflexivity.
  - split; [reflexivity | split; [reflexivity | split; [reflexivity |]]].
    eexists; split; reflexivity.
Qed.

(** What the else branch of the capture does: a DELETE or UPDATE whose
    text does not contain the letters where is snapshotted by a select
    of the whole table, and the payload holds what the select returned. *)
Lemma capture_without_where operation text target w :
  operation = DELETE \/ operation = UPDATE ->
  includes (toLowerCase text) "where" = false ->
  let wholeTable := execute ("SELECT * FROM " ++ showTable target) [] w in
  match fst wholeTable with
  | inl e =>
      captureSnapshot operation text target None (Some Conn) w = (inl e, snd wholeTable)
  | inr found =>
      exists b,
        captureSnapshot operation text target None (Some Conn) w
          = (inr (Some b, lengthOf found), snd wholeTable) /\
        (operation = DELETE -> deletedRows b = Some found) /\
        (operation = UPDATE -> originalRows b = Some found)
  end.
Proof.
  intros Hop Hwhere wholeTable. subst wholeTable.
  unfold captureSnapshot, backupQueryOf. rewrite Hwhere.
  assert ((Operation_eqb operation DELETE || Operation_eqb operation UPDATE) = true) as ->
      by (destruct Hop as [-> | ->]; reflexivity).
  cbn [andb negb String.eqb append]. unfold bind.
  destruct (execute _ [] w) as [[e | found] w'] eqn:Hexec; cbn [fst snd].
  - reflexivity.
  - destruct Hop as [-> | ->]; cbn; eexists; (split; [reflexivity |]);
      split; intros; (reflexivity || discriminate).
Qed.


End WritePath.

(** ** The statement classifier *)

Section Classifier.
Context {H : Host}.
Variable this : Server.

(** Two keywords that differ in their first letter never both start a text. *)
Lemma startsWith_first_letter (s : string) (c1 c2 : ascii) (p1 p2 : string) :
  c1 <> c2 ->
  startsWith s (String c1 p1) = true ->
  startsWith s (String c2 p2) = false.
Proof.
  intros Hne. unfold startsWith. destruct s as [| c s]; cbn [String.prefix].
  - discriminate.
  - destruct (ascii_dec c1 c) as [<- |]; [| discriminate].
    intros _. destruct (ascii_dec c2 c1) as [-> |]; [contradiction | reflexivity].
Qed.

Lemma startsWith_includes (s p : string) :
  startsWith s p = true -> includes s p = true.
Proof.
  unfold startsWith. intros Hp. destruct s; cbn [includes]; now rewrite Hp.
Qed.

(** The gate on a statement that one of its update rules recognises,
    when updates are not allowed. *)
Lemma gate_refuses_update_like text w :
  let n := toUpperCase (trim text) in
  startsWith n "UPDATE" || includes n "ALTER TABLE" || includes n "MODIFY COLUMN"
  || includes n "ADD COLUMN" || includes n "DROP COLUMN" = true ->
  allowUpdate (permissions this) = false ->
  checkQueryPermissions this text w =
  (inl (if (startsWith n "DELETE" || includes n "DROP TABLE"
            || includes n "DROP DATABASE" || includes n "TRUNCATE")
           && negb (allowDelete (permissions this))
        then "DELETE operations are not allowed. Set ALLOW_DELETE_OPERATION=true to enable."
        else "UPDATE operations are not allowed. Set ALLOW_UPDATE_OPERATION=true to enable."),
   w).
Proof.
  intros n Hlike Hoff. unfold checkQueryPermissions. fold n.
  rewrite Hlike, Hoff. cbn [negb andb].
  destruct ((startsWith n "DELETE" || includes n "DROP TABLE"
             || includes n "DROP DATABASE" || includes n "TRUNCATE")
            && negb (allowDelete (permissions this))); reflexivity.
Qed.

(** C6, as the code has it. The kind is assigned first match wins:
    DELETE when the text starts with DELETE or contains TRUNCATE, else
    UPDATE when it starts with UPDATE, else INSERT when it starts with
    INSERT, else DROP_TABLE when it contains DROP TABLE, else none;
    CREATE_TABLE is never assigned by the classifier, nor is ROLLBACK.
    ALTER TABLE and the column rules (MODIFY COLUMN, ADD COLUMN, DROP
    COLUMN) are known to the permission gate only, which asks the update
    permission for them: with updates not allowed, a statement that
    contains one of them is refused, with the error of the update rule
    unless the delete rule refuses it first. A statement that begins with
    ALTER TABLE is never assigned UPDATE, and it has no kind unless it
    contains TRUNCATE or DROP TABLE. *)
Theorem classifier_precedence (text : string) :
  let n := toUpperCase (trim text) in
  (operationTypeOf text = Some DELETE <->
     startsWith n "DELETE" = true \/ includes n "TRUNCATE" = true) /\
  (operationTypeOf text = Some UPDATE <->
     includes n "TRUNCATE" = false /\ startsWith n "UPDATE" = true) /\
  (operationTypeOf text = Some INSERT <->
     includes n "TRUNCATE" = false /\ startsWith n "INSERT" = true) /\
  (operationTypeOf text = Some DROP_TABLE <->
     startsWith n "DELETE" = false /\ includes n "TRUNCATE" = false /\
     startsWith n "UPDATE" = false /\ startsWith n "INSERT" = false /\
     includes n "DROP TABLE" = true) /\
  (operationTypeOf text = None <->
     startsWith n "DELETE" = false /\ includes n "TRUNCATE" = false /\
     startsWith n "UPDATE" = false /\ startsWith n "INSERT" = false /\
     includes n "DROP TABLE" = false) /\
  operationTypeOf text <> Some CREATE_TABLE /\
  operationTypeOf text <> Some ROLLBACK /\
  (includes n "ALTER TABLE" = true \/ includes n "MODIFY COLUMN" = true \/
   includes n "ADD COLUMN" = true \/ includes n "DROP COLUMN" = true ->
   allowUpdate (permissions this) = false ->
   forall w, exists e,
     checkQueryPermissions this text w = (inl e, w) /\
     (allowDelete (permissions this) = true ->
      e = "UPDATE operations are not allowed. Set ALLOW_UPDATE_OPERATION=true to enable.")) /\
  (startsWith n "ALTER TABLE" = true ->
     operationTypeOf text <> Some UPDATE /\
     (operationTypeOf text = None <->
      includes n "TRUNCATE" = false /\ includes n "DROP TABLE" = false)).
Proof.
  intros n.
  assert (startsWith n "UPDATE" = true -> startsWith n "DELETE" = false) as Hud
      by (apply startsWith_first_letter; discriminate).
  assert (startsWith n "INSERT" = true -> startsWith n "DELETE" = false) as Hid
      by (apply startsWith_first_letter; discriminate).
  assert (startsWith n "INSERT" = true -> startsWith n "UPDATE" = false) as Hiu
      by (apply startsWith_first_letter; discriminate).
  assert (startsWith n "ALTER TABLE" = true -> startsWith n "DELETE" = false) as Had
      by (apply startsWith_first_letter; discriminate).
  assert (startsWith n "ALTER TABLE" = true -> startsWith n "UPDATE" = false) as Hau
      by (apply startsWith_first_letter; discriminate).
  assert (startsWith n "ALTER TABLE" = true -> startsWith n "INSERT" = false) as Hai
      by (apply startsWith_first_letter; discriminate).
  assert (operationTypeOf text =
          if startsWith n "DELETE" || includes n "TRUNCATE" then Some DELETE
          else if startsWith n "UPDATE" then Some UPDATE
          else if startsWith n "INSERT" then Some INSERT
          else if includes n "DROP TABLE" then Some DROP_TABLE
          else None) as -> by reflexivity.
  split; [| split; [| split; [| split; [| split; [| split; [| split; [| split]]]]]]].
  8: { intros Hlike Hoff w. eexists. split.
       - apply gate_refuses_update_like; [| exact Hoff]. fold n.
         destruct Hlike as [-> | [-> | [-> | ->]]];
           repeat rewrite orb_true_r; reflexivity.
       - fold n. intros ->. cbn [negb]. now rewrite andb_false_r. }
  8: { intros Halter. rewrite (Had Halter), (Hau Halter), (Hai Halter). cbn [orb].
       destruct (includes n "TRUNCATE"), (includes n "DROP TABLE");
         (split; [discriminate |]); split;
         solve [ discriminate | reflexivity | intros [? ?]; discriminate
               | intros _; split; reflexivity ]. }
  all: destruct (startsWith n "DELETE") eqn:Hd, (includes n "TRUNCATE") eqn:Ht,
                (startsWith n "UPDATE") eqn:Hu, (startsWith n "INSERT") eqn:Hi,
                (includes n "DROP TABLE") eqn:Hdrop;
    cbn [orb];
    try (specialize (Hud eq_refl)); try (specialize (Hid eq_refl));
    try (specialize (Hiu eq_refl)); try discriminate;
    try (split; intros; intuition (discriminate || congruence)).
Qed.

End Classifier.

(** * The engine on the small host *)

Module Scenarios.
Import Demo.

(** C1 at work: the ledger store is down, so the capture raises after
    its select; the DELETE is sent all the same. *)
Lemma capture_failure_witness :
  let run := handleQuery server deleteAll (world people None) in
  map sql (issued (snd run)) =
    ["SELECT * FROM users"; "DELETE FROM users"] /\
  In ("Backup failed: " ++ storeDown) (console (snd run)).
Proof.
  pose proof (capture_failure_does_not_block_write server deleteAll
                (world people None) DELETE storeDown
                (snd (createBackup server DELETE (query deleteAll)
                        (extractTableFromQuery (query deleteAll)) None (Some Conn)
                        (world people None)))) as Hrun.
  cbv zeta in Hrun |- *.
  destruct Hrun as (Hconsole & Hsent).
  - reflexivity.
  - reflexivity.
  - vm_compute; reflexivity.
  - left; reflexivity.
  - vm_compute; reflexivity.
  - vm_compute; reflexivity.
  - split.
    + vm_compute; reflexivity.
    + rewrite Hconsole. apply in_or_app. right. left. reflexivity.
Defined.

(** C2 refuted. The same three-row DELETE is restored twice: over a
    table where id 2 is taken again the second INSERT fails after one row
    was restored, over a table where id 3 is taken the third fails after
    two. Both restores return the very same report, so no reading of the
    report gives the number of rows restored. *)
Lemma failure_report_hides_progress :
  ~ exists count : string + Response -> nat,
      count (fst (restoreOver [person 2 "x"]))
        = restoredRows (snd (restoreOver [person 2 "x"])) /\
      count (fst (restoreOver [person 3 "x"]))
        = restoredRows (snd (restoreOver [person 3 "x"])).
Proof.
  intros (count & Hone & Htwo).
  assert (fst (restoreOver [person 2 "x"]) = fst (restoreOver [person 3 "x"])) as Hsame
      by (vm_compute; reflexivity).
  rewrite Hsame in Hone. rewrite Hone in Htwo.
  vm_compute in Htwo. discriminate Htwo.
Qed.

(** C2 at work: the report of the restore that fails on its second row. *)
Lemma restore_failure_witness :
  fst (restoreOver [person 2 "x"])
    = inr {| text := "Rollback failed: " ++ lostKey; isError := true |} /\
  timestamps (snd (restoreOver [person 2 "x"])) = [timestamp deleteRecord].
Proof.
  destruct (restore_failure_reports_message_only server (restore 1)
              (world [person 2 "x"] (Some (ledgerOf deleteRecord)))
              (ledgerOf deleteRecord) deleteRecord deletedThree lostKey
              (snd (inverseAction deleteRecord deletedThree
                      (world [person 2 "x"] (Some (ledgerOf deleteRecord))))))
    as (Hreport & Hstore).
  - reflexivity.
  - reflexivity.
  - reflexivity.
  - reflexivity.
  - vm_compute; reflexivity.
  - unfold restoreOver, timestamps. rewrite Hreport. cbn [fst snd].
    rewrite Hstore. split; reflexivity.
Defined.



(** C7 at work: version 42 is not in the ledger. *)
Lemma restore_unknown_witness :
  exists report,
    handleRollbackToVersion server (restore 42) (world people (Some emptyLedger))
      = (inr report, world people (Some emptyLedger)) /\
    isError report = true.
Proof.
  apply (restore_without_backup_changes_nothing server (restore 42)
           (world people (Some emptyLedger))).
  left. reflexivity.
Defined.

(** C8 on a failing input. The row image carries the id 0, and the row
    reads b where the image says a. The restore tests the id for
    truthiness: it sends no statement and leaves the row as it is, yet it
    counts the row among the restored ones, reports success and appends
    the marker. *)
Theorem row_with_zero_id_is_counted_but_not_restored :
  let run := handleRollbackToVersion server (restore 1)
               (world [person 0 "b"] (Some (ledgerOf (updateRecord [person 0 "a"])))) in
  field "id" (person 0 "a") = Some (VNum 0) /\
  fst run = inr (ok ("Rollback successful!" ++ nl
                     ++ "Restored 1 rows to original state in table 'users'")) /\
  issued (snd run) = [] /\
  db (snd run) = [person 0 "b"] /\
  option_map (fun l => map sql_query (rows l)) (versionDB (snd run))
    = Some ["UPDATE users SET name = 'b'"; "ROLLBACK TO VERSION 1"].
Proof. vm_compute. repeat split; reflexivity. Qed.

(** C9 at work: restoring the UPDATE of version 1 appends the marker of
    version 2. *)
Lemma restore_marker_witness :
  exists w2 marker,
    handleRollbackToVersion server (restore 1)
      (world [person 5 "b"] (Some (ledgerOf (updateRecord [person 5 "a"]))))
      = (inr (ok ("Rollback successful!" ++ nl
                  ++ "Restored 1 rows to original state in table 'users'")), w2) /\
    versionDB w2 = Some {| rows := [updateRecord [person 5 "a"]; marker]; seq := 2 |} /\
    sql_query marker = "ROLLBACK TO VERSION 1" /\
    backup_data marker = None.
Proof.
  destruct (restore_appends_one_marker server (restore 1)
              (world [person 5 "b"] (Some (ledgerOf (updateRecord [person 5 "a"]))))
              (ledgerOf (updateRecord [person 5 "a"]))
              (updateRecord [person 5 "a"]) (updated [person 5 "a"])
              "Restored 1 rows to original state in table 'users'"
              (snd (inverseAction (updateRecord [person 5 "a"]) (updated [person 5 "a"])
                      (world [person 5 "b"]
                             (Some (ledgerOf (updateRecord [person 5 "a"]))))))
              eq_refl eq_refl eq_refl eq_refl)
    as (w2 & marker & Hrun & Hstore & _ & _ & Hsql & Hnull & _).
  - vm_compute; reflexivity.
  - exists w2, marker. repeat split; assumption.
Defined.

(** C10 at work: an UPDATE that matched no row is restored with success. *)
Lemma restore_of_nothing_witness :
  exists w2 result marker,
    handleRollbackToVersion server (restore 1)
      (world people (Some (ledgerOf (updateRecord []))))
      = (inr {| text := "Rollback successful!" ++ nl ++ result; isError := false |}, w2) /\
    versionDB w2 = Some {| rows := [updateRecord []; marker]; seq := 2 |} /\
    operation_type marker = ROLLBACK /\
    issued w2 = [] /\ db w2 = people.
Proof.
  apply (restore_of_nothing_succeeds server (restore 1)
           (world people (Some (ledgerOf (updateRecord []))))
           (ledgerOf (updateRecord [])) (updateRecord []) (updated [])
           eq_refl eq_refl eq_refl eq_refl).
  right; right. split; reflexivity.
Defined.

(** C6 refuted: a statement that begins with ALTER TABLE is given no kind. *)
Lemma alter_table_is_not_classified_update :
  ~ (forall text, startsWith (toUpperCase (trim text)) "ALTER TABLE" = true ->
                  operationTypeOf text = Some UPDATE).
Proof.
  intros Hall. specialize (Hall addColumn eq_refl).
  vm_compute in Hall. discriminate Hall.
Qed.

(** C6 at work, on the same statement: it has no kind, and a server
    that does not allow updates refuses it. *)
Lemma classifier_witness :
  operationTypeOf addColumn = None /\
  forall w,
    checkQueryPermissions noUpdates addColumn w =
    (inl "UPDATE operations are not allowed. Set ALLOW_UPDATE_OPERATION=true to enable.",
     w).
Proof.
  destruct (classifier_precedence noUpdates addColumn)
    as (_ & _ & _ & _ & _ & _ & _ & Hgate & Halter).
  destruct Halter as (_ & Hnone); [vm_compute; reflexivity |].
  split; [apply Hnone; split; vm_compute; reflexivity |].
  intros w.
  destruct (Hgate (or_introl eq_refl) eq_refl w) as (e & Hrun & He).
  rewrite Hrun, (He eq_refl). reflexivity.
Defined.

(** C4 on a failing input. DELETE FROM somewhere has no WHERE clause, yet
    the text contains the letters where: no select is derived, the table
    is emptied, and the history record carries no backup. *)
Theorem delete_from_somewhere_is_not_captured :
  let run := handleQuery server
               {| query := "DELETE FROM somewhere"; queryConfig := noOverride |}
               (world people (Some emptyLedger)) in
  Regex.exec Patterns.whereClause "DELETE FROM somewhere" = None /\
  backupQueryOf "DELETE FROM somewhere" (Some "somewhere") = "" /\
  map sql (issued (snd run)) = ["DELETE FROM somewhere"] /\
  db (snd run) = [] /\
  option_map (fun l => map backup_data (rows l)) (versionDB (snd run)) = Some [None].
Proof. vm_compute. repeat split; reflexivity. Qed.

(** C5 on a failing input. Two inserts recorded 0.4 ms apart within one
    wall-clock millisecond, neither clock running backwards: the record
    appended second carries the smaller timestamp. A nanosecond counter
    below 100000 gives a shorter string, so the width is not fixed. *)
Theorem later_record_has_smaller_timestamp :
  let run := (handleInsertData server (insertArgs "x") ;;
              handleInsertData server (insertArgs "y"))%js
               (world people (Some emptyLedger)) in
  wall_clock 0 <= wall_clock 1 /\ (hrtime 0 < hrtime 1)%N /\
  timestamps (snd run)
    = ["2023-11-14 22:13:20.123700000"; "2023-11-14 22:13:20.123100000"] /\
  ("2023-11-14 22:13:20.123100000" <? "2023-11-14 22:13:20.123700000")%string = true /\
  makeTimestamp 1700000000123 99999 = "2023-11-14 22:13:20.12399999".
Proof. vm_compute. repeat split; try reflexivity. discriminate. Qed.

End Scenarios.


(** * Further properties of the code *)

(** ** The matcher against the declarative reading of a pattern *)

Module MatchingFacts.
Import Regex Matching.

Lemma run_star {A} g r s c (k : string -> captures -> option A) :
  run (Star g r) s c k = starLoop (run r) g k (S (String.length s)) s c.
Proof. reflexivity. Qed.

Lemma orElse_some {A} (a b : option A) x :
  orElse a b = Some x -> a = Some x \/ b = Some x.
Proof. destruct a; cbn; auto. Qed.

Lemma starLoop_sound {A} g r (k : string -> captures -> option A)
      (Hstep : forall s c (k' : string -> captures -> option A) x,
               run r s c k' = Some x ->
               exists s' c', Matches r s c s' c' /\ k' s' c' = Some x) :
  forall fuel s c x,
    starLoop (run r) g k fuel s c = Some x ->
    exists s' c', Matches (Star g r) s c s' c' /\ k s' c' = Some x.
Proof.
  induction fuel as [| fuel IH]; intros s c x; cbn [starLoop].
  - intros Hk. exists s, c. split; [constructor | exact Hk].
  - intros Hrun.
    assert (run r s c (fun s1 c1 =>
              if (String.length s1 <? String.length s)%nat
              then starLoop (run r) g k fuel s1 c1 else None) = Some x
            \/ k s c = Some x) as [Hagain | Hk].
    { destruct g; apply orElse_some in Hrun; tauto. }
    + apply Hstep in Hagain. destruct Hagain as (s1 & c1 & Hbody & Hrest).
      destruct (String.length s1 <? String.length s)%nat; [| discriminate].
      apply IH in Hrest. destruct Hrest as (s' & c' & Hstar & Hk).
      exists s', c'. split; [| exact Hk].
      eapply M_StarCons; eassumption.
    + exists s, c. split; [constructor | exact Hk].
Qed.

(** Whatever [run] finds is a match: the continuation was entered with the
    rest and the captures of some match of the pattern. *)
Lemma run_sound {A} r : forall s c (k : string -> captures -> option A) x,
  run r s c k = Some x ->
  exists s' c', Matches r s c s' c' /\ k s' c' = Some x.
Proof.
  induction r as [| p | r1 IH1 r2 IH2 | r1 IH1 r2 IH2 | g r IH | n r IH | n |];
    intros s c k x.
  - cbn. intros Hk. exists s, c. split; [constructor | exact Hk].
  - cbn. destruct s as [| a s]; [discriminate |].
    destruct (p a) eqn:Hp; [| discriminate].
    intros Hk. exists s, c. split; [now constructor | exact Hk].
  - cbn [run]. intros Hrun. apply IH1 in Hrun.
    destruct Hrun as (s1 & c1 & H1 & Hrun). apply IH2 in Hrun.
    destruct Hrun as (s2 & c2 & H2 & Hk).
    exists s2, c2. split; [econstructor; eassumption | exact Hk].
  - cbn [run]. intros Hrun. apply orElse_some in Hrun. destruct Hrun as [Hrun | Hrun].
    + apply IH1 in Hrun. destruct Hrun as (s1 & c1 & H1 & Hk).
      exists s1, c1. split; [now apply M_AltL | exact Hk].
    + apply IH2 in Hrun. destruct Hrun as (s1 & c1 & H1 & Hk).
      exists s1, c1. split; [now apply M_AltR | exact Hk].
  - rewrite run_star. apply starLoop_sound. exact IH.
  - cbn [run]. intros Hrun. apply IH in Hrun.
    destruct Hrun as (s1 & c1 & H1 & Hk).
    eexists; eexists. split; [apply M_Group; exact H1 | exact Hk].
  - cbn [run]. destruct (capture n c) as [t |] eqn:Hcap.
    + destruct (String.prefix t s) eqn:Hpre; [| discriminate].
      intros Hk. eexists; eexists. split; [eapply M_Backref; eassumption | exact Hk].
    + intros Hk. exists s, c. split; [now apply M_BackrefNone | exact Hk].
  - cbn. destruct s; [| discriminate].
    intros Hk. exists EmptyString, c. split; [constructor | exact Hk].
Qed.

Lemma exec_sound r : forall s m,
  exec r s = Some m -> exists s0 s', Matches r s0 [] s' m.
Proof.
  induction s as [| a s IH]; intros m; cbn [exec]; intros Hexec;
    apply orElse_some in Hexec; destruct Hexec as [Hhere | Hlater];
    try discriminate.
  - apply run_sound in Hhere. destruct Hhere as (s' & c' & Hm & [= ->]). eauto.
  - apply run_sound in Hhere. destruct Hhere as (s' & c' & Hm & [= ->]). eauto.
  - apply IH in Hlater. exact Hlater.
Qed.

Lemma prefix_split t : forall s,
  String.prefix t s = true ->
  s = (t ++ String.substring (String.length t) (String.length s - String.length t) s)%string.
Proof.
  induction t as [| a t IH]; intros s.
  - intros _. cbn [String.length append]. rewrite Nat.sub_0_r.
    induction s as [| b s IHs]; cbn; [reflexivity |].
    cbn in IHs. now rewrite <- IHs.
  - destruct s as [| b s]; cbn [String.prefix]; [discriminate |].
    destruct (ascii_dec a b) as [<- |]; [| discriminate].
    intros Hpre. cbn. f_equal. now apply IH.
Qed.

Lemma length_append (u v : string) :
  String.length (u ++ v) = (String.length u + String.length v)%nat.
Proof. induction u as [| a u IH]; cbn; [reflexivity | now rewrite IH]. Qed.

Lemma append_assoc (u v w : string) : ((u ++ v) ++ w = u ++ (v ++ w))%string.
Proof. induction u as [| a u IH]; cbn; [reflexivity | now rewrite IH]. Qed.

Lemma substring_prefix (u : string) : forall v,
  String.substring 0 (String.length (u ++ v) - String.length v) (u ++ v) = u.
Proof.
  intros v. rewrite length_append, Nat.add_sub.
  induction u as [| a u IH]; cbn.
  - destruct v; reflexivity.
  - now rewrite IH.
Qed.

(** A match takes a prefix of the text. *)
Lemma Matches_consumes r s c s' c' :
  Matches r s c s' c' -> exists u, s = (u ++ s')%string.
Proof.
  induction 1.
  - now exists EmptyString.
  - now exists (String x EmptyString).
  - destruct IHMatches1 as (u1 & ->), IHMatches2 as (u2 & ->).
    exists (u1 ++ u2)%string. now rewrite append_assoc.
  - assumption.
  - assumption.
  - now exists EmptyString.
  - destruct IHMatches1 as (u1 & ->), IHMatches2 as (u2 & ->).
    exists (u1 ++ u2)%string. now rewrite append_assoc.
  - assumption.
  - now exists EmptyString.
  - exists t. now apply prefix_split.
  - now exists EmptyString.
Qed.

(** Only a group writes a capture. *)
Lemma Matches_groupFree r s c s' c' :
  Matches r s c s' c' -> groupFree r = true -> c' = c.
Proof.
  induction 1; cbn [groupFree]; intros Hfree;
    try reflexivity; try discriminate;
    try (apply andb_prop in Hfree; destruct Hfree as (Hf1 & Hf2)).
  - rewrite IHMatches2, IHMatches1 by assumption. reflexivity.
  - auto.
  - auto.
  - rewrite IHMatches2, IHMatches1 by assumption. reflexivity.
Qed.

Lemma Matches_seq r1 r2 s c s' c' :
  Matches (Seq r1 r2) s c s' c' ->
  exists s1 c1, Matches r1 s c s1 c1 /\ Matches r2 s1 c1 s' c'.
Proof. inversion 1; subst; eauto. Qed.

(** Skipping a group-free head of a sequence. *)
Lemma Matches_seq_free r1 r2 s c s' c' :
  Matches (Seq r1 r2) s c s' c' -> groupFree r1 = true ->
  exists s1, Matches r2 s1 c s' c'.
Proof.
  intros Hm Hfree. apply Matches_seq in Hm. destruct Hm as (s1 & c1 & H1 & H2).
  apply Matches_groupFree in H1; [subst c1 | exact Hfree]. eauto.
Qed.

(** What a starred character class takes. *)
Lemma Matches_class_star g p s c s' c' :
  Matches (Star g (Chr p)) s c s' c' ->
  c' = c /\ exists u, s = (u ++ s')%string /\ allChars p u = true.
Proof.
  intros Hm. remember (Star g (Chr p)) as r eqn:Hr.
  induction Hm; try discriminate; injection Hr as -> ->.
  - split; [reflexivity |]. now exists EmptyString.
  - specialize (IHHm2 eq_refl). destruct IHHm2 as (-> & u & -> & Hu).
    inversion Hm1; subst. split; [reflexivity |].
    exists (String x u). split; [reflexivity |]. cbn.
    match goal with Hp : p x = true |- _ => now rewrite Hp end.
Qed.

Lemma Matches_quotedName s c s' c' :
  Matches Patterns.quotedName s c s' c' ->
  exists q name,
    c' = (2%nat, name) :: (1%nat, q) :: c /\
    name <> EmptyString /\ allChars is_word name = true.
Proof.
  unfold Patterns.quotedName. intros Hm.
  apply Matches_seq in Hm. destruct Hm as (s1 & c1 & Hquote & Hm).
  apply Matches_seq in Hm. destruct Hm as (s2 & c2 & Hname & Hback).
  inversion Hquote as [| | | | | | | n r s0 c0 s3 c3 Hin | | |]; subst.
  assert (c3 = c) as ->.
  { eapply Matches_groupFree; [exact Hin | reflexivity]. }
  inversion Hname as [| | | | | | | n r s0 c0 s4 c4 Hplus | | |]; subst.
  apply Matches_seq in Hplus. destruct Hplus as (s5 & c5 & Hfirst & Hmore).
  inversion Hfirst; subst.
  apply Matches_class_star in Hmore. destruct Hmore as (-> & u & -> & Hu).
  apply Matches_groupFree in Hback; [subst c' | reflexivity].
  eexists; eexists. split; [reflexivity |].
  change (String x (u ++ s2))%string with ((String x u) ++ s2)%string.
  rewrite substring_prefix. split; [discriminate |].
  cbn. match goal with Hp : is_word x = true |- _ => now rewrite Hp end.
Qed.

Lemma ident_of_word c : is_word c = true -> is_ident (lower_char c) = true.
Proof.
  destruct c as [[] [] [] [] [] [] [] []]; vm_compute; intros; congruence.
Qed.

Lemma lower_identifier name :
  name <> EmptyString -> allChars is_word name = true ->
  toLowerCase name <> EmptyString /\ allChars is_ident (toLowerCase name) = true.
Proof.
  intros Hne Hw. split.
  - destruct name; [contradiction | discriminate].
  - clear Hne. induction name as [| a name IH]; [reflexivity |].
    cbn in Hw |- *. apply andb_prop in Hw. destruct Hw as (Ha & Hrest).
    fold toLowerCase. rewrite (ident_of_word a Ha). now apply IH.
Qed.

End MatchingFacts.

Section TableName.
Import Regex Matching MatchingFacts.

(** X1. A table name that the classifier extracts is never empty and is
    made of lower-case letters, digits and underscores only: no quote,
    space or other character of the statement reaches the snapshot select
    through it. *)
Theorem extracted_table_is_identifier (text table : string) :
  extractTableFromQuery text = Some table ->
  table <> EmptyString /\ allChars is_ident table = true.
Proof.
  unfold extractTableFromQuery.
  set (n := toUpperCase (trim text)).
  assert (forall r m, exec r n = Some m ->
            (forall s0 s', Matches r s0 [] s' m ->
                           exists s1, Matches Patterns.quotedName s1 [] s' m) ->
            toLowerCase (Patterns.group 2 m) <> EmptyString /\
            allChars is_ident (toLowerCase (Patterns.group 2 m)) = true) as Hfound.
  { intros r m Hexec Htail.
    apply exec_sound in Hexec. destruct Hexec as (s0 & s' & Hm).
    apply Htail in Hm. destruct Hm as (s1 & Hm).
    apply Matches_quotedName in Hm. destruct Hm as (q & name & -> & Hne & Hw).
    cbn. now apply lower_identifier. }
  destruct (exec Patterns.dmlTable n) as [m |] eqn:Hdml.
  { intros [= <-]. apply (Hfound _ _ Hdml). intros s0 s' Hm.
    unfold Patterns.dmlTable in Hm.
    apply Matches_seq_free in Hm; [| reflexivity]. destruct Hm as (s1 & Hm).
    apply Matches_seq_free in Hm; [| reflexivity]. exact Hm. }
  destruct (exec Patterns.dropTable n) as [m |] eqn:Hdrop.
  { intros [= <-]. apply (Hfound _ _ Hdrop). intros s0 s' Hm.
    unfold Patterns.dropTable in Hm.
    do 5 (apply Matches_seq_free in Hm; [| reflexivity]; destruct Hm as (? & Hm)).
    eauto. }
  destruct (exec Patterns.truncateTable n) as [m |] eqn:Htrunc.
  { intros [= <-]. apply (Hfound _ _ Htrunc). intros s0 s' Hm.
    unfold Patterns.truncateTable in Hm.
    do 3 (apply Matches_seq_free in Hm; [| reflexivity]; destruct Hm as (? & Hm)).
    eauto. }
  discriminate.
Qed.

End TableName.

(** ** The ledger *)

Section LedgerFacts.

Lemma extends_refl l : extends l l.
Proof.
  split; [exists []; split; [now rewrite app_nil_r | constructor] |].
  split; [lia | auto].
Qed.

Lemma extends_trans l1 l2 l3 : extends l1 l2 -> extends l2 l3 -> extends l1 l3.
Proof.
  intros ((a & Ha & Hnew) & Hs & Hok) ((b & Hb & Hnew') & Hs' & Hok').
  split; [exists (a ++ b)%list; split; [now rewrite Hb, Ha, app_assoc |] |].
  - apply Forall_app. split; [exact Hnew |].
    eapply Forall_impl; [| exact Hnew']. cbn. intros; lia.
  - split; [lia | auto].
Qed.

Lemma grows_refl o : grows o o.
Proof. destruct o; cbn; [apply extends_refl | exact I]. Qed.

Lemma grows_trans a b c : grows a b -> grows b c -> grows a c.
Proof.
  destruct a, b, c; cbn; try tauto. apply extends_trans.
Qed.

Lemma find_app_left {A} (f : A -> bool) l l' x :
  find f l = Some x -> find f (l ++ l') = Some x.
Proof.
  induction l as [| a l IH]; cbn; [discriminate |].
  destruct (f a); auto.
Qed.

Lemma find_app_right {A} (f : A -> bool) l l' :
  find f l = None -> find f (l ++ l') = find f l'.
Proof.
  induction l as [| a l IH]; cbn; [reflexivity |].
  destruct (f a); [discriminate | auto].
Qed.

Lemma getVersion_fresh l version :
  Forall (fun r => id r <= seq l) (rows l) -> seq l < version ->
  getVersion l version = None.
Proof.
  unfold getVersion. intros Hall Hlt.
  induction Hall as [| r rest Hr Hrest IH]; cbn; [reflexivity |].
  destruct (id r =? version) eqn:Heq; [apply Z.eqb_eq in Heq; lia | exact IH].
Qed.

Lemma ledgerOk_saved l vi : ledgerOk l -> ledgerOk (saved l vi).
Proof.
  intros (Hnodup & Hall). split; cbn [saved rows seq].
  - rewrite map_app. cbn. apply NoDup_app; [exact Hnodup | | ].
    + constructor; [intros [] | constructor].
    + intros x Hin [<- | []]. apply in_map_iff in Hin.
      destruct Hin as (r & Hid & Hin).
      rewrite Forall_forall in Hall. specialize (Hall r Hin). lia.
  - apply Forall_app. split.
    + eapply Forall_impl; [| exact Hall]. cbn. intros; lia.
    + constructor; [cbn; lia | constructor].
Qed.

Lemma extends_saved l vi : extends l (saved l vi).
Proof.
  split; [eexists; split; [reflexivity | constructor; [cbn; lia | constructor]] |].
  split; [cbn; lia | apply ledgerOk_saved].
Qed.

(** A record that can be looked up stays as it is in every later ledger. *)
Lemma extends_getVersion l l' version r :
  extends l l' -> getVersion l version = Some r -> getVersion l' version = Some r.
Proof.
  intros ((added & Hrows & _) & _) Hget. unfold getVersion in *.
  rewrite Hrows. now apply find_app_left.
Qed.

Lemma getVersion_saved l vi :
  ledgerOk l -> getVersion (saved l vi) (seq l + 1) = Some (storedRecord l vi).
Proof.
  intros (_ & Hall). unfold getVersion. cbn [saved rows].
  rewrite find_app_right.
  - cbn. now rewrite Z.eqb_refl.
  - apply (getVersion_fresh l); [exact Hall | lia].
Qed.

Lemma getVersion_member l r :
  ledgerOk l -> In r (rows l) -> getVersion l (id r) = Some r.
Proof.
  intros (Hnodup & _). unfold getVersion.
  induction (rows l) as [| x rest IH]; cbn; [intros [] |].
  inversion Hnodup as [| ? ? Hnotin Hrest]; subst.
  intros [-> | Hin].
  - now rewrite Z.eqb_refl.
  - destruct (id x =? id r) eqn:Heq.
    + apply Z.eqb_eq in Heq. exfalso. apply Hnotin. rewrite Heq.
      now apply in_map.
    + now apply IH.
Qed.

End LedgerFacts.

Section Store.
Context {H : Host}.
Variable this : Server.

Lemma saveVersion_run vi w l :
  versionDB w = Some l ->
  saveVersion vi w = (inr (seq l + 1), snd (putLedger (saved l vi) w)).
Proof.
  intros Hdb. unfold saveVersion, tryCatch, bind, getLedger. rewrite Hdb. reflexivity.
Qed.

(** X2. What is appended can be read back: on a well-formed ledger,
    saveVersion returns a fresh id, larger than every id in the ledger,
    a lookup of that id returns exactly the record that was written, and
    every record that could be looked up before still can, unchanged. *)
Theorem saved_version_round_trip vi w l :
  versionDB w = Some l ->
  ledgerOk l ->
  exists w' l',
    saveVersion vi w = (inr (seq l + 1), w') /\
    versionDB w' = Some l' /\
    ledgerOk l' /\
    getVersion l' (seq l + 1) = Some (storedRecord l vi) /\
    (forall r, In r (rows l) -> id r < seq l + 1) /\
    (forall version r, getVersion l version = Some r -> getVersion l' version = Some r) /\
    db w' = db w /\ issued w' = issued w.
Proof.
  intros Hdb Hok. rewrite (saveVersion_run vi w l Hdb).
  eexists; exists (saved l vi). split; [reflexivity |].
  split; [reflexivity |]. split; [now apply ledgerOk_saved |].
  split; [now apply getVersion_saved |]. split.
  - intros r Hin. destruct Hok as (_ & Hall).
    rewrite Forall_forall in Hall. specialize (Hall r Hin). lia.
  - split; [| split; reflexivity].
    intros version r. apply extends_getVersion, extends_saved.
Qed.

End Store.

(** ** How the ledger changes under the tools *)

Section Growth.
Context {H : Host} {Lang : Builtins}.
Variable this : Server.

Lemma appendOnly_same {A} (m : M A) : sameLedger m -> appendOnly m.
Proof. intros Hm w. rewrite Hm. apply grows_refl. Qed.

Lemma sameLedger_keeps {A} (m : M A) : keepsStore m -> sameLedger m.
Proof. intros Hm w. now destruct (Hm w). Qed.

Lemma appendOnly_ret {A} (a : A) : appendOnly (ret a).
Proof. intro w. apply grows_refl. Qed.

Lemma appendOnly_throw {A} e : appendOnly (@throw _ A e).
Proof. intro w. apply grows_refl. Qed.

Lemma appendOnly_bind {A B} (m : M A) (f : A -> M B) :
  appendOnly m -> (forall a, appendOnly (f a)) -> appendOnly (bind m f).
Proof.
  intros Hm Hf w. unfold bind. specialize (Hm w).
  destruct (m w) as [[e | a] w1]; cbn [snd] in *; [exact Hm |].
  eapply grows_trans; [exact Hm | apply Hf].
Qed.

Lemma appendOnly_tryCatch {A} (m : M A) (h : string -> M A) :
  appendOnly m -> (forall e, appendOnly (h e)) -> appendOnly (tryCatch m h).
Proof.
  intros Hm Hh w. unfold tryCatch. specialize (Hm w).
  destruct (m w) as [[e | a] w1]; cbn [snd] in *; [| exact Hm].
  eapply grows_trans; [exact Hm | apply Hh].
Qed.

Lemma appendOnly_console line : appendOnly (console_error line).
Proof. intro w. apply grows_refl. Qed.

Lemma appendOnly_execute text values : appendOnly (execute text values).
Proof. apply appendOnly_same, sameLedger_keeps, keeps_execute. Qed.

Lemma appendOnly_liftE {A} (r : string + A) : appendOnly (liftE r).
Proof. destruct r; [apply appendOnly_throw | apply appendOnly_ret]. Qed.

Lemma appendOnly_saveVersion vi : appendOnly (saveVersion vi).
Proof.
  intro w. destruct (versionDB w) as [l |] eqn:Hdb.
  - rewrite (saveVersion_run vi w l Hdb). cbn. apply extends_saved.
  - unfold saveVersion, tryCatch, bind, getLedger. rewrite Hdb. cbn. now rewrite Hdb.
Qed.

Ltac grow :=
  repeat first
    [ apply appendOnly_ret | apply appendOnly_throw | apply appendOnly_console
    | apply appendOnly_execute | apply appendOnly_liftE | apply appendOnly_saveVersion
    | apply appendOnly_bind; [| intros ?]
    | apply appendOnly_tryCatch; [| intros ?]
    | match goal with
      | |- appendOnly (match ?x with _ => _ end) => destruct x
      | |- appendOnly (if ?x then _ else _) => destruct x
      end ].

Lemma appendOnly_newTimestamp : appendOnly newTimestamp.
Proof. unfold newTimestamp. grow. intro w. apply grows_refl. Qed.

Lemma appendOnly_createConnection cfg : appendOnly (createConnection this cfg).
Proof. unfold createConnection. cbv zeta. grow. Qed.

Lemma appendOnly_gate text : appendOnly (checkQueryPermissions this text).
Proof. unfold checkQueryPermissions. cbv zeta. grow. Qed.

Lemma appendOnly_captureSnapshot operation text target result connection :
  appendOnly (captureSnapshot operation text target result connection).
Proof. unfold captureSnapshot. cbv zeta. grow. Qed.

Lemma appendOnly_createBackup operation text target result connection :
  appendOnly (createBackup this operation text target result connection).
Proof.
  unfold createBackup. grow;
    first [apply appendOnly_captureSnapshot | apply appendOnly_newTimestamp].
Qed.

Lemma appendOnly_backupOrLog operation text target result connection :
  appendOnly (backupOrLog this operation text target result connection).
Proof. unfold backupOrLog. grow. apply appendOnly_createBackup. Qed.

Lemma appendOnly_handleQuery args : appendOnly (handleQuery this args).
Proof.
  unfold handleQuery. cbv zeta.
  grow; first [apply appendOnly_gate | apply appendOnly_createConnection
              | apply appendOnly_backupOrLog | apply appendOnly_createBackup].
Qed.

Lemma appendOnly_handleCreateTable args : appendOnly (handleCreateTable this args).
Proof.
  unfold handleCreateTable. cbv zeta.
  grow; first [apply appendOnly_createConnection | apply appendOnly_backupOrLog
              | apply appendOnly_createBackup].
Qed.

Lemma appendOnly_handleInsertData args : appendOnly (handleInsertData this args).
Proof.
  unfold handleInsertData. cbv zeta.
  grow; first [apply appendOnly_createConnection | apply appendOnly_backupOrLog
              | apply appendOnly_createBackup].
Qed.

Lemma appendOnly_restore args : appendOnly (handleRollbackToVersion this args).
Proof.
  unfold handleRollbackToVersion.
  grow; try apply appendOnly_createConnection; try apply appendOnly_newTimestamp;
    try (apply appendOnly_same, sameLedger_keeps, keeps_inverseAction).
Qed.

Lemma appendOnly_handler request :
  (forall a, request = mysql_clear_version_history a -> confirm a = false) ->
  appendOnly (toolHandler this request).
Proof.
  intros Hclear.
  destruct request as [a | a | a | a | a | a | a | a | a | a | a | a | a | a | n];
    cbn [toolHandler].
  - apply appendOnly_handleQuery.
  - unfold handleShowTables, firstColumn. grow. apply appendOnly_createConnection.
  - unfold handleDescribeTable, renderRows. grow. apply appendOnly_createConnection.
  - unfold handleShowDatabases, firstColumn. grow. apply appendOnly_createConnection.
  - unfold handleTableInfo, tableInfoParams. cbv zeta. grow.
    apply appendOnly_createConnection.
  - unfold handleShowIndexes, renderRows. grow. apply appendOnly_createConnection.
  - unfold handleShowProcesses, renderRows. grow. apply appendOnly_createConnection.
  - apply appendOnly_handleCreateTable.
  - apply appendOnly_handleInsertData.
  - unfold handleDatabaseSize, schemaParam, renderRows. cbv zeta. grow.
    apply appendOnly_createConnection.
  - unfold handleExplainQuery, planOf, renderRows. cbv zeta. grow.
    apply appendOnly_createConnection.
  - unfold handleListVersions. grow. intro w. apply grows_refl.
  - apply appendOnly_restore.
  - unfold handleClearVersionHistory. rewrite (Hclear a eq_refl). cbn [negb]. grow.
  - grow.
Qed.

Lemma serve_world request w :
  snd (serve this request w) = snd (toolHandler this request w).
Proof. unfold serve, callTool. now destruct (toolHandler this request w) as [[e | r] w']. Qed.

Lemma ledgerOk_kept sessionOnly l :
  ledgerOk l -> ledgerOk {| rows := keptRows this sessionOnly l; seq := seq l |}.
Proof.
  intros (Hnodup & Hall). unfold keptRows. destruct sessionOnly; cbn [rows seq].
  - split.
    + clear Hall. induction (rows l) as [| x rest IH]; cbn; [constructor |].
      inversion Hnodup as [| ? ? Hnotin Hrest]; subst.
      destruct (negb (session_id x =? sessionId this)%string); cbn; [| auto].
      constructor; [| auto].
      intros Hin. apply Hnotin. apply in_map_iff in Hin.
      destruct Hin as (r & Hid & Hin). apply filter_In in Hin.
      apply in_map_iff. exists r. tauto.
    + rewrite Forall_forall in *. intros r Hin. apply filter_In in Hin.
      apply Hall. tauto.
  - split; constructor.
Qed.

(** X3. History records are immutable: whatever tool is called, short of
    a confirmed clear, every version that could be looked up before the
    call can be looked up after it and is the same record. *)
Theorem history_records_are_immutable request w l version r :
  versionDB w = Some l ->
  getVersion l version = Some r ->
  (forall a, request = mysql_clear_version_history a -> confirm a = false) ->
  lookupVersion (snd (serve this request w)) version = Some r.
Proof.
  intros Hdb Hget Hclear. rewrite serve_world.
  pose proof (appendOnly_handler request Hclear w) as Hgrow.
  rewrite Hdb in Hgrow. unfold lookupVersion.
  destruct (versionDB (snd (toolHandler this request w))) as [l' |]; [| contradiction].
  eapply extends_getVersion; eassumption.
Qed.

(** X4. Version ids are never reused: after any tool call, a confirmed
    clear included, the ledger is still well formed (ids unique, none
    above the sequence), the sequence has not gone down, and every record
    in it is either a record that was there before or carries an id above
    the old sequence. *)
Theorem version_ids_are_never_reused request w l :
  versionDB w = Some l ->
  ledgerOk l ->
  exists l',
    versionDB (snd (serve this request w)) = Some l' /\
    ledgerOk l' /\
    seq l <= seq l' /\
    forall r, In r (rows l') -> In r (rows l) \/ seq l < id r.
Proof.
  intros Hdb Hok. rewrite serve_world.
  assert (forall a, request = mysql_clear_version_history a -> confirm a = false
          \/ confirm a = true) as Hcases by (intros a _; destruct (confirm a); auto).
  destruct request as [a | a | a | a | a | a | a | a | a | a | a | a | a | a | n];
    try (match goal with
         | |- context [toolHandler this ?req] =>
             pose proof (appendOnly_handler req ltac:(intros ? [=]) w) as Hgrow
         end;
         rewrite Hdb in Hgrow;
         destruct (versionDB (snd (toolHandler this _ w))) as [l' |]; [| contradiction];
         destruct Hgrow as ((added & Hrows & Hnew) & Hseq & Hkeep);
         exists l'; split; [reflexivity |]; split; [auto |]; split; [exact Hseq |];
         intros r Hin; rewrite Hrows in Hin; apply in_app_or in Hin;
         destruct Hin as [Hin | Hin]; [now left | right];
         rewrite Forall_forall in Hnew; now apply Hnew).
  cbn [toolHandler]. unfold handleClearVersionHistory.
  destruct (confirm a); cbn [negb].
  - unfold bind, getLedger. rewrite Hdb. cbn.
    eexists. split; [reflexivity |]. split; [now apply ledgerOk_kept |].
    split; [cbn; lia |].
    intros r Hin. left. cbn in Hin. unfold keptRows in Hin.
    destruct (sessionOnlyOf (clearSessionOnly a)); [| destruct Hin].
    apply filter_In in Hin. tauto.
  - cbn. exists l. split; [exact Hdb |]. split; [exact Hok |]. split; [lia | auto].
Qed.

End Growth.

(** ** The write path, step by step *)

Section Capture.
Context {H : Host}.
Variable this : Server.

Lemma keeps_captureSnapshot operation text target result connection :
  keepsStore (captureSnapshot operation text target result connection).
Proof.
  unfold captureSnapshot. cbv zeta.
  repeat first
    [ apply keeps_ret | apply keeps_throw | apply keeps_execute
    | apply keeps_bind; [| intros ?]
    | match goal with
      | |- keepsStore (match ?x with _ => _ end) => destruct x
      | |- keepsStore (if ?x then _ else _) => destruct x
      end ].
Qed.

(** With a write permission and an open store, [createBackup] is the
    capture followed by the write of one record. *)
Lemma createBackup_run operation text target result connection w l :
  canWrite this = true ->
  versionDB w = Some l ->
  createBackup this operation text target result connection w =
  match captureSnapshot operation text target result connection w with
  | (inl e, w1) => (inl e, snd (console_error ("Backup creation failed: " ++ e) w1))
  | (inr (backupData, affectedRows), w1) =>
      (inr (Some (stampAt w1, backupData, affectedRows)),
       recorded w1 l (backupVersion this operation text target backupData
                                    affectedRows (stampAt w1)))
  end.
Proof.
  intros Hperm Hdb. unfold createBackup.
  assert (negb (allowInsert (permissions this)) && negb (allowUpdate (permissions this))
          && negb (allowDelete (permissions this)) = false) as ->.
  { unfold canWrite in Hperm.
    destruct (allowInsert (permissions this)), (allowUpdate (permissions this)),
      (allowDelete (permissions this)); try reflexivity; discriminate. }
  unfold tryCatch at 1, bind at 1.
  pose proof (keeps_captureSnapshot operation text target result connection w)
    as (Hv & _ & _).
  destruct (captureSnapshot operation text target result connection w)
    as [[e | [backupData affectedRows]] w1]; cbn [snd fst] in *.
  - reflexivity.
  - unfold newTimestamp, readClock, bind. cbn [ret fst snd].
    rewrite (saveVersion_run _ _ l); [reflexivity | cbn; congruence].
Qed.

End Capture.

(** ** A write followed by its restore *)

Section Compose.
Context {H : Host}.
Variable this : Server.

Lemma canWrite_insert : allowInsert (permissions this) = true -> canWrite this = true.
Proof. unfold canWrite. now intros ->. Qed.

(** What a restore sends is what its inverse action sends. *)
Lemma restore_sends args w ledger v b :
  versionDB w = Some ledger ->
  getVersion ledger (version_id args) = Some v ->
  backup_data v = Some b ->
  connects this (rollbackConfig args) ->
  issued (snd (handleRollbackToVersion this args w)) = issued (snd (inverseAction v b w))
  /\ db (snd (handleRollbackToVersion this args w)) = db (snd (inverseAction v b w)).
Proof.
  intros Hdb Hget Hb Hconn.
  rewrite (restore_run this args w ledger v b Hdb Hget Hb Hconn).
  destruct (inverseAction v b w) as [[e | result] w1]; split; reflexivity.
Qed.

Lemma handleInsertData_run args w l affected insert_id after :
  allowInsert (permissions this) = true ->
  connects this (insertConfig args) ->
  versionDB w = Some l ->
  mysql_execute (insertSQLOf (Some (table args)) (insertData args))
                (map snd (insertData args)) (db w)
    = inr (ResultSetHeader affected insert_id, after) ->
  let text := insertSQLOf (Some (table args)) (insertData args) in
  let sent := snd (execute text (map snd (insertData args)) w) in
  snd (handleInsertData this args w) =
  recorded sent l
    (backupVersion this INSERT text (Some (table args))
       (Some (fst (insertInfo (newBackupInfo INSERT text) (Some (table args))
                              (ResultSetHeader affected insert_id))))
       (Some affected) (stampAt sent)).
Proof.
  intros Hperm Hconn Hdb Hexec text sent.
  unfold handleInsertData. rewrite Hperm. cbn [negb]. unfold bind at 1.
  rewrite Hconn. cbn [ret]. cbv zeta.
  change ("INSERT INTO " ++ table args ++ " (" ++ join ", " (map fst (insertData args))
          ++ ") VALUES (" ++ join ", " (map (fun _ => "?") (map fst (insertData args)))
          ++ ")")%string with text.
  unfold bind at 1.
  assert (execute text (map snd (insertData args)) w
          = (inr (ResultSetHeader affected insert_id), sent)) as Hsent.
  { subst sent. unfold execute. fold text in Hexec. rewrite Hexec. reflexivity. }
  rewrite Hsent. unfold bind at 1, backupOrLog, tryCatch at 1, bind at 1.
  rewrite (createBackup_run this INSERT text (Some (table args)) _ _ sent l
             (canWrite_insert Hperm)).
  - reflexivity.
  - subst sent. unfold execute. fold text in Hexec. rewrite Hexec. exact Hdb.
Qed.

(** X5. An insert can be taken back: after handleInsertData has inserted
    rows and MySQL reported the generated identity, with the identity
    plus the affected-row count not above 2^53 so that the arithmetic of
    the language is exact, restoring the version it recorded sends
    exactly one statement, the DELETE of that identity (of the range of
    identities when several rows were inserted). *)
Theorem inserted_rows_are_deleted_by_restore args cfg w l affected insert_id after :
  allowInsert (permissions this) = true ->
  connects this (insertConfig args) ->
  connects this cfg ->
  versionDB w = Some l ->
  ledgerOk l ->
  mysql_execute (insertSQLOf (Some (table args)) (insertData args))
                (map snd (insertData args)) (db w)
    = inr (ResultSetHeader affected insert_id, after) ->
  0 < insert_id ->
  0 <= affected ->
  insert_id + affected <= 2 ^ 53 ->
  let w1 := snd (handleInsertData this args w) in
  let w2 := snd (handleRollbackToVersion this
                   {| version_id := seq l + 1; rollbackConfig := cfg |} w1) in
  exists sent,
    issued w2 = (issued w1 ++ [sent])%list /\
    sql sent = (if (affected =? 1)%Z
                then "DELETE FROM " ++ table args ++ " WHERE id = ?"
                else "DELETE FROM " ++ table args ++ " WHERE id BETWEEN ? AND ?")%string /\
    params sent = (if affected =? 1 then [VNum insert_id]
                   else [VNum insert_id; VNum (insert_id + affected - 1)]).
Proof.
  intros Hperm Hconn Hconn' Hdb Hok Hexec Hpos Ha Hsafe w1 w2.
  assert (insert_id <> 0) as Hid by lia.
  pose proof (idRange_end_exact insert_id affected ltac:(lia) Ha Hsafe) as Hend.
  pose proof (handleInsertData_run args w l affected insert_id after
                Hperm Hconn Hdb Hexec) as Hrun.
  cbv zeta in Hrun. fold w1 in Hrun.
  set (text := insertSQLOf (Some (table args)) (insertData args)) in *.
  set (vi := backupVersion this INSERT text (Some (table args)) _ _ _) in Hrun.
  assert (versionDB w1 = Some (saved l vi)) as Hdb1 by (rewrite Hrun; reflexivity).
  destruct (restore_sends {| version_id := seq l + 1; rollbackConfig := cfg |}
              w1 (saved l vi) (storedRecord l vi)
              (fst (insertInfo (newBackupInfo INSERT text) (Some (table args))
                               (ResultSetHeader affected insert_id)))
              Hdb1 (getVersion_saved l vi Hok) eq_refl Hconn') as (Hsent & _).
  fold w2 in Hsent. rewrite Hsent.
  unfold inverseAction. cbn [storedRecord operation_type vi backupVersion
                             vi_operationType insertInfo fst idRange target_table
                             vi_targetTable showTable].
  apply Z.eqb_neq in Hid. rewrite Hid. cbn [negb]. rewrite Hend.
  destruct (Z.eqb_spec affected 1) as [-> | Hmany].
  - replace (insert_id + 1 - 1) with insert_id by lia. rewrite Z.eqb_refl.
    unfold bind, execute.
    destruct (mysql_execute _ _ (db w1)) as [e | [r d]]; cbn;
      eexists; split; reflexivity || (split; reflexivity).
  - destruct (Z.eqb_spec insert_id (insert_id + affected - 1)) as [Heq | _]; [lia |].
    unfold bind, execute.
    destruct (mysql_execute _ _ (db w1)) as [e | [r d]]; cbn;
      eexists; split; reflexivity || (split; reflexivity).
Qed.

Lemma handleCreateTable_run args w l result after :
  allowInsert (permissions this) = true ->
  connects this (createConfig args) ->
  versionDB w = Some l ->
  mysql_execute ("CREATE TABLE " ++ table_name args ++ " " ++ schema args) [] (db w)
    = inr (result, after) ->
  let text := ("CREATE TABLE " ++ table_name args ++ " " ++ schema args)%string in
  let sent := snd (execute text [] w) in
  exists b,
    tableName b = Some (Some (table_name args)) /\ createQuery b = Some text /\
    snd (handleCreateTable this args w) =
    recorded sent l
      (backupVersion this CREATE_TABLE text (Some (table_name args)) (Some b) (Some 0)
                     (stampAt sent)).
Proof.
  intros Hperm Hconn Hdb Hexec text sent.
  unfold handleCreateTable. rewrite Hperm. cbn [negb]. unfold bind at 1.
  rewrite Hconn. cbn [ret]. cbv zeta. fold text. unfold bind at 1.
  assert (execute text [] w = (inr result, sent)) as Hsent.
  { subst sent. unfold execute. fold text in Hexec. rewrite Hexec. reflexivity. }
  rewrite Hsent. unfold bind at 1, backupOrLog, tryCatch at 1, bind at 1.
  rewrite (createBackup_run this CREATE_TABLE text (Some (table_name args)) _ _ sent l
             (canWrite_insert Hperm)).
  - eexists. split; [| split]; [| | reflexivity]; reflexivity.
  - subst sent. unfold execute. fold text in Hexec. rewrite Hexec. exact Hdb.
Qed.

(** X6. A created table can be taken back: after handleCreateTable has
    created a table, restoring the version it recorded sends exactly one
    statement, DROP TABLE IF EXISTS of that table. *)
Theorem created_table_is_dropped_by_restore args cfg w l result after :
  allowInsert (permissions this) = true ->
  connects this (createConfig args) ->
  connects this cfg ->
  versionDB w = Some l ->
  ledgerOk l ->
  mysql_execute ("CREATE TABLE " ++ table_name args ++ " " ++ schema args) [] (db w)
    = inr (result, after) ->
  let w1 := snd (handleCreateTable this args w) in
  let w2 := snd (handleRollbackToVersion this
                   {| version_id := seq l + 1; rollbackConfig := cfg |} w1) in
  exists outcome,
    issued w2 = (issued w1 ++ [{| sql := "DROP TABLE IF EXISTS " ++ table_name args;
                                  params := []; completed := outcome |}])%list.
Proof.
  intros Hperm Hconn Hconn' Hdb Hok Hexec w1 w2.
  destruct (handleCreateTable_run args w l result after Hperm Hconn Hdb Hexec)
    as (b & _ & _ & Hrun).
  fold w1 in Hrun.
  set (vi := backupVersion this CREATE_TABLE _ _ _ _ _) in Hrun.
  assert (versionDB w1 = Some (saved l vi)) as Hdb1 by (rewrite Hrun; reflexivity).
  destruct (restore_sends {| version_id := seq l + 1; rollbackConfig := cfg |}
              w1 (saved l vi) (storedRecord l vi) b
              Hdb1 (getVersion_saved l vi Hok) eq_refl Hconn') as (Hsent & _).
  fold w2 in Hsent. rewrite Hsent.
  unfold inverseAction. cbn [storedRecord operation_type vi backupVersion
                             vi_operationType target_table vi_targetTable showTable].
  unfold bind, execute.
  destruct (mysql_execute _ _ (db w1)) as [e | [r d]]; cbn; eexists; reflexivity.
Qed.

(** X7. A rollback cannot itself be rolled back: once a restore has
    succeeded, a restore of the marker it appended is refused with the
    report that the version has no backup data, and changes nothing. *)
Theorem rollback_marker_cannot_be_restored args cfg w l v b result w1 :
  versionDB w = Some l ->
  ledgerOk l ->
  getVersion l (version_id args) = Some v ->
  backup_data v = Some b ->
  connects this (rollbackConfig args) ->
  inverseAction v b w = (inr result, w1) ->
  let w2 := snd (handleRollbackToVersion this args w) in
  handleRollbackToVersion this {| version_id := seq l + 1; rollbackConfig := cfg |} w2
  = (inr (failure ("Version " ++ ofZ (seq l + 1) ++ " has no backup data to restore.")),
     w2).
Proof.
  intros Hdb Hok Hget Hb Hconn Hrun w2. subst w2.
  rewrite (restore_run this args w l v b Hdb Hget Hb Hconn), Hrun. cbn [snd].
  unfold handleRollbackToVersion, tryCatch, bind, getLedger.
  cbn [marked versionDB version_id].
  unfold getVersion at 1. cbn [rows].
  rewrite find_app_right.
  - cbn. rewrite Z.eqb_refl. reflexivity.
  - apply (getVersion_fresh l); [apply Hok | lia].
Qed.

End Compose.

(** ** The permission gate and the statement that follows it *)

Section QueryPath.
Context {H : Host} {Lang : Builtins}.
Variable this : Server.

Lemma gate_outcome text w :
  let n := toUpperCase (trim text) in
  let deleting := startsWith n "DELETE" || includes n "DROP TABLE"
                  || includes n "DROP DATABASE" || includes n "TRUNCATE" in
  let updating := startsWith n "UPDATE" || includes n "ALTER TABLE"
                  || includes n "MODIFY COLUMN" || includes n "ADD COLUMN"
                  || includes n "DROP COLUMN" in
  let inserting := startsWith n "INSERT" || includes n "CREATE TABLE"
                   || includes n "CREATE DATABASE" || includes n "CREATE INDEX" in
  checkQueryPermissions this text w =
  if deleting && negb (allowDelete (permissions this))
  then (inl "DELETE operations are not allowed. Set ALLOW_DELETE_OPERATION=true to enable.", w)
  else if updating && negb (allowUpdate (permissions this))
  then (inl "UPDATE operations are not allowed. Set ALLOW_UPDATE_OPERATION=true to enable.", w)
  else if inserting && negb (allowInsert (permissions this))
  then (inl "INSERT operations are not allowed. Set ALLOW_INSERT_OPERATION=true to enable.", w)
  else (inr true, w).
Proof.
  cbv zeta. unfold checkQueryPermissions. cbv zeta.
  destruct (_ && negb (allowDelete _)); [reflexivity |].
  destruct (_ && negb (allowUpdate _)); [reflexivity |].
  destruct (_ && negb (allowInsert _)); reflexivity.
Qed.

Lemma gate_authorises text operation w :
  checkQueryPermissions this text w = (inr true, w) ->
  operationTypeOf text = Some operation ->
  permissionFor this operation = true /\ canWrite this = true.
Proof.
  rewrite gate_outcome. cbv zeta. unfold operationTypeOf, permissionFor, canWrite.
  set (n := toUpperCase (trim text)).
  destruct (startsWith n "DELETE"), (includes n "TRUNCATE"),
    (startsWith n "UPDATE"), (startsWith n "INSERT"), (includes n "DROP TABLE"),
    (includes n "DROP DATABASE"),
    (allowDelete (permissions this)), (allowUpdate (permissions this)),
    (allowInsert (permissions this));
    cbn [orb andb negb];
    repeat match goal with
           | |- context [if ?c then _ else _] => destruct c
           end;
    intros Hpass Hkind; try discriminate Hpass; try discriminate Hkind;
    injection Hkind as <-; split; reflexivity.
Qed.

(** X8. A statement that passes the gate and is given a kind by the
    classifier was authorised by the permission of that kind (deletes for
    DELETE and DROP_TABLE, updates for UPDATE, inserts for INSERT): the
    capture of handleQuery never runs with every write permission off. *)
Theorem classified_statement_is_authorised text operation w :
  checkQueryPermissions this text w = (inr true, w) ->
  operationTypeOf text = Some operation ->
  permissionFor this operation = true /\ canWrite this = true.
Proof. apply gate_authorises. Qed.

(** X9. With deletes disabled, a statement that starts with DELETE or
    contains DROP TABLE, DROP DATABASE or TRUNCATE is answered with the
    error that DELETE operations are not allowed, and nothing else
    happens: no connection is opened, no statement reaches MySQL and no
    history record is written. *)
Theorem delete_is_refused_without_permission args w :
  allowDelete (permissions this) = false ->
  (let n := toUpperCase (trim (query args)) in
   startsWith n "DELETE" || includes n "DROP TABLE"
   || includes n "DROP DATABASE" || includes n "TRUNCATE") = true ->
  serve this (mysql_query args) w =
  (failure "Error: DELETE operations are not allowed. Set ALLOW_DELETE_OPERATION=true to enable.",
   w).
Proof.
  intros Hoff Hclass. cbv zeta in Hclass.
  unfold serve, callTool, toolHandler, handleQuery, bind at 1.
  rewrite gate_outcome. cbv zeta. rewrite Hclass, Hoff. reflexivity.
Qed.

Lemma backupOrLog_returns operation text target result connection w :
  fst (backupOrLog this operation text target result connection w) = inr tt.
Proof.
  unfold backupOrLog, tryCatch, bind.
  destruct (createBackup this operation text target result (Some connection) w)
    as [[e | r] w1]; reflexivity.
Qed.

(** [handleQuery] on a statement of a kind that is captured first. *)
Lemma handleQuery_before_run args w operation :
  permitted this (query args) ->
  connects this (queryConfig args) ->
  operationTypeOf (query args) = Some operation ->
  capturedBefore operation ->
  present (extractTableFromQuery (query args)) = true ->
  handleQuery this args w =
  match execute (query args) []
                (snd (backupOrLog this operation (query args)
                        (extractTableFromQuery (query args)) None Conn w)) with
  | (inl e, w2) => (inl e, w2)
  | (inr rows, w2) => (inr (ok (queryReport rows)), w2)
  end.
Proof.
  intros Hperm Hconn Hop Hkind Htable.
  unfold handleQuery, bind. rewrite Hperm. cbn [ret]. rewrite Hconn. cbn [ret].
  rewrite Hop.
  assert ((Operation_eqb operation DELETE || Operation_eqb operation UPDATE
           || Operation_eqb operation DROP_TABLE) = true) as ->
      by (destruct Hkind as [-> | [-> | ->]]; reflexivity).
  rewrite Htable. cbn [andb].
  pose proof (backupOrLog_returns operation (query args)
                (extractTableFromQuery (query args)) None Conn w) as Hret.
  destruct (backupOrLog this operation (query args)
              (extractTableFromQuery (query args)) None Conn w) as [[e | []] w1];
    [discriminate Hret |]. cbn [snd].
  destruct (execute (query args) [] w1) as [[e | rows] w2]; [reflexivity |].
  destruct Hkind as [-> | [-> | ->]];
    destruct rows as [[| r rs] | affected insert_id]; reflexivity.
Qed.

(** X10. The history record is written before the statement runs, and it
    stays whatever the statement does: once the capture of a DELETE,
    UPDATE or DROP TABLE has succeeded, the ledger holds the new record
    with the captured payload, also when MySQL then rejects the statement
    and handleQuery raises its error. *)
Theorem history_record_precedes_the_write args w operation l backupData affected w1 :
  permitted this (query args) ->
  connects this (queryConfig args) ->
  operationTypeOf (query args) = Some operation ->
  capturedBefore operation ->
  present (extractTableFromQuery (query args)) = true ->
  versionDB w = Some l ->
  captureSnapshot operation (query args) (extractTableFromQuery (query args))
                  None (Some Conn) w = (inr (backupData, affected), w1) ->
  let run := handleQuery this args w in
  let written := storedRecord l
                   (backupVersion this operation (query args)
                      (extractTableFromQuery (query args)) backupData affected
                      (stampAt w1)) in
  versionDB (snd run) = Some {| rows := rows l ++ [written]; seq := seq l + 1 |} /\
  backup_data written = backupData /\
  match mysql_execute (query args) [] (db w1) with
  | inr (rows, after) =>
      fst run = inr (ok (queryReport rows)) /\ db (snd run) = after /\
      issued (snd run) =
        (issued w1 ++ [{| sql := query args; params := []; completed := true |}])%list
  | inl e =>
      fst run = inl e /\ db (snd run) = db w1 /\
      issued (snd run) =
        (issued w1 ++ [{| sql := query args; params := []; completed := false |}])%list
  end.
Proof.
  intros Hperm Hconn Hop Hkind Htable Hdb Hcap run written. subst run.
  rewrite (handleQuery_before_run args w operation Hperm Hconn Hop Hkind Htable).
  assert (canWrite this = true) as Hwrite.
  { eapply (gate_authorises (query args) operation w); [| exact Hop].
    rewrite Hperm. reflexivity. }
  unfold backupOrLog, tryCatch, bind.
  rewrite (createBackup_run this operation (query args) _ None (Some Conn) w l Hwrite Hdb).
  rewrite Hcap. cbn [snd ret]. unfold execute. cbn [db issued recorded].
  destruct (mysql_execute (query args) [] (db w1)) as [e | [rows after]]; cbn;
    repeat split; reflexivity.
Qed.

(** X11. A statement to which the classifier gives no kind, or whose
    table it cannot find, is run as it is: handleQuery sends that one
    statement, takes no snapshot and writes no history record. *)
Theorem unclassified_statement_is_not_recorded args w :
  permitted this (query args) ->
  connects this (queryConfig args) ->
  operationTypeOf (query args) = None \/
  present (extractTableFromQuery (query args)) = false ->
  handleQuery this args w =
  match execute (query args) [] w with
  | (inl e, w1) => (inl e, w1)
  | (inr rows, w1) => (inr (ok (queryReport rows)), w1)
  end /\
  versionDB (snd (handleQuery this args w)) = versionDB w /\
  exists outcome,
    issued (snd (handleQuery this args w)) =
    (issued w ++ [{| sql := query args; params := []; completed := outcome |}])%list.
Proof.
  intros Hperm Hconn Hnone.
  assert (handleQuery this args w =
          match execute (query args) [] w with
          | (inl e, w1) => (inl e, w1)
          | (inr rows, w1) => (inr (ok (queryReport rows)), w1)
          end) as Hrun.
  { unfold handleQuery, bind. rewrite Hperm. cbn [ret]. rewrite Hconn. cbn [ret].
    destruct Hnone as [Hop | Htable].
    - rewrite Hop. cbn [ret].
      destruct (execute (query args) [] w) as [[e | rows] w1]; [reflexivity |].
      destruct rows as [[| r rs] | affected insert_id]; reflexivity.
    - rewrite Htable.
      destruct (operationTypeOf (query args)) as [operation |].
      + rewrite andb_false_r. cbn [ret].
        destruct (execute (query args) [] w) as [[e | rows] w1]; [reflexivity |].
        destruct operation, rows as [[| r rs] | affected insert_id]; reflexivity.
      + cbn [ret].
        destruct (execute (query args) [] w) as [[e | rows] w1]; [reflexivity |].
        destruct rows as [[| r rs] | affected insert_id]; reflexivity. }
  split; [exact Hrun |]. rewrite Hrun. unfold execute.
  destruct (mysql_execute (query args) [] (db w)) as [e | [rows after]]; cbn;
    (split; [reflexivity | eexists; reflexivity]).
Qed.

(** X21. An INSERT sent through handleQuery is recorded after it ran,
    and only when it succeeded: if MySQL rejects the statement the error
    is raised and the ledger is as it was; if it returns a result header,
    one record is appended whose payload holds no id range when no
    identity was generated, and the id range from the identity to the
    identity plus the affected-row count minus one when that sum is not
    above 2^53, so that the arithmetic of the language is exact; if it
    returns rows, nothing is recorded. *)
Theorem query_insert_is_recorded_after_it_ran args w l :
  permitted this (query args) ->
  connects this (queryConfig args) ->
  operationTypeOf (query args) = Some INSERT ->
  present (extractTableFromQuery (query args)) = true ->
  versionDB w = Some l ->
  let run := handleQuery this args w in
  match mysql_execute (query args) [] (db w) with
  | inl e => fst run = inl e /\ versionDB (snd run) = Some l
  | inr (RowSet found, after) =>
      fst run = inr (ok (queryReport (RowSet found))) /\ versionDB (snd run) = Some l
  | inr (ResultSetHeader affected insert_id, after) =>
      fst run = inr (ok (queryReport (ResultSetHeader affected insert_id))) /\
      exists written b,
        versionDB (snd run) = Some {| rows := rows l ++ [written]; seq := seq l + 1 |} /\
        operation_type written = INSERT /\
        backup_data written = Some b /\
        (insert_id = 0 -> idRange b = None) /\
        (0 < insert_id -> 0 <= affected -> insert_id + affected <= 2 ^ 53 ->
         idRange b = Some (insert_id, insert_id + affected - 1)) /\
        db (snd run) = after
  end.
Proof.
  intros Hperm Hconn Hop Htable Hdb run. subst run.
  assert (canWrite this = true) as Hwrite.
  { eapply (gate_authorises (query args) INSERT w); [| exact Hop].
    rewrite Hperm. reflexivity. }
  assert (handleQuery this args w =
          match execute (query args) [] w with
          | (inl e, w1) => (inl e, w1)
          | (inr found, w1) =>
              (inr (ok (queryReport found)),
               match found with
               | ResultSetHeader _ _ =>
                   snd (backupOrLog this INSERT (query args)
                          (extractTableFromQuery (query args)) (Some found) Conn w1)
               | RowSet _ => w1
               end)
          end) as ->.
  { unfold handleQuery, bind. rewrite Hperm. cbn [ret]. rewrite Hconn. cbn [ret].
    rewrite Hop, Htable. cbn [Operation_eqb orb andb ret].
    destruct (execute (query args) [] w) as [[e | found] w1]; [reflexivity |].
    destruct found as [[| r rs] | affected insert_id]; try reflexivity.
    pose proof (backupOrLog_returns INSERT (query args)
                  (extractTableFromQuery (query args))
                  (Some (ResultSetHeader affected insert_id)) Conn w1) as Hret.
    destruct (backupOrLog this INSERT (query args) _ _ Conn w1) as [[e | []] w2];
      [discriminate Hret | reflexivity]. }
  unfold execute.
  destruct (mysql_execute (query args) [] (db w))
    as [e | [[found | affected insert_id] after]].
  - split; [reflexivity | exact Hdb].
  - split; [reflexivity | exact Hdb].
  - split; [reflexivity |].
    unfold backupOrLog, tryCatch, bind.
    rewrite (createBackup_run this INSERT (query args) _ _ (Some Conn) _ l Hwrite);
      [| exact Hdb].
    cbn [captureSnapshot Operation_eqb andb orb ret insertInfo fst snd].
    eexists; eexists. split; [reflexivity |].
    cbn [storedRecord backupVersion operation_type backup_data vi_operationType
         vi_backupData idRange newBackupInfo recorded db].
    split; [reflexivity |]. split; [reflexivity |].
    split; [intros ->; reflexivity |]. split; [| reflexivity].
    intros Hpos Ha Hsafe.
    rewrite (idRange_end_exact insert_id affected ltac:(lia) Ha Hsafe).
    destruct (Z.eqb_spec insert_id 0); [lia | reflexivity].
Qed.

End QueryPath.

(** ** Restoring deleted rows and dropped tables *)

Section RestoreRows.
Context {H : Host}.
Variable this : Server.

Lemma reinsertRow_sent target row w w' :
  reinsertRow target row w = (inr tt, w') ->
  issued w' = (issued w ++ [reinserting target row])%list.
Proof.
  unfold reinsertRow, reinserting, bind, liftE.
  destruct (mapE normalizeValue (map snd row)) as [e | values]; cbn [throw ret].
  - discriminate.
  - unfold execute.
    destruct (mysql_execute _ _ (db w)) as [e | [r d]]; [discriminate |].
    cbn. intros [= <-]. reflexivity.
Qed.

Lemma reinsertRow_failed target row w e w' :
  reinsertRow target row w = (inl e, w') ->
  exists tail,
    issued w' = (issued w ++ tail)%list /\
    (tail = [] \/
     exists values, tail = [{| sql := insertSQLOf target row; params := values;
                               completed := false |}]).
Proof.
  unfold reinsertRow, bind, liftE.
  destruct (mapE normalizeValue (map snd row)) as [e' | values]; cbn [throw ret].
  - intros [= _ <-]. exists []. split; [now rewrite app_nil_r | now left].
  - unfold execute.
    destruct (mysql_execute _ _ (db w)) as [e' | [r d]]; [| discriminate].
    cbn. intros [= _ <-]. eexists. split; [reflexivity |]. right. eexists. reflexivity.
Qed.

Lemma forEach_reinsert_sent target rows : forall w w',
  forEach rows (reinsertRow target) w = (inr tt, w') ->
  issued w' = (issued w ++ map (reinserting target) rows)%list.
Proof.
  induction rows as [| row rest IH]; intros w w'; cbn [forEach map].
  - cbn. intros [= <-]. now rewrite app_nil_r.
  - unfold bind.
    destruct (reinsertRow target row w) as [[e | []] w1] eqn:Hrow; [discriminate |].
    intros Hrest. apply IH in Hrest. apply reinsertRow_sent in Hrow.
    rewrite Hrest, Hrow, <- app_assoc. reflexivity.
Qed.

Lemma forEach_reinsert_failed target rows : forall w e w',
  forEach rows (reinsertRow target) w = (inl e, w') ->
  exists done row rest tail,
    rows = (done ++ row :: rest)%list /\
    issued w' = (issued w ++ map (reinserting target) done ++ tail)%list /\
    (tail = [] \/
     exists values, tail = [{| sql := insertSQLOf target row; params := values;
                               completed := false |}]).
Proof.
  induction rows as [| row rest IH]; intros w e w'; cbn [forEach].
  - discriminate.
  - unfold bind.
    destruct (reinsertRow target row w) as [[e1 | []] w1] eqn:Hrow.
    + intros [= <- <-]. apply reinsertRow_failed in Hrow.
      destruct Hrow as (tail & Hsent & Htail).
      exists [], row, rest, tail. repeat split; assumption.
    + intros Hrest. apply IH in Hrest.
      destruct Hrest as (done & bad & rest' & tail & -> & Hsent & Htail).
      apply reinsertRow_sent in Hrow.
      exists (row :: done), bad, rest', tail. split; [reflexivity |].
      split; [| exact Htail].
      rewrite Hsent, Hrow. cbn [map]. now rewrite <- !app_assoc.
Qed.

Lemma inverse_delete_sent v b rows w result w' :
  operation_type v = DELETE ->
  deletedRows b = Some (RowSet rows) ->
  inverseAction v b w = (inr result, w') ->
  issued w' = (issued w ++ map (reinserting (target_table v)) rows)%list.
Proof.
  intros Hop Hrows. unfold inverseAction. rewrite Hop, Hrows.
  destruct rows as [| r rs].
  - cbn. intros [= _ <-]. now rewrite app_nil_r.
  - unfold bind at 1.
    destruct (forEach (r :: rs) (reinsertRow (target_table v)) w)
      as [[e | []] w1] eqn:Hloop; [discriminate |].
    cbn [ret]. intros [= _ <-].
    exact (forEach_reinsert_sent _ _ _ _ Hloop).
Qed.

(** X12. When the restore of a DELETE record runs to its end, it has
    sent exactly one INSERT per row image of deletedRows, in their order,
    each naming the columns of the row image and binding its cells. *)
Theorem restore_delete_statements v b rows w result w' :
  operation_type v = DELETE ->
  deletedRows b = Some (RowSet rows) ->
  inverseAction v b w = (inr result, w') ->
  issued w' = (issued w ++ map (reinserting (target_table v)) rows)%list.
Proof. apply inverse_delete_sent. Qed.

(** X13. A restore is not atomic. When the restore of a DELETE record
    reports an error, the rows before the failing one were re-inserted by
    statements that completed and stay so, the failing row accounts for at
    most one statement, which did not complete, the rows after it were
    never tried, and the ledger is as it was. *)
Theorem restore_delete_stops_at_first_failure args w l v b rows report w' :
  versionDB w = Some l ->
  getVersion l (version_id args) = Some v ->
  backup_data v = Some b ->
  connects this (rollbackConfig args) ->
  operation_type v = DELETE ->
  deletedRows b = Some (RowSet rows) ->
  handleRollbackToVersion this args w = (inr report, w') ->
  isError report = true ->
  exists done row rest tail,
    rows = (done ++ row :: rest)%list /\
    issued w' = (issued w ++ map (reinserting (target_table v)) done ++ tail)%list /\
    (tail = [] \/
     exists values, tail = [{| sql := insertSQLOf (target_table v) row;
                               params := values; completed := false |}]) /\
    versionDB w' = versionDB w.
Proof.
  intros Hdb Hget Hb Hconn Hop Hrows.
  rewrite (restore_run this args w l v b Hdb Hget Hb Hconn).
  pose proof (keeps_inverseAction v b w) as (Hv & _).
  destruct (inverseAction v b w) as [[e | result] w1] eqn:Hrun;
    intros [= <- <-]; [intros _ | discriminate].
  cbn [snd] in Hv. unfold inverseAction in Hrun. rewrite Hop, Hrows in Hrun.
  destruct rows as [| r rs]; [discriminate Hrun |].
  unfold bind at 1 in Hrun.
  destruct (forEach (r :: rs) (reinsertRow (target_table v)) w)
    as [[e' | []] w2] eqn:Hloop; [| discriminate Hrun].
  injection Hrun as <- <-.
  apply forEach_reinsert_failed in Hloop.
  destruct Hloop as (done & row & rest & tail & Hsplit & Hsent & Htail).
  exists done, row, rest, tail. repeat split; assumption.
Qed.

(** X14. When the restore of a DROP TABLE record runs to its end, it has
    first sent the stored CREATE TABLE statement and then one INSERT per
    row image of the stored data, in their order, and nothing else. *)
Theorem restore_dropped_table_statements v b tableStructure createTableSQL rows
        w result w' :
  operation_type v = DROP_TABLE ->
  structure b = Some tableStructure ->
  field "Create Table" tableStructure = Some (VStr createTableSQL) ->
  data b = Some (RowSet rows) ->
  inverseAction v b w = (inr result, w') ->
  issued w' =
  (issued w ++ {| sql := createTableSQL; params := []; completed := true |}
            :: map (reinserting (target_table v)) rows)%list.
Proof.
  intros Hop Hst Hsql Hdata. unfold inverseAction. rewrite Hop, Hst, Hdata, Hsql.
  unfold bind at 1, bind at 1, execute at 1.
  destruct (mysql_execute createTableSQL [] (db w)) as [e | [r d]]; [discriminate |].
  cbn [ret]. unfold bind at 1.
  destruct rows as [| row rest].
  - cbn. intros [= _ <-]. reflexivity.
  - destruct (forEach (row :: rest) (reinsertRow (target_table v)) _)
      as [[e | []] w1] eqn:Hloop; [discriminate |].
    cbn [ret]. intros [= _ <-].
    apply forEach_reinsert_sent in Hloop. rewrite Hloop. cbn [issued].
    now rewrite <- app_assoc.
Qed.

Lemma inverse_update_sent v b rows w result w' :
  operation_type v = UPDATE ->
  originalRows b = Some (RowSet rows) ->
  inverseAction v b w = (inr result, w') ->
  issued w' =
  (issued w ++ map (restoringUpdate (target_table v)) (filter hasId rows))%list.
Proof.
  intros Hop Hrows. unfold inverseAction. rewrite Hop, Hrows.
  destruct rows as [| r rs].
  - cbn. intros [= _ <-]. now rewrite app_nil_r.
  - unfold bind at 1.
    destruct (forEach (r :: rs) (restoreRow (target_table v)) w)
      as [[e | []] w1] eqn:Hloop; [discriminate |].
    cbn [ret]. intros [= _ <-].
    exact (forEach_restoreRow_sent _ _ _ _ Hloop).
Qed.

(** The snapshot of a DELETE or UPDATE for which a select was derived. *)
Lemma capture_rows operation text target w found after :
  operation = DELETE \/ operation = UPDATE ->
  backupQueryOf text target <> EmptyString ->
  mysql_execute (backupQueryOf text target) [] (db w) = inr (found, after) ->
  captureSnapshot operation text target None (Some Conn) w =
  (inr (Some (rowsPayload operation text found), lengthOf found),
   snd (execute (backupQueryOf text target) [] w)).
Proof.
  intros Hop Hsel Hexec. unfold captureSnapshot. cbv zeta.
  assert ((Operation_eqb operation DELETE || Operation_eqb operation UPDATE) = true) as ->
      by (destruct Hop as [-> | ->]; reflexivity).
  cbn [andb].
  destruct (String.eqb_spec (backupQueryOf text target) "") as [| _]; [contradiction |].
  cbn [negb]. unfold bind, execute. rewrite Hexec. cbn [ret snd].
  unfold rowsPayload. destruct Hop as [-> | ->]; reflexivity.
Qed.

(** The ledger after [handleQuery] has captured a DELETE or UPDATE. *)
Lemma captured_query_ledger args w operation l found after :
  permitted this (query args) ->
  connects this (queryConfig args) ->
  operationTypeOf (query args) = Some operation ->
  operation = DELETE \/ operation = UPDATE ->
  present (extractTableFromQuery (query args)) = true ->
  canWrite this = true ->
  versionDB w = Some l ->
  backupQueryOf (query args) (extractTableFromQuery (query args)) <> EmptyString ->
  mysql_execute (backupQueryOf (query args) (extractTableFromQuery (query args))) []
                (db w) = inr (found, after) ->
  exists stamp,
    versionDB (snd (handleQuery this args w)) =
    Some (saved l (backupVersion this operation (query args)
                     (extractTableFromQuery (query args))
                     (Some (rowsPayload operation (query args) found))
                     (lengthOf found) stamp)).
Proof.
  intros Hperm Hconn Hop Hkind Htable Hwrite Hdb Hsel Hexec.
  assert (capturedBefore operation) as Hbefore
      by (destruct Hkind as [-> | ->]; [left | right; left]; reflexivity).
  rewrite (handleQuery_before_run this args w operation Hperm Hconn Hop Hbefore Htable).
  unfold backupOrLog, tryCatch, bind at 1.
  rewrite (createBackup_run this operation (query args) _ None (Some Conn) w l Hwrite Hdb).
  rewrite (capture_rows operation (query args) _ w found after Hkind Hsel Hexec).
  cbn [ret snd]. eexists.
  unfold execute at 1. cbn [db recorded].
  destruct (mysql_execute (query args) [] _) as [e | [r d]]; reflexivity.
Qed.

(** X22. A DELETE can be taken back: once handleQuery has captured a
    DELETE, whether or not the DELETE itself then succeeded, a restore of
    the recorded version that runs to its end has sent one INSERT for
    each row that the snapshot select returned before the DELETE ran, in
    the order of the select, and nothing else. *)
Theorem deleted_rows_are_reinserted_by_restore args cfg w l found after report w2 :
  permitted this (query args) ->
  connects this (queryConfig args) ->
  connects this cfg ->
  operationTypeOf (query args) = Some DELETE ->
  present (extractTableFromQuery (query args)) = true ->
  canWrite this = true ->
  versionDB w = Some l ->
  ledgerOk l ->
  backupQueryOf (query args) (extractTableFromQuery (query args)) <> EmptyString ->
  mysql_execute (backupQueryOf (query args) (extractTableFromQuery (query args))) []
                (db w) = inr (RowSet found, after) ->
  let w1 := snd (handleQuery this args w) in
  handleRollbackToVersion this {| version_id := seq l + 1; rollbackConfig := cfg |} w1
    = (inr report, w2) ->
  isError report = false ->
  issued w2 =
  (issued w1 ++ map (reinserting (extractTableFromQuery (query args))) found)%list.
Proof.
  intros Hperm Hconn Hconn' Hop Htable Hwrite Hdb Hok Hsel Hexec w1.
  destruct (captured_query_ledger args w DELETE l (RowSet found) after
              Hperm Hconn Hop (or_introl eq_refl) Htable Hwrite Hdb Hsel Hexec)
    as (stamp & Hdb1).
  fold w1 in Hdb1.
  set (vi := backupVersion this DELETE _ _ _ _ stamp) in Hdb1.
  rewrite (restore_run this {| version_id := seq l + 1; rollbackConfig := cfg |}
             w1 (saved l vi) (storedRecord l vi)
             (rowsPayload DELETE (query args) (RowSet found))
             Hdb1 (getVersion_saved l vi Hok) eq_refl Hconn').
  destruct (inverseAction (storedRecord l vi) _ w1) as [[e | result] w'] eqn:Hrun;
    intros [= <- <-]; [discriminate |]. intros _.
  apply (inverse_delete_sent _ _ found) in Hrun; [exact Hrun | reflexivity | reflexivity].
Qed.

(** X23. An UPDATE can be taken back: once handleQuery has captured an
    UPDATE, a restore of the recorded version that runs to its end has
    sent one restoring UPDATE for each row with a truthy id that the
    snapshot select returned before the UPDATE ran, and nothing else. *)
Theorem updated_rows_are_restored_by_restore args cfg w l found after report w2 :
  permitted this (query args) ->
  connects this (queryConfig args) ->
  connects this cfg ->
  operationTypeOf (query args) = Some UPDATE ->
  present (extractTableFromQuery (query args)) = true ->
  canWrite this = true ->
  versionDB w = Some l ->
  ledgerOk l ->
  backupQueryOf (query args) (extractTableFromQuery (query args)) <> EmptyString ->
  mysql_execute (backupQueryOf (query args) (extractTableFromQuery (query args))) []
                (db w) = inr (RowSet found, after) ->
  let w1 := snd (handleQuery this args w) in
  handleRollbackToVersion this {| version_id := seq l + 1; rollbackConfig := cfg |} w1
    = (inr report, w2) ->
  isError report = false ->
  issued w2 =
  (issued w1 ++ map (restoringUpdate (extractTableFromQuery (query args)))
                    (filter hasId found))%list.
Proof.
  intros Hperm Hconn Hconn' Hop Htable Hwrite Hdb Hok Hsel Hexec w1.
  destruct (captured_query_ledger args w UPDATE l (RowSet found) after
              Hperm Hconn Hop (or_intror eq_refl) Htable Hwrite Hdb Hsel Hexec)
    as (stamp & Hdb1).
  fold w1 in Hdb1.
  set (vi := backupVersion this UPDATE _ _ _ _ stamp) in Hdb1.
  rewrite (restore_run this {| version_id := seq l + 1; rollbackConfig := cfg |}
             w1 (saved l vi) (storedRecord l vi)
             (rowsPayload UPDATE (query args) (RowSet found))
             Hdb1 (getVersion_saved l vi Hok) eq_refl Hconn').
  destruct (inverseAction (storedRecord l vi) _ w1) as [[e | result] w'] eqn:Hrun;
    intros [= <- <-]; [discriminate |]. intros _.
  apply (inverse_update_sent _ _ found) in Hrun; [exact Hrun | reflexivity | reflexivity].
Qed.

End RestoreRows.

(** ** Clearing and listing the history *)

Section History.
Context {H : Host}.
Variable this : Server.

Lemma filter_length_le {A} (f : A -> bool) l :
  (List.length (filter f l) <= List.length l)%nat.
Proof. induction l as [| a l IH]; cbn; [lia |]. destruct (f a); cbn; lia. Qed.

(** X15. A confirmed clear of the current session removes the records of
    this session and no other: the records of other sessions stay, the
    reported number is the number of records removed, the id sequence is
    kept, and nothing is sent to MySQL. A confirmed clear of all sessions
    (session_only false) leaves no record. *)
Theorem clear_removes_the_chosen_scope args w l :
  confirm args = true ->
  versionDB w = Some l ->
  let sessionOnly := sessionOnlyOf (clearSessionOnly args) in
  exists removed l' w',
    handleClearVersionHistory this args w =
      (inr (ok ("Cleared " ++ ofZ removed ++ " version records for "
                ++ (if sessionOnly then "current session" else "all sessions") ++ ".")),
       w') /\
    versionDB w' = Some l' /\
    seq l' = seq l /\
    (forall r, In r (rows l') <->
               In r (rows l) /\ sessionOnly = true /\ session_id r <> sessionId this) /\
    removed + Z.of_nat (List.length (rows l')) = Z.of_nat (List.length (rows l)) /\
    db w' = db w /\ issued w' = issued w.
Proof.
  intros Hconfirm Hdb sessionOnly.
  unfold handleClearVersionHistory. rewrite Hconfirm. cbn [negb].
  unfold bind, getLedger, putLedger, ret. rewrite Hdb. cbv beta iota zeta.
  fold sessionOnly.
  eexists; eexists; eexists. split; [reflexivity |].
  cbn [versionDB rows seq db issued].
  split; [reflexivity |]. split; [reflexivity |]. split; [| split].
  - intros r. unfold keptRows. destruct sessionOnly; cbn [rows].
    + rewrite filter_In, negb_true_iff, String.eqb_neq. tauto.
    + cbn. split; [intros [] | intros (_ & Hfalse & _); discriminate].
  - pose proof (filter_length_le
                  (fun r => negb (session_id r =? sessionId this)%string) (rows l)).
    unfold keptRows. destruct sessionOnly; cbn; lia.
  - split; reflexivity.
Qed.

Lemma find_unique l version r :
  NoDup (map id l) ->
  find (fun x => id x =? version) l = Some r ->
  forall x, In x l -> id x = version -> x = r.
Proof.
  induction l as [| a l IH]; cbn; [discriminate |].
  intros Hnodup Hfind x Hin Hid. inversion Hnodup as [| ? ? Hnotin Hrest]; subst.
  destruct (id a =? id x) eqn:Heq.
  - injection Hfind as <-. destruct Hin as [-> | Hin]; [reflexivity |].
    apply Z.eqb_eq in Heq. exfalso. apply Hnotin. rewrite Heq. now apply in_map.
  - destruct Hin as [-> | Hin]; [rewrite Z.eqb_refl in Heq; discriminate |].
    now apply IH.
Qed.

Lemma find_none_iff {A} (f : A -> bool) l :
  (forall x, In x l -> f x = false) -> find f l = None.
Proof.
  induction l as [| a l IH]; cbn; [reflexivity |].
  intros Hall. rewrite (Hall a (or_introl eq_refl)). apply IH. auto.
Qed.

(** X16. A cleared version can no longer be restored: after a confirmed
    clear, a restore of a version that was in the cleared scope reports
    that the version was not found and changes nothing. *)
Theorem cleared_version_is_not_found args cfg w l version r :
  confirm args = true ->
  versionDB w = Some l ->
  ledgerOk l ->
  getVersion l version = Some r ->
  sessionOnlyOf (clearSessionOnly args) = false \/ session_id r = sessionId this ->
  let w1 := snd (handleClearVersionHistory this args w) in
  handleRollbackToVersion this {| version_id := version; rollbackConfig := cfg |} w1
  = (inr (failure ("Version " ++ ofZ version ++ " not found.")), w1).
Proof.
  intros Hconfirm Hdb (Hnodup & _) Hget Hscope w1.
  assert (w1 = snd (putLedger
                      {| rows := keptRows this (sessionOnlyOf (clearSessionOnly args)) l;
                         seq := seq l |} w)) as ->.
  { subst w1. unfold handleClearVersionHistory. rewrite Hconfirm. cbn [negb].
    unfold bind, getLedger. rewrite Hdb. reflexivity. }
  unfold handleRollbackToVersion, tryCatch, bind, getLedger.
  cbn [versionDB version_id snd putLedger].
  assert (getVersion {| rows := keptRows this (sessionOnlyOf (clearSessionOnly args)) l;
                        seq := seq l |} version = None) as ->; [| reflexivity].
  unfold getVersion. cbn [rows]. apply find_none_iff.
  intros x Hin. apply Z.eqb_neq. intros Hid.
  unfold keptRows in Hin.
  destruct (sessionOnlyOf (clearSessionOnly args)); [| destruct Hin].
  apply filter_In in Hin. destruct Hin as (Hin & Hother).
  destruct Hscope as [Hall | Hmine]; [discriminate |].
  rewrite (find_unique (rows l) version r Hnodup Hget x Hin Hid) in Hother.
  rewrite Hmine, String.eqb_refl in Hother. discriminate.
Qed.

Lemma insertByTimestamp_perm r l : Permutation (insertByTimestamp r l) (r :: l).
Proof.
  induction l as [| x rest IH]; cbn; [reflexivity |].
  destruct (timestamp x <=? timestamp r)%string; [reflexivity |].
  rewrite IH. apply perm_swap.
Qed.

Lemma newestFirst_perm l : Permutation (newestFirst l) l.
Proof.
  induction l as [| r rest IH]; cbn; [reflexivity |].
  rewrite insertByTimestamp_perm. now constructor.
Qed.

Lemma insertByTimestamp_sorted r l :
  Sorted notOlder l -> Sorted notOlder (insertByTimestamp r l).
Proof.
  induction 1 as [| x rest Hrest IH Hhd]; cbn.
  - repeat constructor.
  - destruct (timestamp x <=? timestamp r)%string eqn:Hle.
    + constructor; [now constructor |]. constructor. exact Hle.
    + constructor; [exact IH |].
      assert (notOlder x r) as Hxr.
      { unfold notOlder. destruct (String.leb_total (timestamp x) (timestamp r));
          congruence. }
      destruct rest as [| y rest']; cbn.
      * now constructor.
      * destruct (timestamp y <=? timestamp r)%string; constructor;
          [exact Hxr | now inversion Hhd].
Qed.

Lemma newestFirst_sorted l : Sorted notOlder (newestFirst l).
Proof.
  induction l as [| r rest IH]; cbn; [constructor |].
  now apply insertByTimestamp_sorted.
Qed.

Lemma Sorted_firstn {A} (R : A -> A -> Prop) n : forall l,
  Sorted R l -> Sorted R (firstn n l).
Proof.
  induction n as [| n IH]; intros l Hs; cbn; [constructor |].
  destruct Hs as [| x rest Hrest Hhd]; [constructor |].
  constructor; [now apply IH |].
  destruct Hhd as [| y rest' Hxy]; destruct n; cbn; constructor. exact Hxy.
Qed.

Lemma limitTo_in {A} n (l : list A) x : In x (limitTo n l) -> In x l.
Proof.
  unfold limitTo. destruct (n <? 0); [auto |]. intros Hin.
  rewrite <- (firstn_skipn (Z.to_nat n) l). apply in_or_app. now left.
Qed.

Lemma limitTo_length {A} n (l : list A) :
  0 <= n -> Z.of_nat (List.length (limitTo n l)) <= n.
Proof.
  intros Hn. unfold limitTo. destruct (Z.ltb_spec n 0); [lia |].
  pose proof (firstn_le_length (Z.to_nat n) l). lia.
Qed.

(** X17. The listing shows only what was asked for: every record shown
    is in the ledger and passes the filters of the call; unless
    session_only is false, every record shown belongs to the current
    session; no more records are shown than the limit, which is 50 when
    none, or 0, is given; and the report says that no history was found
    exactly when no record is shown. Listing changes nothing. *)
Theorem listing_shows_what_was_asked args w l :
  versionDB w = Some l ->
  let shown := selectVersions this args l in
  handleListVersions this args w =
    (inr (ok match shown with
             | [] => "No version history found."
             | _ => "Version History (Session: " ++ sliceTo 8 (sessionId this) ++ "...):"
                    ++ nl ++ nl ++ String.concat "" (map versionEntry shown)
             end), w) /\
  (forall r, In r shown -> In r (rows l) /\ listed this args r = true) /\
  (listSessionOnly args <> Some false ->
   forall r, In r shown -> session_id r = sessionId this) /\
  (0 <= limitOf (listLimit args) ->
   Z.of_nat (List.length shown) <= limitOf (listLimit args)) /\
  (listLimit args = None \/ listLimit args = Some 0 ->
   (List.length shown <= 50)%nat).
Proof.
  intros Hdb shown.
  assert (forall r, In r shown -> In r (rows l) /\ listed this args r = true) as Hshown.
  { intros r Hin. apply limitTo_in in Hin.
    apply (Permutation_in _ (newestFirst_perm _)) in Hin.
    now apply filter_In in Hin. }
  split; [| split; [exact Hshown | split; [| split]]].
  - unfold handleListVersions, bind, getLedger. rewrite Hdb. cbn [ret]. fold shown.
    destruct shown; reflexivity.
  - intros Hflag r Hin. apply Hshown in Hin. destruct Hin as (_ & Hlisted).
    unfold listed in Hlisted.
    assert (sessionOnlyOf (listSessionOnly args) = true) as Hs
        by (revert Hflag; destruct (listSessionOnly args) as [[] |]; cbn; congruence).
    rewrite Hs in Hlisted.
    apply andb_prop in Hlisted. destruct Hlisted as (Hlisted & _).
    apply andb_prop in Hlisted. destruct Hlisted as (Hsession & _).
    now apply String.eqb_eq.
  - intros Hlimit. now apply limitTo_length.
  - intros Hdefault.
    assert (limitOf (listLimit args) = 50) as Hfifty
        by (destruct Hdefault as [-> | ->]; reflexivity).
    pose proof (limitTo_length (limitOf (listLimit args))
                  (newestFirst (filter (listed this args) (rows l)))) as Hlen.
    fold (selectVersions this args l) in Hlen. fold shown in Hlen. lia.
Qed.

(** X18. The listing is ordered by timestamp, greatest first: of two
    records shown one after the other, the later one has no greater
    timestamp string. When the limit is negative, or not smaller than the
    number of matching records, every matching record is shown exactly
    once. *)
Theorem listing_is_ordered_by_timestamp args l :
  let matching := filter (listed this args) (rows l) in
  let shown := selectVersions this args l in
  Sorted notOlder shown /\
  (limitOf (listLimit args) < 0 \/
   Z.of_nat (List.length matching) <= limitOf (listLimit args) ->
   Permutation shown matching).
Proof.
  intros matching shown. subst shown. unfold selectVersions, limitTo. fold matching.
  split.
  - destruct (limitOf (listLimit args) <? 0);
      [| apply Sorted_firstn]; apply newestFirst_sorted.
  - intros Hall. destruct (Z.ltb_spec (limitOf (listLimit args)) 0) as [| Hpos].
    + apply newestFirst_perm.
    + destruct Hall as [| Hfit]; [lia |].
      rewrite firstn_all2; [apply newestFirst_perm |].
      rewrite (Permutation_length (newestFirst_perm matching)). lia.
Qed.

End History.

(** ** The table renderer *)

Module RenderFacts.
Import Render MatchingFacts.

Lemma charCount_app u v : charCount (u ++ v) = (charCount u + charCount v)%nat.
Proof. induction u as [| a u IH]; cbn; [reflexivity | rewrite IH; lia]. Qed.

Lemma charCount_plain s : plain s = true -> charCount s = String.length s.
Proof.
  induction s as [| a s IH]; cbn [plain charCount String.length]; [reflexivity |].
  intros Hp. apply andb_prop in Hp. destruct Hp as (Ha & Hs).
  apply Nat.ltb_lt in Ha.
  destruct (Nat.leb_spec 128 (nat_of_ascii a)); [lia |]. cbn [andb].
  now rewrite IH.
Qed.

Lemma charCount_repeat n s : charCount (repeatString n s) = (n * charCount s)%nat.
Proof.
  induction n as [| n IH]; cbn [repeatString]; [reflexivity |].
  rewrite charCount_app, IH. lia.
Qed.

Lemma charCount_padEnd w s :
  plain s = true -> (String.length s <= w)%nat -> charCount (padEnd w s) = w.
Proof.
  intros Hp Hle. unfold padEnd.
  rewrite charCount_app, charCount_repeat, (charCount_plain s Hp).
  change (charCount " ") with 1%nat. lia.
Qed.

Lemma join_cons sep x rest :
  rest <> [] -> join sep (x :: rest) = (x ++ sep ++ join sep rest)%string.
Proof. destruct rest; [contradiction | reflexivity]. Qed.

Lemma charCount_join sep l :
  charCount (join sep l) =
  (fold_right (fun x acc => charCount x + acc) 0 l
   + (List.length l - 1) * charCount sep)%nat.
Proof.
  induction l as [| x rest IH]; [reflexivity |].
  destruct rest as [| y rest].
  - cbn. lia.
  - rewrite join_cons by discriminate.
    rewrite !charCount_app, IH. cbn [fold_right List.length]. lia.
Qed.

(** A line whose cells have the widths of their columns is as wide as the
    table. *)
Lemma framed_width rows columns left mid right (cell : string -> string) :
  charCount left = 1%nat -> charCount mid = 1%nat -> charCount right = 1%nat ->
  (forall col, In col columns -> charCount (cell col) = (columnWidth rows col + 2)%nat) ->
  charCount (left ++ join mid (map cell columns) ++ right) = tableWidth rows columns.
Proof.
  intros Hl Hm Hr Hcells.
  rewrite !charCount_app, charCount_join, Hl, Hm, Hr, length_map.
  unfold tableWidth.
  assert (fold_right (fun x acc => charCount x + acc) 0 (map cell columns)
          = fold_right (fun col acc => columnWidth rows col + 2 + acc) 0 columns)%nat as ->.
  { induction columns as [| col rest IH]; cbn; [reflexivity |].
    rewrite Hcells by now left. rewrite IH; [reflexivity |].
    intros c Hc. apply Hcells. now right. }
  lia.
Qed.

Lemma columnWidth_name rows col : (String.length col <= columnWidth rows col)%nat.
Proof.
  unfold columnWidth. induction rows as [| r rest IH]; cbn; lia.
Qed.

Lemma columnWidth_cell rows col row :
  In row rows -> (String.length (cellText row col) <= columnWidth rows col)%nat.
Proof.
  unfold columnWidth. induction rows as [| r rest IH]; cbn; [intros [] |].
  intros [-> | Hin]; [lia |]. specialize (IH Hin). lia.
Qed.

Lemma concat_lines (f : Row -> string) rows last :
  (String.concat "" (map (fun row => f row ++ nl) rows) ++ last)%string
  = join nl (map f rows ++ [last]).
Proof.
  induction rows as [| r rest IH]; [reflexivity |].
  cbn [map app].
  rewrite (join_cons nl (f r) (map f rest ++ [last]))
    by (intros Heq; apply app_eq_nil in Heq; destruct Heq; discriminate).
  rewrite <- IH. cbn [String.concat].
  destruct (map (fun row => (f row ++ nl)%string) rest) eqn:Hrest.
  - cbn. now rewrite append_assoc.
  - cbn [append]. now rewrite !append_assoc.
Qed.

(** X19. The rendered table is rectangular. For a non-empty row set
    whose column names and cells are ASCII text, the result is the lines
    of the table joined by line feeds: a top border, the header, a
    separator, one line per row and a bottom border, every one of them
    with the same number of characters, so that no cell is cut and none
    overflows its column. *)
Theorem rendered_table_is_rectangular first rest :
  let rows := first :: rest in
  let columns := map fst first in
  forallb plain columns = true ->
  (forall row col, In row rows -> In col columns -> plain (cellText row col) = true) ->
  formatResultsAsTable (RowSet rows) = inr (join nl (tableLines rows columns)) /\
  List.length (tableLines rows columns) = (List.length rows + 4)%nat /\
  Forall (fun l => charCount l = tableWidth rows columns) (tableLines rows columns).
Proof.
  intros rows columns Hnames Hcells.
  rewrite forallb_forall in Hnames.
  split; [| split].
  - unfold rows, columns. unfold formatResultsAsTable, tableLines. f_equal.
    rewrite (concat_lines
               (fun row => line (first :: rest) (map fst first) (cellText row))
               (first :: rest)).
    reflexivity.
  - unfold tableLines. cbn [Datatypes.length]. rewrite length_app, length_map.
    cbn [Datatypes.length]. unfold Row. lia.
  - assert (forall l m r, charCount l = 1%nat -> charCount m = 1%nat ->
                          charCount r = 1%nat ->
                          charCount (border l m r rows columns) = tableWidth rows columns)
      as Hborder.
    { intros l m r Hl Hm Hr. unfold border.
      apply (framed_width rows columns l m r
               (fun col => repeatString (columnWidth rows col + 2) "─")); try assumption.
      intros col _. rewrite charCount_repeat. change (charCount "─") with 1%nat. lia. }
    assert (forall cell, (forall col, In col columns ->
                            plain (cell col) = true /\
                            (String.length (cell col) <= columnWidth rows col)%nat) ->
                         charCount (line rows columns cell) = tableWidth rows columns)
      as Hline.
    { intros cell Hcell. unfold line.
      apply (framed_width rows columns "│" "│" "│"
               (fun col => (" " ++ padEnd (columnWidth rows col) (cell col) ++ " ")%string));
        try reflexivity.
      intros col Hcol. destruct (Hcell col Hcol) as (Hp & Hle).
      rewrite !charCount_app, charCount_padEnd by assumption.
      change (charCount " ") with 1%nat. lia. }
    unfold tableLines.
    constructor; [now apply Hborder |].
    constructor;
      [apply Hline; intros col Hcol; split;
       [now apply Hnames | apply columnWidth_name] |].
    constructor; [now apply Hborder |].
    apply Forall_app. split.
    + apply Forall_forall. intros l Hl. apply in_map_iff in Hl.
      destruct Hl as (row & <- & Hrow). apply Hline. intros col Hcol.
      split; [now apply Hcells | now apply columnWidth_cell].
    + constructor; [now apply Hborder | constructor].
Qed.

End RenderFacts.

(** ** The size report *)

Section SizeReport.
Context {H : Host}.
Variable this : Server.

(** X20. The size report always asks about the server's default
    database: when a default database is configured, every statement that
    handleDatabaseSize sends is bound to its name, whatever database the
    call itself names, and at least one and at most two statements are
    sent. *)
Theorem database_size_asks_for_the_default_database args w name :
  database (defaultConfig this) = Some name ->
  name <> EmptyString ->
  connects this args ->
  exists sent,
    issued (snd (handleDatabaseSize this args w)) = (issued w ++ sent)%list /\
    Forall (fun st => params st = [VStr name]) sent /\
    (1 <= List.length sent <= 2)%nat.
Proof.
  intros Hdefault Hname Hconn.
  assert (firstPresent (database (defaultConfig this)) (database args) = Some name) as Hp.
  { unfold firstPresent, present. rewrite Hdefault.
    destruct (String.eqb_spec name ""); [contradiction | reflexivity]. }
  unfold handleDatabaseSize, bind at 1. rewrite Hconn. cbn [ret].
  unfold schemaParam. rewrite Hp. unfold bind at 1. cbn [ret].
  unfold bind at 1, execute at 1.
  destruct (mysql_execute databaseSizeQuery [VStr name] (db w)) as [e | [rows d]].
  - eexists. split; [reflexivity |]. split; [repeat constructor | cbn; lia].
  - destruct rows as [[| dbInfo more] | affected insert_id].
    + eexists. split; [reflexivity |]. split; [repeat constructor | cbn; lia].
    + cbv zeta. unfold bind at 1. cbn [ret]. unfold bind at 1, execute at 1.
      cbn [db issued].
      destruct (mysql_execute tableSizesQuery [VStr name] d) as [e | [sizes d']].
      * eexists. cbn [snd issued]. rewrite <- app_assoc.
        split; [reflexivity |]. split; [repeat constructor | cbn; lia].
      * destruct sizes as [[| t ts] | a i]; unfold renderRows, bind, liftE;
          try destruct (Render.formatResultsAsTable _);
          eexists; cbn [snd issued throw ret]; rewrite <- app_assoc;
          (split; [reflexivity |]); (split; [repeat constructor | cbn; lia]).
    + eexists. split; [reflexivity |]. split; [repeat constructor | cbn; lia].
Qed.

End SizeReport.

(** ** The tools that only read *)

Section ReadOnly.
Context {H : Host} {Lang : Builtins}.
Variable this : Server.

Lemma sendsAtMost_ret {A} n (a : A) : sendsAtMost n (ret a).
Proof.
  intro w. split; [reflexivity |]. exists []. cbn. rewrite app_nil_r. split; [reflexivity | lia].
Qed.

Lemma sendsAtMost_throw {A} n e : sendsAtMost n (@throw _ A e).
Proof.
  intro w. split; [reflexivity |]. exists []. cbn. rewrite app_nil_r. split; [reflexivity | lia].
Qed.

Lemma sendsAtMost_liftE {A} n (r : string + A) : sendsAtMost n (liftE r).
Proof. destruct r; [apply sendsAtMost_throw | apply sendsAtMost_ret]. Qed.

Lemma sendsAtMost_getLedger n : sendsAtMost n getLedger.
Proof.
  intro w. split; [reflexivity |]. exists []. cbn. rewrite app_nil_r. split; [reflexivity | lia].
Qed.

Lemma sendsAtMost_createConnection n cfg : sendsAtMost n (createConnection this cfg).
Proof.
  unfold createConnection. cbv zeta.
  destruct (_ || _); [apply sendsAtMost_throw |].
  destruct (mysql_connect _); [apply sendsAtMost_throw | apply sendsAtMost_ret].
Qed.

Lemma sendsAtMost_bind_free {A C} n (m : M A) (f : A -> M C) :
  sendsAtMost 0 m -> (forall a, sendsAtMost n (f a)) -> sendsAtMost n (bind m f).
Proof.
  intros Hm Hf w. unfold bind. destruct (Hm w) as (Hdb & sent & Hsent & Hlen).
  destruct sent; [| cbn in Hlen; lia]. rewrite app_nil_r in Hsent.
  destruct (m w) as [[e | a] w1]; cbn [snd] in *.
  - split; [exact Hdb |]. exists []. rewrite app_nil_r. split; [exact Hsent | cbn; lia].
  - destruct (Hf a w1) as (Hdb' & sent' & Hsent' & Hlen').
    split; [congruence |]. exists sent'. split; [congruence | exact Hlen'].
Qed.

Lemma sendsAtMost_bind_execute {C} n text values (f : ExecResult -> M C) :
  (forall a, sendsAtMost n (f a)) -> sendsAtMost (S n) (bind (execute text values) f).
Proof.
  intros Hf w. unfold bind, execute.
  destruct (mysql_execute text values (db w)) as [e | [r d]]; cbn [snd].
  - split; [reflexivity |]. eexists. split; [reflexivity | cbn; lia].
  - match goal with |- context [f r ?w1] =>
      destruct (Hf r w1) as (Hdb' & sent' & Hsent' & Hlen') end.
    cbn [versionDB issued] in *. split; [exact Hdb' |].
    eexists. rewrite Hsent', <- app_assoc. split; [reflexivity |].
    cbn [Datatypes.length app]. lia.
Qed.

Ltac count :=
  repeat first
    [ apply sendsAtMost_ret | apply sendsAtMost_throw | apply sendsAtMost_liftE
    | apply sendsAtMost_getLedger | apply sendsAtMost_createConnection
    | apply sendsAtMost_bind_execute; intros ?
    | apply sendsAtMost_bind_free; [| intros ?]
    | match goal with
      | |- sendsAtMost _ (match ?x with _ => _ end) => destruct x
      | |- sendsAtMost _ (if ?x then _ else _) => destruct x
      end ].

(** X24. The tools that only read leave no trace in the history: the
    handlers of show tables, describe table, show databases, table info,
    show indexes, show processes, database size, explain query and list
    versions write no history record, whatever MySQL answers and also
    when they fail; each sends at most one statement, the size report at
    most two, and the listing of versions sends none. *)
Theorem read_only_tools_leave_no_record request budget w :
  statementsOf request = Some budget ->
  versionDB (snd (serve this request w)) = versionDB w /\
  exists sent,
    issued (snd (serve this request w)) = (issued w ++ sent)%list /\
    (List.length sent <= budget)%nat.
Proof.
  intros Hkind. rewrite serve_world.
  assert (sendsAtMost budget (toolHandler this request)) as Hcount.
  { destruct request; cbn in Hkind; try discriminate;
      injection Hkind as <-; cbn [toolHandler].
    - unfold handleShowTables, firstColumn. count.
    - unfold handleDescribeTable, renderRows. count.
    - unfold handleShowDatabases, firstColumn. count.
    - unfold handleTableInfo, tableInfoParams. cbv zeta. count.
    - unfold handleShowIndexes, renderRows. count.
    - unfold handleShowProcesses, renderRows. count.
    - unfold handleDatabaseSize, schemaParam, renderRows. cbv zeta. count.
    - unfold handleExplainQuery, planOf, renderRows. cbv zeta. count.
    - unfold handleListVersions. count. }
  exact (Hcount w).
Qed.

End ReadOnly.

(** * The further properties on the small host *)

Module MoreScenarios.
Import Demo Cases.

Lemma ledgerOk_empty : ledgerOk emptyLedger.
Proof. split; constructor. Qed.

Lemma ledgerOk_one v : ledgerOk (ledgerOf v).
Proof.
  split; cbn.
  - constructor; [intros [] | constructor].
  - constructor; [lia | constructor].
Qed.

(** X1 at work. *)
Lemma extracted_table_witness :
  "users"%string <> EmptyString /\ Matching.allChars Matching.is_ident "users" = true.
Proof.
  apply (extracted_table_is_identifier "DELETE FROM `Users` WHERE id = 1" "users").
  reflexivity.
Defined.

(** X2 at work: a second record is saved and read back. *)
Lemma saved_version_witness :
  exists w' l',
    saveVersion deleteVersion (world people (Some (ledgerOf deleteRecord))) = (inr 2, w') /\
    versionDB w' = Some l' /\
    getVersion l' 2 = Some (storedRecord (ledgerOf deleteRecord) deleteVersion) /\
    getVersion l' 1 = Some deleteRecord.
Proof.
  destruct (saved_version_round_trip deleteVersion
              (world people (Some (ledgerOf deleteRecord))) (ledgerOf deleteRecord)
              eq_refl (ledgerOk_one deleteRecord))
    as (w' & l' & Hrun & Hdb & _ & Hnew & _ & Hold & _).
  exists w', l'. repeat split; try assumption. apply Hold. reflexivity.
Defined.

(** X3 at work: an insert leaves version 1 as it is. *)
Lemma immutable_records_witness :
  lookupVersion (snd (serve server (mysql_insert_data (insertArgs "x"))
                        (world people (Some (ledgerOf deleteRecord))))) 1
  = Some deleteRecord.
Proof.
  apply (history_records_are_immutable server (mysql_insert_data (insertArgs "x"))
           (world people (Some (ledgerOf deleteRecord))) (ledgerOf deleteRecord)).
  - reflexivity.
  - reflexivity.
  - intros a [=].
Defined.

(** X4 at work: a clear of all sessions keeps the sequence at 2. *)
Lemma ids_not_reused_witness :
  exists l',
    versionDB (snd (serve server (mysql_clear_version_history clearAll)
                      (world people (Some twoSessions)))) = Some l' /\
    ledgerOk l' /\ 2 <= seq l'.
Proof.
  destruct (version_ids_are_never_reused server (mysql_clear_version_history clearAll)
              (world people (Some twoSessions)) twoSessions) as (l' & Hdb & Hok & Hseq & _).
  - reflexivity.
  - split; cbn.
    + repeat constructor; cbn; intuition discriminate.
    + repeat constructor; cbn; lia.
  - exists l'. split; [exact Hdb | split; [exact Hok | exact Hseq]].
Defined.

(** X5 at work: the row inserted with identity 7 is deleted again. *)
Lemma insert_then_restore_witness :
  let w1 := snd (handleInsertData server (insertArgs "x")
                   (world people (Some emptyLedger))) in
  let w2 := snd (handleRollbackToVersion server (restore 1) w1) in
  exists sent,
    issued w2 = (issued w1 ++ [sent])%list /\
    sql sent = "DELETE FROM users WHERE id = ?" /\ params sent = [VNum 7].
Proof.
  apply (inserted_rows_are_deleted_by_restore server (insertArgs "x") noOverride
           (world people (Some emptyLedger)) emptyLedger 1 7
           (people ++ [person 7 "x"])%list).
  - reflexivity.
  - reflexivity.
  - reflexivity.
  - reflexivity.
  - apply ledgerOk_empty.
  - vm_compute; reflexivity.
  - lia.
  - lia.
  - lia.
Defined.

(** X6 at work: the created table is dropped again. *)
Lemma create_then_restore_witness :
  let w1 := snd (handleCreateTable server createUsers (world people (Some emptyLedger))) in
  let w2 := snd (handleRollbackToVersion server (restore 1) w1) in
  exists outcome,
    issued w2 = (issued w1 ++ [{| sql := "DROP TABLE IF EXISTS users"; params := [];
                                  completed := outcome |}])%list.
Proof.
  apply (created_table_is_dropped_by_restore server createUsers noOverride
           (world people (Some emptyLedger)) emptyLedger (ResultSetHeader 0 0) people).
  - reflexivity.
  - reflexivity.
  - reflexivity.
  - reflexivity.
  - apply ledgerOk_empty.
  - vm_compute; reflexivity.
Defined.

(** X7 at work: the marker of version 2 cannot be restored. *)
Lemma marker_witness :
  let w2 := snd (handleRollbackToVersion server (restore 1)
                   (world [person 5 "b"] (Some (ledgerOf (updateRecord [person 5 "a"]))))) in
  handleRollbackToVersion server (restore 2) w2
  = (inr (failure "Version 2 has no backup data to restore."), w2).
Proof.
  apply (rollback_marker_cannot_be_restored server (restore 1) noOverride
           (world [person 5 "b"] (Some (ledgerOf (updateRecord [person 5 "a"]))))
           (ledgerOf (updateRecord [person 5 "a"]))
           (updateRecord [person 5 "a"]) (updated [person 5 "a"])
           "Restored 1 rows to original state in table 'users'"
           (snd (inverseAction (updateRecord [person 5 "a"]) (updated [person 5 "a"])
                   (world [person 5 "b"]
                          (Some (ledgerOf (updateRecord [person 5 "a"]))))))).
  - reflexivity.
  - apply ledgerOk_one.
  - reflexivity.
  - reflexivity.
  - reflexivity.
  - vm_compute; reflexivity.
Defined.

(** X8 at work: a DELETE that passed the gate had the delete permission. *)
Lemma authorised_witness :
  permissionFor server DELETE = true /\ canWrite server = true.
Proof.
  apply (classified_statement_is_authorised server "DELETE FROM users" DELETE
           (world people None)).
  - vm_compute; reflexivity.
  - vm_compute; reflexivity.
Defined.

(** X9 at work: the guarded server refuses the DELETE. *)
Lemma refused_delete_witness :
  serve guarded (mysql_query deleteAll) (world people (Some emptyLedger)) =
  (failure "Error: DELETE operations are not allowed. Set ALLOW_DELETE_OPERATION=true to enable.",
   world people (Some emptyLedger)).
Proof.
  apply (delete_is_refused_without_permission guarded deleteAll
           (world people (Some emptyLedger))).
  - reflexivity.
  - vm_compute; reflexivity.
Defined.

(** X10 at work: the record of the DELETE holds the two rows. *)
Lemma record_precedes_witness :
  exists written,
    versionDB (snd (handleQuery server deleteAll (world people (Some emptyLedger))))
      = Some {| rows := [written]; seq := 1 |} /\
    option_map deletedRows (backup_data written) = Some (Some (RowSet people)).
Proof.
  destruct (history_record_precedes_the_write server deleteAll
              (world people (Some emptyLedger)) DELETE emptyLedger
              (Some {| bi_type := DELETE; bi_sql_query := "DELETE FROM users";
                       deletedRows := Some (RowSet people); originalRows := None;
                       structure := None; data := None; tableName := None;
                       createQuery := None; insertId := None; insertedRows := None;
                       idRange := None |})
              (Some 2)
              (snd (captureSnapshot DELETE "DELETE FROM users" (Some "users") None
                      (Some Conn) (world people (Some emptyLedger)))))
    as (Hledger & Hpayload & _).
  - reflexivity.
  - reflexivity.
  - vm_compute; reflexivity.
  - left; reflexivity.
  - vm_compute; reflexivity.
  - reflexivity.
  - vm_compute; reflexivity.
  - eexists. split; [exact Hledger |]. rewrite Hpayload. reflexivity.
Defined.

(** X11 at work: a SELECT is sent as it is and leaves no record. *)
Lemma unclassified_witness :
  versionDB (snd (handleQuery server selectUsers (world people (Some emptyLedger))))
    = Some emptyLedger /\
  exists outcome,
    issued (snd (handleQuery server selectUsers (world people (Some emptyLedger))))
    = [{| sql := "SELECT * FROM users"; params := []; completed := outcome |}].
Proof.
  apply (unclassified_statement_is_not_recorded server selectUsers
           (world people (Some emptyLedger))).
  - reflexivity.
  - reflexivity.
  - left. vm_compute; reflexivity.
Defined.

(** X12 at work: three deleted rows, three INSERTs. *)
Lemma restore_delete_witness :
  issued (snd (inverseAction deleteRecord deletedThree (world [] None)))
  = map (reinserting (Some "users")) [person 1 "a"; person 2 "b"; person 3 "c"].
Proof.
  apply (restore_delete_statements deleteRecord deletedThree
           [person 1 "a"; person 2 "b"; person 3 "c"] (world [] None)
           "Restored 3 deleted rows to table 'users'"
           (snd (inverseAction deleteRecord deletedThree (world [] None)))).
  - reflexivity.
  - reflexivity.
  - vm_compute; reflexivity.
Defined.

(** X13 at work: id 2 is taken, so one row is restored and the second
    INSERT fails. *)
Lemma partial_restore_witness :
  exists done row rest tail,
    [person 1 "a"; person 2 "b"; person 3 "c"] = (done ++ row :: rest)%list /\
    issued (snd (restoreOver [person 2 "x"]))
      = (map (reinserting (Some "users")) done ++ tail)%list /\
    (tail = [] \/
     exists values, tail = [{| sql := insertSQLOf (Some "users") row;
                               params := values; completed := false |}]) /\
    versionDB (snd (restoreOver [person 2 "x"])) = Some (ledgerOf deleteRecord).
Proof.
  apply (restore_delete_stops_at_first_failure server (restore 1)
           (world [person 2 "x"] (Some (ledgerOf deleteRecord)))
           (ledgerOf deleteRecord) deleteRecord deletedThree
           [person 1 "a"; person 2 "b"; person 3 "c"]
           (failure ("Rollback failed: " ++ lostKey))
           (snd (restoreOver [person 2 "x"]))).
  - reflexivity.
  - reflexivity.
  - reflexivity.
  - reflexivity.
  - reflexivity.
  - reflexivity.
  - vm_compute; reflexivity.
  - reflexivity.
Defined.

(** X14 at work: the table is created, then its two rows come back. *)
Lemma restore_dropped_witness :
  issued (snd (inverseAction dropRecord droppedUsers (world [] None)))
  = {| sql := "CREATE TABLE users (id INT, name TEXT)"; params := []; completed := true |}
    :: map (reinserting (Some "users")) people.
Proof.
  apply (restore_dropped_table_statements dropRecord droppedUsers
           [("Table", VStr "users");
            ("Create Table", VStr "CREATE TABLE users (id INT, name TEXT)")]
           "CREATE TABLE users (id INT, name TEXT)" people (world [] None)
           "Restored table 'users' with 2 rows"
           (snd (inverseAction dropRecord droppedUsers (world [] None)))).
  - reflexivity.
  - reflexivity.
  - reflexivity.
  - reflexivity.
  - vm_compute; reflexivity.
Defined.

(** X15 at work: the clear removes the record of this session only. *)
Lemma clear_scope_witness :
  exists removed l' w',
    handleClearVersionHistory server clearMine (world people (Some twoSessions)) =
      (inr (ok ("Cleared " ++ ofZ removed ++ " version records for current session.")), w') /\
    versionDB w' = Some l' /\ seq l' = 2 /\
    (forall r, In r (rows l') <->
               In r (rows twoSessions) /\ true = true /\ session_id r <> sessionId server) /\
    removed + Z.of_nat (List.length (rows l')) = 2 /\
    db w' = people /\ issued w' = [].
Proof.
  apply (clear_removes_the_chosen_scope server clearMine
           (world people (Some twoSessions)) twoSessions).
  - reflexivity.
  - reflexivity.
Defined.

(** X16 at work: version 1 is gone after the clear. *)
Lemma cleared_version_witness :
  let w1 := snd (handleClearVersionHistory server clearMine
                   (world people (Some twoSessions))) in
  handleRollbackToVersion server (restore 1) w1
  = (inr (failure "Version 1 not found."), w1).
Proof.
  apply (cleared_version_is_not_found server clearMine noOverride
           (world people (Some twoSessions)) twoSessions 1 deleteRecord).
  - reflexivity.
  - reflexivity.
  - split; cbn.
    + repeat constructor; cbn; intuition discriminate.
    + repeat constructor; cbn; lia.
  - reflexivity.
  - right. reflexivity.
Defined.

(** X17 at work: the default listing shows the record of this session. *)
Lemma listing_witness :
  Forall (fun r => session_id r = sessionId server)
         (selectVersions server listDefault twoSessions).
Proof.
  destruct (listing_shows_what_was_asked server listDefault
              (world people (Some twoSessions)) twoSessions eq_refl)
    as (_ & _ & Hmine & _).
  apply Forall_forall. apply Hmine. discriminate.
Defined.

(** X18 at work: with session_only false both records are shown. *)
Lemma listing_order_witness :
  Sorted notOlder (selectVersions server
                     {| listLimit := None; listSessionOnly := Some false;
                        listOperation := None; listTable := None |} twoSessions) /\
  Permutation (selectVersions server
                 {| listLimit := None; listSessionOnly := Some false;
                    listOperation := None; listTable := None |} twoSessions)
              (rows twoSessions).
Proof.
  destruct (listing_is_ordered_by_timestamp server
              {| listLimit := None; listSessionOnly := Some false;
                 listOperation := None; listTable := None |} twoSessions)
    as (Hsorted & Hall).
  split; [exact Hsorted |]. apply Hall. right. cbn. lia.
Defined.

(** X19 at work: a table of two rows has six lines of one width. *)
Lemma rectangular_witness :
  Forall (fun l => Render.charCount l = Render.tableWidth people ["id"; "name"])
         (Render.tableLines people ["id"; "name"]).
Proof.
  destruct (RenderFacts.rendered_table_is_rectangular (person 5 "a") [person 6 "b"])
    as (_ & _ & Hwide).
  - reflexivity.
  - intros row col [<- | [<- | []]] [<- | [<- | []]]; reflexivity.
  - exact Hwide.
Defined.

(** X20 at work: the call names the database archive, the statements
    are bound to shop. *)
Lemma size_report_witness :
  exists sent,
    issued (snd (handleDatabaseSize server otherDatabase (world people None)))
      = sent /\
    Forall (fun st => params st = [VStr "shop"]) sent.
Proof.
  destruct (database_size_asks_for_the_default_database server otherDatabase
              (world people None) "shop") as (sent & Hsent & Hall & _).
  - reflexivity.
  - discriminate.
  - reflexivity.
  - exists sent. split; [exact Hsent | exact Hall].
Defined.

(** X21 at work: the INSERT gets identity 7 and is recorded with it. *)
Lemma query_insert_witness :
  exists written b,
    versionDB (snd (handleQuery server insertQuery (world people (Some emptyLedger))))
      = Some {| rows := [written]; seq := 1 |} /\
    backup_data written = Some b /\ idRange b = Some (7, 7).
Proof.
  pose proof (query_insert_is_recorded_after_it_ran server insertQuery
                (world people (Some emptyLedger)) emptyLedger) as Hrun.
  cbv zeta in Hrun.
  change (mysql_execute (query insertQuery) [] (db (world people (Some emptyLedger))))
    with (@inr string _ (ResultSetHeader 1 7,
                         (people ++ [[("id", VNum 7); ("name", VNull)]])%list)) in Hrun.
  destruct Hrun as (_ & written & b & Hledger & _ & Hb & _ & Hrange & _).
  - reflexivity.
  - reflexivity.
  - vm_compute; reflexivity.
  - vm_compute; reflexivity.
  - reflexivity.
  - exists written, b. split; [exact Hledger |]. split; [exact Hb |].
    apply Hrange; lia.
Defined.

(** X22 at work: the two deleted rows are inserted again. *)
Lemma delete_then_restore_witness :
  let w1 := snd (handleQuery server deleteAll (world people (Some emptyLedger))) in
  let w2 := snd (handleRollbackToVersion server (restore 1) w1) in
  issued w2 =
  (issued w1 ++ map (reinserting (Some "users")) people)%list.
Proof.
  apply (deleted_rows_are_reinserted_by_restore server deleteAll noOverride
           (world people (Some emptyLedger)) emptyLedger people people
           (match fst (handleRollbackToVersion server (restore 1)
                         (snd (handleQuery server deleteAll
                                 (world people (Some emptyLedger))))) with
            | inr report => report
            | inl message => failure message
            end)).
  - reflexivity.
  - reflexivity.
  - reflexivity.
  - vm_compute; reflexivity.
  - reflexivity.
  - reflexivity.
  - reflexivity.
  - apply ledgerOk_empty.
  - vm_compute; discriminate.
  - vm_compute; reflexivity.
  - vm_compute; reflexivity.
  - vm_compute; reflexivity.
Defined.

(** X23 at work: both rows are written back by id. *)
Lemma update_then_restore_witness :
  let w1 := snd (handleQuery server renameAll (world people (Some emptyLedger))) in
  let w2 := snd (handleRollbackToVersion server (restore 1) w1) in
  issued w2 =
  (issued w1 ++ map (restoringUpdate (Some "users")) people)%list.
Proof.
  apply (updated_rows_are_restored_by_restore server renameAll noOverride
           (world people (Some emptyLedger)) emptyLedger people people
           (match fst (handleRollbackToVersion server (restore 1)
                         (snd (handleQuery server renameAll
                                 (world people (Some emptyLedger))))) with
            | inr report => report
            | inl message => failure message
            end)).
  - reflexivity.
  - reflexivity.
  - reflexivity.
  - vm_compute; reflexivity.
  - reflexivity.
  - reflexivity.
  - reflexivity.
  - apply ledgerOk_empty.
  - vm_compute; discriminate.
  - vm_compute; reflexivity.
  - vm_compute; reflexivity.
  - vm_compute; reflexivity.
Defined.

(** X24 at work: the size report sends its two queries and records
    nothing. *)
Lemma read_only_witness :
  let w1 := snd (serve server (mysql_database_size noOverride)
                   (world people (Some emptyLedger))) in
  versionDB w1 = Some emptyLedger /\
  exists sent, issued w1 = ([] ++ sent)%list /\ (List.length sent <= 2)%nat.
Proof.
  apply (read_only_tools_leave_no_record server (mysql_database_size noOverride) 2
           (world people (Some emptyLedger))).
  reflexivity.
Defined.

End MoreScenarios.
